(** * orchestrator-agent: the [osagent] package

    A shallow embedding of [osagent/osagent.go]: the layer that runs
    external commands, tokenizes their output and maps the tokens onto
    logical volumes, mounts and disk usage; and of the handlers of the
    package [http] that serve it.

    Go strings are byte sequences; they are modelled by [string], whose
    characters ([ascii]) are exactly the 256 byte values.  The parts of the
    Go standard library the package calls ([strings], [regexp], [strconv])
    are modelled in modules of the same name, from their documented
    behaviour.  External commands are modelled by a host that answers every
    command line from the history of the commands executed so far. *)

From Stdlib Require Import ZArith NArith List String Ascii Bool Lia.
From Stdlib Require Import Floats.
Import ListNotations.

Local Open Scope list_scope.
Local Open Scope string_scope.

(** ** Bytes with a name *)

Definition LF : ascii := "010"%char.   (* '\n' *)
Definition TAB : ascii := "009"%char.  (* '\t' *)
Definition SP : ascii := " "%char.

Definition nl : string := String LF "".
Definition tab : string := String TAB "".

Definition byte (c : ascii) : N := N_of_ascii c.

Fixpoint rev_string (s : string) (acc : string) : string :=
  match s with
  | "" => acc
  | String c r => rev_string r (String c acc)
  end.

Definition reverse (s : string) : string := rev_string s "".

Fixpoint mem_ascii (c : ascii) (l : list ascii) : bool :=
  match l with
  | [] => false
  | d :: l' => if Ascii.eqb c d then true else mem_ascii c l'
  end.

Fixpoint has_char (p : ascii -> bool) (s : string) : bool :=
  match s with
  | "" => false
  | String c r => if p c then true else has_char p r
  end.

(** ** Package [strings] *)

Module strings.

(** [unicode.IsSpace] on the UTF-8 encodings of the white space code
    points: the six ASCII ones, U+0085 and U+00A0 (two bytes), and
    U+1680, U+2000..U+200A, U+2028, U+2029, U+202F, U+205F, U+3000
    (three bytes).  No white space code point needs four bytes. *)
Definition isSpace1 (c : ascii) : bool :=
  let b := byte c in
  ((9 <=? b) && (b <=? 13) || (b =? 32))%N.

Definition isSpace2 (c1 c2 : ascii) : bool :=
  ((byte c1 =? 194) && ((byte c2 =? 133) || (byte c2 =? 160)))%N.

Definition isSpace3 (c1 c2 c3 : ascii) : bool :=
  let b1 := byte c1 in
  let b2 := byte c2 in
  let b3 := byte c3 in
  ((b1 =? 225) && (b2 =? 154) && (b3 =? 128)
   || (b1 =? 226) && (b2 =? 128)
      && ((128 <=? b3) && (b3 <=? 138) || (b3 =? 168) || (b3 =? 169) || (b3 =? 175))
   || (b1 =? 226) && (b2 =? 129) && (b3 =? 159)
   || (b1 =? 227) && (b2 =? 128) && (b3 =? 128))%N.

(** [TrimLeftFunc(s, unicode.IsSpace)]: decode runes from the front and
    drop them while they are white space.  A byte that starts no valid
    encoding decodes to U+FFFD, which is not white space. *)
Fixpoint trimLeftSpace (s : string) : string :=
  match s with
  | "" => ""
  | String c1 r1 =>
      if isSpace1 c1 then trimLeftSpace r1
      else match r1 with
           | "" => s
           | String c2 r2 =>
               if isSpace2 c1 c2 then trimLeftSpace r2
               else match r2 with
                    | "" => s
                    | String c3 r3 =>
                        if isSpace3 c1 c2 c3 then trimLeftSpace r3 else s
                    end
           end
  end.

(** The same from the back, on the reversed string: the bytes of an
    encoding are met last byte first. *)
Fixpoint trimLeftSpaceRev (s : string) : string :=
  match s with
  | "" => ""
  | String c1 r1 =>
      if isSpace1 c1 then trimLeftSpaceRev r1
      else match r1 with
           | "" => s
           | String c2 r2 =>
               if isSpace2 c2 c1 then trimLeftSpaceRev r2
               else match r2 with
                    | "" => s
                    | String c3 r3 =>
                        if isSpace3 c3 c2 c1 then trimLeftSpaceRev r3 else s
                    end
           end
  end.

Definition trimRightSpace (s : string) : string :=
  reverse (trimLeftSpaceRev (reverse s)).

(** [strings.TrimSpace]: all leading and trailing white space removed. *)
Definition TrimSpace (s : string) : string :=
  trimRightSpace (trimLeftSpace s).

(** [strings.Trim(s, cutset)] for a cutset of ASCII bytes: every leading
    and every trailing byte that is in the cutset is removed. *)
Fixpoint trimLeft (cutset : list ascii) (s : string) : string :=
  match s with
  | "" => ""
  | String c r => if mem_ascii c cutset then trimLeft cutset r else s
  end.

Definition trimRight (cutset : list ascii) (s : string) : string :=
  reverse (trimLeft cutset (reverse s)).

Definition Trim (s : string) (cutset : list ascii) : string :=
  trimRight cutset (trimLeft cutset s).

(** [strings.Split(s, sep)] for a one-byte separator: the pieces between
    the occurrences of [sep]; [n] occurrences give [n + 1] pieces, so the
    empty string gives one empty piece. *)
Fixpoint Split (s : string) (sep : ascii) : list string :=
  match s with
  | "" => [""]
  | String c r =>
      if Ascii.eqb c sep then "" :: Split r sep
      else match Split r sep with
           | [] => [String c ""]
           | p :: ps => String c p :: ps
           end
  end.

(** [strings.HasPrefix] and [strings.Contains]. *)
Fixpoint HasPrefix (s prefix : string) : bool :=
  match prefix, s with
  | "", _ => true
  | String _ _, "" => false
  | String p prefix', String c s' => Ascii.eqb c p && HasPrefix s' prefix'
  end.

Fixpoint Contains (s substr : string) : bool :=
  if HasPrefix s substr then true
  else match s with
       | "" => false
       | String _ r => Contains r substr
       end.

End strings.

(** ** Package [regexp]

    The package compiles two patterns only, [[ ]+] and [[ \t]+]: one or
    more bytes of a character class.  A compiled pattern is the class. *)

Module regexp.

Record Regexp : Type := ClassPlus { class : list ascii }.

Definition matches (re : Regexp) (c : ascii) : bool := mem_ascii c (class re).

(** The first piece of [s] and the pieces after it, where the
    separators are the maximal runs of class bytes. *)
Fixpoint pieces (re : Regexp) (s : string) : string * list string :=
  match s with
  | "" => ("", [])
  | String c r =>
      let (p, ps) := pieces re r in
      if matches re c then
        match r with
        | String d _ => if matches re d then ("", ps) else ("", p :: ps)
        | "" => ("", p :: ps)
        end
      else (String c p, ps)
  end.

(** [re.Split(s, -1)]: the substrings between the matches.  A match at
    the start of [s] leaves an empty first piece, a match at its end an
    empty last piece, and the empty string gives one empty piece. *)
Definition Split (re : Regexp) (s : string) : list string :=
  let (p, ps) := pieces re s in p :: ps.

End regexp.

(** [regexp.MustCompile(`[ ]+`)] and [regexp.MustCompile(`[ \t]+`)]. *)
Definition spaces : regexp.Regexp := regexp.ClassPlus [SP].
Definition blanks : regexp.Regexp := regexp.ClassPlus [SP; TAB].

(** ** Package [strconv] *)

Module strconv.

Local Open Scope Z_scope.

(** The two causes a [*NumError] carries. *)
Inductive Err : Type := ErrSyntax | ErrRange.

(** [intSize]: the width of [int] on the 64-bit hosts the agent runs on. *)
Definition IntSize : Z := 64.

Definition maxUint64 : Z := 2 ^ 64 - 1.

Definition isDigit (c : ascii) : bool := ((48 <=? byte c) && (byte c <=? 57))%N.

(** The value of a byte as a digit: ['0'..'9'], ['a'..'z'] and
    ['A'..'Z'] from 10 on. *)
Definition digitVal (c : ascii) : option Z :=
  let b := Z.of_N (byte c) in
  if (48 <=? b) && (b <=? 57) then Some (b - 48)
  else if (97 <=? b) && (b <=? 122) then Some (b - 97 + 10)
  else if (65 <=? b) && (b <=? 90) then Some (b - 65 + 10)
  else None.

(** The loop of [ParseUint] over the bytes of [s], with the accumulator
    [n] a [uint64]. *)
Fixpoint parseUintLoop (base cutoff maxVal : Z) (s : string) (n : Z)
  : Z * option Err :=
  match s with
  | "" => (n, None)
  | String d r =>
      match digitVal d with
      | None => (0, Some ErrSyntax)
      | Some v =>
          if base <=? v then (0, Some ErrSyntax)
          else if cutoff <=? n then (maxUint64, Some ErrRange)
          else
            let n' := (n * base) mod 2 ^ 64 in
            let n1 := (n' + v) mod 2 ^ 64 in
            if (n1 <? n') || (maxVal <? n1) then (maxUint64, Some ErrRange)
            else parseUintLoop base cutoff maxVal r n1
      end
  end.

(** [ParseUint(s, base, bitSize)] for [2 <= base <= 36]. *)
Definition ParseUint (s : string) (base bitSize : Z) : Z * option Err :=
  let bitSize := if bitSize =? 0 then IntSize else bitSize in
  match s with
  | "" => (0, Some ErrSyntax)
  | _ =>
      let cutoff := maxUint64 / base + 1 in
      let maxVal := (2 ^ bitSize - 1) mod 2 ^ 64 in
      parseUintLoop base cutoff maxVal s 0
  end.

(** [ParseInt(s, base, bitSize)]: an optional sign, then [ParseUint];
    a value out of range comes back clamped, with [ErrRange]. *)
Definition ParseInt (s : string) (base bitSize : Z) : Z * option Err :=
  let bitSize := if bitSize =? 0 then IntSize else bitSize in
  match s with
  | "" => (0, Some ErrSyntax)
  | String c r =>
      let neg := Ascii.eqb c "-" in
      let s' := if Ascii.eqb c "+" || neg then r else s in
      match ParseUint s' base bitSize with
      | (_, Some ErrSyntax) => (0, Some ErrSyntax)
      | (un, _) =>
          let cutoff := 2 ^ (bitSize - 1) in
          if negb neg && (cutoff <=? un) then (cutoff - 1, Some ErrRange)
          else if neg && (cutoff <? un) then (- cutoff, Some ErrRange)
          else (if neg then - un else un, None)
      end
  end.

(** *** [ParseFloat]

    The decimal syntax: an optional sign, digits with at most one
    point and at least one digit, an optional exponent ([e] or [E], an
    optional sign, at least one digit); or one of the names of an
    infinity or of NaN in any case.  The value is the nearest float of
    the asked size, ties to even; a value too large comes back as an
    infinity with [ErrRange], a malformed string as [0] with
    [ErrSyntax].  (Go releases later than the package also read
    hexadecimal mantissas and underscores between digits; what comes back
    with an error is the same.) *)

Definition lower (c : ascii) : ascii :=
  if ((65 <=? byte c) && (byte c <=? 90))%N then ascii_of_N (byte c + 32) else c.

Fixpoint equalIgnoreCase (s1 s2 : string) : bool :=
  match s1, s2 with
  | "", "" => true
  | String c1 r1, String c2 r2 =>
      Ascii.eqb (lower c1) (lower c2) && equalIgnoreCase r1 r2
  | _, _ => false
  end.

Definition special (s : string) : option spec_float :=
  match s with
  | "" => None
  | String c _ =>
      if Ascii.eqb c "+" then
        if equalIgnoreCase s "+inf" || equalIgnoreCase s "+infinity"
        then Some (S754_infinity false) else None
      else if Ascii.eqb c "-" then
        if equalIgnoreCase s "-inf" || equalIgnoreCase s "-infinity"
        then Some (S754_infinity true) else None
      else if Ascii.eqb (lower c) "n" then
        if equalIgnoreCase s "nan" then Some S754_nan else None
      else if Ascii.eqb (lower c) "i" then
        if equalIgnoreCase s "inf" || equalIgnoreCase s "infinity"
        then Some (S754_infinity false) else None
      else None
  end.

(** The digits of the mantissa: the integer they spell, how many of
    them follow the point, whether there was any, and what is left of
    the string.  A second point is an error. *)
Fixpoint readDigits (s : string) (sawdot sawdigits : bool) (mant frac : Z)
  : option (Z * Z * bool * string) :=
  match s with
  | "" => Some (mant, frac, sawdigits, "")
  | String c r =>
      if Ascii.eqb c "." then
        if sawdot then None else readDigits r true sawdigits mant frac
      else if isDigit c then
        readDigits r sawdot true (mant * 10 + (Z.of_N (byte c) - 48))
                   (if sawdot then frac + 1 else frac)
      else Some (mant, frac, sawdigits, s)
  end.

(** The digits of the exponent; past 10000 further digits are read and
    dropped. *)
Fixpoint readExpDigits (s : string) (e : Z) : Z * string :=
  match s with
  | "" => (e, "")
  | String c r =>
      if isDigit c then
        readExpDigits r (if e <? 10000 then e * 10 + (Z.of_N (byte c) - 48) else e)
      else (e, s)
  end.

Definition readExp (s : string) : option Z :=
  match s with
  | "" => Some 0
  | String c r =>
      if Ascii.eqb (lower c) "e" then
        match r with
        | "" => None
        | String sg r' =>
            let esign := if Ascii.eqb sg "-" then -1 else 1 in
            let ds := if Ascii.eqb sg "+" || Ascii.eqb sg "-" then r' else r in
            match ds with
            | "" => None
            | String d _ =>
                if isDigit d then
                  match readExpDigits ds 0 with
                  | (e, "") => Some (e * esign)
                  | _ => None
                  end
                else None
            end
        end
      else None
  end.

(** [readFloat]: the sign, the mantissa and the power of ten of a
    well-formed decimal, [None] for a malformed one. *)
Definition readFloat (s : string) : option (bool * Z * Z) :=
  match s with
  | "" => None
  | String c r =>
      let neg := Ascii.eqb c "-" in
      let s' := if Ascii.eqb c "+" || neg then r else s in
      match readDigits s' false false 0 0 with
      | Some (mant, frac, true, rest) =>
          match readExp rest with
          | Some e => Some (neg, mant, e - frac)
          | None => None
          end
      | _ => None
      end
  end.

(** The float of precision [prec] and exponent bound [emax] nearest to
    [mant * 10 ^ e]. *)
Definition nearest (prec emax : Z) (neg : bool) (mant e : Z) : spec_float :=
  match mant with
  | Zpos m =>
      if 0 <=? e then binary_round prec emax neg (Z.to_pos (mant * 10 ^ e)) 0
      else SFdiv prec emax (S754_finite neg m 0)
                 (S754_finite false (Z.to_pos (10 ^ (- e))) 0)
  | _ => S754_zero neg
  end.

Definition ParseFloat (s : string) (bitSize : Z) : float * option Err :=
  match special s with
  | Some f => (SF2Prim f, None)
  | None =>
      match readFloat s with
      | None => (0%float, Some ErrSyntax)
      | Some (neg, mant, e) =>
          let f := if bitSize =? 32 then nearest 24 128 neg mant e
                   else nearest 53 1024 neg mant e in
          match f with
          | S754_infinity _ => (SF2Prim f, Some ErrRange)
          | _ => (SF2Prim f, None)
          end
      end
  end.

End strconv.

(** ** Package [config]

    The process-wide configuration is read-only once the agent runs; the
    operations that consult it take it as an argument. *)

Module config.

Record Configuration : Type := {
  SnapshotMountPoint : string;
  SnapshotVolumesFilter : string;
  AvailableLocalSnapshotHostsCommand : string;
  AvailableSnapshotHostsCommand : string;
  MySQLServiceStatusCommand : string;
  MySQLServiceStopCommand : string;
  MySQLServiceStartCommand : string
}.

End config.

(** ** Package [osagent] *)

Module osagent.

(** Go's [error] values the package meets: what [os/exec] reports when
    a program cannot be started or exits with a non-zero status, the
    package's own [errors.New] messages, and [*strconv.NumError]. *)
Inductive error : Type :=
| ExecError (msg : string)
| ErrorString (msg : string)
| NumError (Func Num : string) (Err : strconv.Err).

Definition isNil (err : option error) : bool :=
  match err with None => true | Some _ => false end.

(** *** The host

    A command is a program name with its arguments.  The host answers a
    command with the bytes of its standard output and an error, [None]
    exactly when the program ran and exited with status zero; the answer
    may depend on every command executed before. *)
Definition command : Type := string * list string.

Record Host : Type := {
  executed : list command;
  respond : list command -> command -> string * option error
}.

(** *** Computations: a call returns, leaving the host in a new state,
    or panics. *)
Inductive panic : Type :=
| IndexOutOfRange (index length : nat).

Inductive outcome (A : Type) : Type :=
| Done (a : A) (h : Host)
| Panic (p : panic).
Arguments Done {A} a h.
Arguments Panic {A} p.

Definition M (A : Type) : Type := Host -> outcome A.

Definition ret {A} (a : A) : M A := fun h => Done a h.

Definition bind {A B} (m : M A) (k : A -> M B) : M B :=
  fun h => match m h with
           | Done a h' => k a h'
           | Panic p => Panic p
           end.

Notation "x <- m ;; k" := (bind m (fun x => k))
  (at level 61, m at next level, right associativity).
Notation "' pat <- m ;; k" := (bind m (fun x => let pat := x in k))
  (at level 61, pat pattern, m at next level, right associativity).

(** [l[i]] *)
Definition index {A} (l : list A) (i : nat) : M A :=
  fun h => match nth_error l i with
           | Some x => Done x h
           | None => Panic (IndexOutOfRange i (List.length l))
           end.

(** [exec.Command(name, args...).Output()] *)
Definition exec_Output (name : string) (args : list string)
  : M (string * option error) :=
  fun h => Done (respond h (executed h) (name, args))
                {| executed := executed h ++ [(name, args)];
                   respond := respond h |}.

(** *** Data *)

Module LogicalVolume.
Record t : Type := {
  Name : string;
  GroupName : string;
  Path : string;
  IsSnapshot : bool;
  SnapshotPercent : float
}.
End LogicalVolume.

Definition IsSnapshotValid (this : LogicalVolume.t) : bool :=
  if negb (LogicalVolume.IsSnapshot this) then false
  else if (100 <=? LogicalVolume.SnapshotPercent this)%float then false
  else true.

Module Mount.
Record t : Type := {
  Path : string;
  Device : string;
  LVPath : string;
  FileSystem : string;
  IsMounted : bool;
  DiskUsage : Z
}.

(** [Mount { Path: mountPoint, IsMounted: false }] *)
Definition unmounted (mountPoint : string) : t :=
  {| Path := mountPoint; Device := ""; LVPath := ""; FileSystem := "";
     IsMounted := false; DiskUsage := 0 |}.

Definition setPath (v : string) (m : t) : t :=
  {| Path := v; Device := Device m; LVPath := LVPath m;
     FileSystem := FileSystem m; IsMounted := IsMounted m; DiskUsage := DiskUsage m |}.
Definition setDevice (v : string) (m : t) : t :=
  {| Path := Path m; Device := v; LVPath := LVPath m;
     FileSystem := FileSystem m; IsMounted := IsMounted m; DiskUsage := DiskUsage m |}.
Definition setLVPath (v : string) (m : t) : t :=
  {| Path := Path m; Device := Device m; LVPath := v;
     FileSystem := FileSystem m; IsMounted := IsMounted m; DiskUsage := DiskUsage m |}.
Definition setFileSystem (v : string) (m : t) : t :=
  {| Path := Path m; Device := Device m; LVPath := LVPath m;
     FileSystem := v; IsMounted := IsMounted m; DiskUsage := DiskUsage m |}.
Definition setIsMounted (v : bool) (m : t) : t :=
  {| Path := Path m; Device := Device m; LVPath := LVPath m;
     FileSystem := FileSystem m; IsMounted := v; DiskUsage := DiskUsage m |}.
Definition setDiskUsage (v : Z) (m : t) : t :=
  {| Path := Path m; Device := Device m; LVPath := LVPath m;
     FileSystem := FileSystem m; IsMounted := IsMounted m; DiskUsage := v |}.
End Mount.

(** *** Running commands and reading their output *)

Definition commandSplit (commandText : string) : M (string * list string) :=
  let tokens := regexp.Split spaces (strings.TrimSpace commandText) in
  name <- index tokens 0 ;;
  ret (name, List.tl tokens).

(** [commandOutput] executes a command and returns its output bytes.
    The two logging calls only write to the log; [log.Errore] hands the
    error back as it is. *)
Definition commandOutput (commandText : string) : M (string * option error) :=
  '(commandName, commandArgs) <- commandSplit commandText ;;
  '(outputBytes, err) <- exec_Output commandName commandArgs ;;
  match err with
  | Some e => ret ("", Some e)
  | None => ret (outputBytes, None)
  end.

Definition outputLines (commandOutput : string) (err : option error)
  : list string * option error :=
  match err with
  | Some e => ([], Some e)
  | None =>
      let text := strings.Trim commandOutput [LF] in
      let lines := strings.Split text LF in
      (lines, None)
  end.

Definition outputTokens (delimiterPattern : regexp.Regexp)
  (commandOutput : string) (err : option error)
  : list (list string) * option error :=
  let (lines, err) := outputLines commandOutput err in
  match err with
  | Some e => ([], Some e)
  | None => (List.map (regexp.Split delimiterPattern) lines, None)
  end.

(** *** Logical volumes *)

(** The body of the loop of [LogicalVolumes] for one row. *)
Definition LogicalVolumes_row (filterPattern : string)
  (logicalVolumes : list LogicalVolume.t) (lineTokens : list string)
  : M (list LogicalVolume.t) :=
  name <- index lineTokens 1 ;;
  groupName <- index lineTokens 2 ;;
  path <- index lineTokens 3 ;;
  field <- index lineTokens 4 ;;
  let (percent, err) := strconv.ParseFloat field 32 in
  let logicalVolume :=
    {| LogicalVolume.Name := name;
       LogicalVolume.GroupName := groupName;
       LogicalVolume.Path := path;
       LogicalVolume.IsSnapshot := match err with None => true | Some _ => false end;
       LogicalVolume.SnapshotPercent := percent |} in
  if strings.Contains (LogicalVolume.Name logicalVolume) filterPattern
  then ret (logicalVolumes ++ [logicalVolume])%list
  else ret logicalVolumes.

Fixpoint LogicalVolumes_loop (filterPattern : string)
  (tokens : list (list string)) (logicalVolumes : list LogicalVolume.t)
  : M (list LogicalVolume.t) :=
  match tokens with
  | [] => ret logicalVolumes
  | lineTokens :: rest =>
      logicalVolumes' <- LogicalVolumes_row filterPattern logicalVolumes lineTokens ;;
      LogicalVolumes_loop filterPattern rest logicalVolumes'
  end.

Definition LogicalVolumes (volumeName filterPattern : string)
  : M (list LogicalVolume.t * option error) :=
  '(output, err) <- commandOutput
      ("lvs --noheading -o lv_name,vg_name,lv_path,snap_percent " ++ volumeName) ;;
  let (tokens, err) := outputTokens blanks output err in
  match err with
  | Some e => ret ([], Some e)
  | None =>
      logicalVolumes <- LogicalVolumes_loop filterPattern tokens [] ;;
      ret (logicalVolumes, None)
  end.

Definition GetLogicalVolumePath (volumeName : string) : M (string * option error) :=
  '(logicalVolumes, err) <- LogicalVolumes volumeName "" ;;
  match err, logicalVolumes with
  | None, lv :: _ => ret (LogicalVolume.Path lv, None)
  | _, _ => ret ("", Some (ErrorString ("logical volume not found: " ++ volumeName)))
  end.

(** *** Disk usage *)

Definition DiskUsage (path : string) : M (Z * option error) :=
  '(output, err) <- commandOutput ("du -sb " ++ path) ;;
  let (tokens, err) := outputTokens blanks output err in
  match err with
  | Some e => ret (0%Z, Some e)
  | None =>
      match tokens with
      | lineTokens :: _ =>
          field <- index lineTokens 0 ;;
          match strconv.ParseInt field 10 0 with
          | (result, Some e) => ret (result, Some (NumError "ParseInt" field e))
          | (result, None) => ret (result, None)
          end
      | [] => ret (0%Z, None)
      end
  end.

(** *** Mounts *)

(** The body of the loop of [GetMount] for one row. *)
Definition GetMount_row (mountPoint : string) (mount : Mount.t)
  (lineTokens : list string) : M Mount.t :=
  let mount := Mount.setIsMounted true mount in
  device <- index lineTokens 0 ;;
  let mount := Mount.setDevice device mount in
  path <- index lineTokens 1 ;;
  let mount := Mount.setPath path mount in
  fileSystem <- index lineTokens 2 ;;
  let mount := Mount.setFileSystem fileSystem mount in
  '(lvPath, _) <- GetLogicalVolumePath (Mount.Device mount) ;;
  let mount := Mount.setLVPath lvPath mount in
  '(diskUsage, _) <- DiskUsage mountPoint ;;
  ret (Mount.setDiskUsage diskUsage mount).

Fixpoint GetMount_loop (mountPoint : string) (tokens : list (list string))
  (mount : Mount.t) : M Mount.t :=
  match tokens with
  | [] => ret mount
  | lineTokens :: rest =>
      mount' <- GetMount_row mountPoint mount lineTokens ;;
      GetMount_loop mountPoint rest mount'
  end.

Definition GetMount (mountPoint : string) : M (Mount.t * option error) :=
  let mount := Mount.unmounted mountPoint in
  '(output, err) <- commandOutput ("grep " ++ mountPoint ++ " /etc/mtab") ;;
  let (tokens, err) := outputTokens blanks output err in
  match err with
  | Some _ =>
      (* when grep does not find rows, it returns an error. So this is
         actually OK *)
      ret (mount, None)
  | None =>
      mount' <- GetMount_loop mountPoint tokens mount ;;
      ret (mount', None)
  end.

Definition MountLV (mountPoint volumeName : string) : M (Mount.t * option error) :=
  let mount := Mount.unmounted mountPoint in
  if String.eqb volumeName "" then
    ret (mount, Some (ErrorString "Empty columeName in MountLV"))
  else
    '(_, err) <- commandOutput ("mount " ++ volumeName ++ " " ++ mountPoint) ;;
    match err with
    | Some e => ret (mount, Some e)
    | None => GetMount mountPoint
    end.

Definition Unmount (mountPoint : string) : M (Mount.t * option error) :=
  let mount := Mount.unmounted mountPoint in
  '(_, err) <- commandOutput ("umount " ++ mountPoint) ;;
  match err with
  | Some e => ret (mount, Some e)
  | None => GetMount mountPoint
  end.

(** *** Snapshot hosts and the MySQL service *)

Definition AvailableSnapshots (Config : config.Configuration) (requireLocal : bool)
  : M (list string * option error) :=
  let command :=
    if requireLocal then config.AvailableLocalSnapshotHostsCommand Config
    else config.AvailableSnapshotHostsCommand Config in
  '(output, err) <- commandOutput command ;;
  ret (outputLines output err).

Definition MySQLRunning (Config : config.Configuration) : M (bool * option error) :=
  '(_, err) <- commandOutput (config.MySQLServiceStatusCommand Config) ;;
  (* status command exits with 0 when MySQL is running, or otherwise if
     not running *)
  ret (isNil err, None).

Definition MySQLStop (Config : config.Configuration) : M (option error) :=
  '(_, err) <- commandOutput (config.MySQLServiceStopCommand Config) ;;
  ret err.

Definition MySQLStart (Config : config.Configuration) : M (option error) :=
  '(_, err) <- commandOutput (config.MySQLServiceStartCommand Config) ;;
  ret err.

End osagent.

(** ** Package [http]

    The handlers of the agent's HTTP interface.  Every path through a
    handler ends in one call of [r.JSON(status, v)] and returns: a
    handler is modelled as a computation on the host that returns what
    the renderer sends for that call, the status with the JSON of the
    value, or status 500 with a plain text when [encoding/json] refuses
    the value.  What the handlers read from
    outside the package is a variable of the section: the configuration
    [config.Config], the token [agent.ProcessToken.Hash], the answer of
    [os.Hostname] with its error as its message, and [strconv.Quote],
    which the message of a [*strconv.NumError] goes through. *)

Module http.
Import osagent.

(** [APIResponseCode] is an [int]; [ERROR] and [OK] are its values 0 and
    1. *)
Definition APIResponseCode : Type := Z.
Definition ERROR : APIResponseCode := 0%Z.
Definition OK : APIResponseCode := 1%Z.

(** The method [String] of [APIResponseCode]. *)
Definition APIResponseCode_String (this : APIResponseCode) : string :=
  if (this =? ERROR)%Z then "ERROR"
  else if (this =? OK)%Z then "OK"
  else "unknown".

(** The values the handlers hand to [r.JSON]: a value of the package
    [osagent] or of Go, or a pointer to an [APIResponse], whose [Details]
    are an [interface{}], [None] when it is [nil]. *)
Inductive value : Type :=
| OfString (s : string)
| OfBool (b : bool)
| OfInt64 (n : Z)
| OfStrings (l : list string)
| OfLogicalVolumes (l : list LogicalVolume.t)
| OfMount (m : Mount.t).

Record APIResponse : Type := {
  Code : APIResponseCode;
  Message : string;
  Details : option value
}.

(** What the renderer sends: the JSON of a value or of an [APIResponse]
    behind a pointer, each standing for its encoding, or a plain text. *)
Inductive rendered : Type :=
| Value (v : value)
| Pointer (r : APIResponse)
| PlainText (body : string).

Definition Response : Type := Z * rendered.

(** [encoding/json] encodes every string, boolean and integer, and every
    float but NaN and the infinities: on one of these [json.Marshal]
    stops with an [*UnsupportedValueError], whose message ends in the
    float as [strconv.FormatFloat] prints it.  The floats of the values
    above are the [SnapshotPercent] of the logical volumes, met in the
    order of the list. *)
Definition unsupportedValue (f : float) : option string :=
  if PrimFloat.is_nan f then Some "NaN"
  else if (f =? infinity)%float then Some "+Inf"
  else if (f =? neg_infinity)%float then Some "-Inf"
  else None.

Fixpoint Marshal_volumes (l : list LogicalVolume.t) : option string :=
  match l with
  | [] => None
  | lv :: rest =>
      match unsupportedValue (LogicalVolume.SnapshotPercent lv) with
      | Some str => Some ("json: unsupported value: " ++ str)
      | None => Marshal_volumes rest
      end
  end.

Definition Marshal_value (v : value) : option string :=
  match v with
  | OfLogicalVolumes l => Marshal_volumes l
  | _ => None
  end.

(** The message of the error of [json.Marshal(v)], [None] when it
    encodes [v]. *)
Definition Marshal_error (v : rendered) : option string :=
  match v with
  | Value x => Marshal_value x
  | Pointer r =>
      match Details r with
      | Some x => Marshal_value x
      | None => None
      end
  | PlainText _ => None
  end.

(** [r.JSON(status, v)] followed by [return]: the renderer of
    [martini-contrib/render] encodes [v] first; when that fails it sends
    the message of the error by [http.Error], as a line of plain text
    with status 500, and the status of the call otherwise. *)
Definition JSON (status : Z) (v : rendered) : M Response :=
  match Marshal_error v with
  | Some msg => ret (500%Z, PlainText (msg ++ nl))
  | None => ret (status, v)
  end.

(** [martini.Params], a [map[string]string]: a missing key reads as the
    empty string. *)
Definition Params : Type := list (string * string).

Fixpoint lookup (params : Params) (key : string) : string :=
  match params with
  | [] => ""
  | (k, v) :: rest => if String.eqb k key then v else lookup rest key
  end.

(** [url.Values], a [map[string][]string]; [Get] is the first value of
    the key, the empty string when there is none. *)
Definition Values : Type := list (string * list string).

Fixpoint Get (v : Values) (key : string) : string :=
  match v with
  | [] => ""
  | (k, vs) :: rest => if String.eqb k key then List.hd "" vs else Get rest key
  end.

(** Of a request, the handlers read [req.URL.Query()] only. *)
Record Request : Type := { Query : Values }.

Definition Err_Error (e : strconv.Err) : string :=
  match e with
  | strconv.ErrSyntax => "invalid syntax"
  | strconv.ErrRange => "value out of range"
  end.

Section Handlers.

Variable Quote : string -> string.
Variable Config : config.Configuration.
Variable ProcessToken_Hash : string.
Variable os_Hostname : string * option string.

(** [err.Error()] *)
Definition Error (err : error) : string :=
  match err with
  | ExecError msg => msg
  | ErrorString msg => msg
  | NumError Func Num Err =>
      "strconv." ++ Func ++ ": parsing " ++ Quote Num ++ ": " ++ Err_Error Err
  end.

Definition validateToken (token : string) : option error :=
  if String.eqb token ProcessToken_Hash then None
  else Some (ErrorString "Invalid token").

(** [Hostname] provides information on this process. *)
Definition Hostname (params : Params) : M Response :=
  let (hostname, err) := os_Hostname in
  match err with
  | Some msg => JSON 500 (Pointer {| Code := ERROR; Message := msg; Details := None |})
  | None => JSON 200 (Value (OfString hostname))
  end.

(** [ListLogicalVolumes] lists logical volumes by pattern. *)
Definition ListLogicalVolumes (params : Params) (req : Request) : M Response :=
  match validateToken (Get (Query req) "token") with
  | Some err => JSON 500 (Pointer {| Code := ERROR; Message := Error err; Details := None |})
  | None =>
      '(output, err) <- osagent.LogicalVolumes "" (lookup params "pattern") ;;
      match err with
      | Some err => JSON 500 (Pointer {| Code := ERROR; Message := Error err; Details := None |})
      | None => JSON 200 (Value (OfLogicalVolumes output))
      end
  end.

Definition ListSnapshotsLogicalVolumes (params : Params) (req : Request) : M Response :=
  match validateToken (Get (Query req) "token") with
  | Some err => JSON 500 (Pointer {| Code := ERROR; Message := Error err; Details := None |})
  | None =>
      '(output, err) <- osagent.LogicalVolumes "" (config.SnapshotVolumesFilter Config) ;;
      match err with
      | Some err => JSON 500 (Pointer {| Code := ERROR; Message := Error err; Details := None |})
      | None => JSON 200 (Value (OfLogicalVolumes output))
      end
  end.

(** [LogicalVolume] lists a logical volume by name, path or mount
    point. *)
Definition LogicalVolume (params : Params) (req : Request) : M Response :=
  match validateToken (Get (Query req) "token") with
  | Some err => JSON 500 (Pointer {| Code := ERROR; Message := Error err; Details := None |})
  | None =>
      let lv := lookup params "lv" in
      let lv := if String.eqb lv "" then Get (Query req) "lv" else lv in
      '(output, err) <- osagent.LogicalVolumes lv "" ;;
      match err with
      | Some err => JSON 500 (Pointer {| Code := ERROR; Message := Error err; Details := None |})
      | None => JSON 200 (Value (OfLogicalVolumes output))
      end
  end.

(** [GetMount] shows the configured mount point's status. *)
Definition GetMount (params : Params) (req : Request) : M Response :=
  match validateToken (Get (Query req) "token") with
  | Some err => JSON 500 (Pointer {| Code := ERROR; Message := Error err; Details := None |})
  | None =>
      '(output, err) <- osagent.GetMount (config.SnapshotMountPoint Config) ;;
      match err with
      | Some err => JSON 500 (Pointer {| Code := ERROR; Message := Error err; Details := None |})
      | None => JSON 200 (Value (OfMount output))
      end
  end.

(** [MountLV] mounts a logical volume on the configured mount point. *)
Definition MountLV (params : Params) (req : Request) : M Response :=
  match validateToken (Get (Query req) "token") with
  | Some err => JSON 500 (Pointer {| Code := ERROR; Message := Error err; Details := None |})
  | None =>
      let lv := lookup params "lv" in
      let lv := if String.eqb lv "" then Get (Query req) "lv" else lv in
      '(output, err) <- osagent.MountLV (config.SnapshotMountPoint Config) lv ;;
      match err with
      | Some err => JSON 500 (Pointer {| Code := ERROR; Message := Error err; Details := None |})
      | None => JSON 200 (Value (OfMount output))
      end
  end.

(** [Unmount] unmounts the configured mount point. *)
Definition Unmount (params : Params) (req : Request) : M Response :=
  match validateToken (Get (Query req) "token") with
  | Some err => JSON 500 (Pointer {| Code := ERROR; Message := Error err; Details := None |})
  | None =>
      '(output, err) <- osagent.Unmount (config.SnapshotMountPoint Config) ;;
      match err with
      | Some err => JSON 500 (Pointer {| Code := ERROR; Message := Error err; Details := None |})
      | None => JSON 200 (Value (OfMount output))
      end
  end.

(** [DiskUsage] returns the number of bytes of a given directory. *)
Definition DiskUsage (params : Params) (req : Request) : M Response :=
  match validateToken (Get (Query req) "token") with
  | Some err => JSON 500 (Pointer {| Code := ERROR; Message := Error err; Details := None |})
  | None =>
      let path := Get (Query req) "path" in
      '(output, err) <- osagent.DiskUsage path ;;
      match err with
      | Some err => JSON 500 (Pointer {| Code := ERROR; Message := Error err; Details := None |})
      | None => JSON 200 (Value (OfInt64 output))
      end
  end.

Definition AvailableLocalSnapshots (params : Params) (req : Request) : M Response :=
  match validateToken (Get (Query req) "token") with
  | Some err => JSON 500 (Pointer {| Code := ERROR; Message := Error err; Details := None |})
  | None =>
      '(output, err) <- osagent.AvailableSnapshots Config true ;;
      match err with
      | Some err => JSON 500 (Pointer {| Code := ERROR; Message := Error err; Details := None |})
      | None => JSON 200 (Value (OfStrings output))
      end
  end.

Definition AvailableSnapshots (params : Params) (req : Request) : M Response :=
  match validateToken (Get (Query req) "token") with
  | Some err => JSON 500 (Pointer {| Code := ERROR; Message := Error err; Details := None |})
  | None =>
      '(output, err) <- osagent.AvailableSnapshots Config false ;;
      match err with
      | Some err => JSON 500 (Pointer {| Code := ERROR; Message := Error err; Details := None |})
      | None => JSON 200 (Value (OfStrings output))
      end
  end.

(** [MySQLRunning] checks whether the MySQL service is up. *)
Definition MySQLRunning (params : Params) (req : Request) : M Response :=
  match validateToken (Get (Query req) "token") with
  | Some err => JSON 500 (Pointer {| Code := ERROR; Message := Error err; Details := None |})
  | None =>
      '(output, err) <- osagent.MySQLRunning Config ;;
      match err with
      | Some err => JSON 500 (Pointer {| Code := ERROR; Message := Error err; Details := None |})
      | None => JSON 200 (Value (OfBool output))
      end
  end.

(** [MySQLStop] shuts down the MySQL service. *)
Definition MySQLStop (params : Params) (req : Request) : M Response :=
  match validateToken (Get (Query req) "token") with
  | Some err => JSON 500 (Pointer {| Code := ERROR; Message := Error err; Details := None |})
  | None =>
      err <- osagent.MySQLStop Config ;;
      match err with
      | Some err => JSON 500 (Pointer {| Code := ERROR; Message := Error err; Details := None |})
      | None => JSON 200 (Value (OfBool (isNil err)))
      end
  end.

(** [MySQLStart] starts the MySQL service. *)
Definition MySQLStart (params : Params) (req : Request) : M Response :=
  match validateToken (Get (Query req) "token") with
  | Some err => JSON 500 (Pointer {| Code := ERROR; Message := Error err; Details := None |})
  | None =>
      err <- osagent.MySQLStart Config ;;
      match err with
      | Some err => JSON 500 (Pointer {| Code := ERROR; Message := Error err; Details := None |})
      | None => JSON 200 (Value (OfBool (isNil err)))
      end
  end.

(** [RegisterRequests] makes for the de-facto list of known API calls:
    the routes it registers, in its order, each with its handler. *)
Definition RegisterRequests : list (string * (Params -> Request -> M Response)) :=
  [ ("/api/hostname", fun params _ => Hostname params);
    ("/api/lvs", ListLogicalVolumes);
    ("/api/lvs/:pattern", ListLogicalVolumes);
    ("/api/lvs-snapshots", ListSnapshotsLogicalVolumes);
    ("/api/lv", LogicalVolume);
    ("/api/lv/:lv", LogicalVolume);
    ("/api/mount", GetMount);
    ("/api/mountlv", MountLV);
    ("/api/umount", Unmount);
    ("/api/du", DiskUsage);
    ("/api/available-snapshots-local", AvailableLocalSnapshots);
    ("/api/available-snapshots", AvailableSnapshots);
    ("/api/mysql-status", MySQLRunning);
    ("/api/mysql-stop", MySQLStop);
    ("/api/mysql-start", MySQLStart) ].

End Handlers.

End http.

(** * Vocabulary of the statements *)

(** ** Strings *)

(** A string all of whose bytes are in [cutset]. *)
Definition all_in (cutset : list ascii) (s : string) : Prop :=
  has_char (fun c => negb (mem_ascii c cutset)) s = false.

(** The first byte of a string, if any, is not in [cutset]. *)
Definition head_not_in (cutset : list ascii) (s : string) : Prop :=
  match s with
  | "" => True
  | String c _ => mem_ascii c cutset = false
  end.

(** The first byte of a string, if any, is not an ASCII white space. *)
Definition head_not_space (s : string) : Prop :=
  match s with
  | "" => True
  | String c _ => strings.isSpace1 c = false
  end.

(** A byte that occurs in the UTF-8 encoding of some white space code
    point. *)
Definition spaceByte (c : ascii) : bool :=
  let b := byte c in
  ((9 <=? b) && (b <=? 13) || (b =? 32) || (128 <=? b) && (b <=? 138)
   || (b =? 154) || (b =? 159) || (b =? 160) || (b =? 168) || (b =? 169)
   || (b =? 175) || (b =? 194) || (b =? 225) || (b =? 226) || (b =? 227))%N.

(** A string made of such bytes only, and a string without any. *)
Definition space_bytes (s : string) : Prop :=
  has_char (fun c => negb (spaceByte c)) s = false.

Definition space_free (s : string) : Prop := has_char spaceByte s = false.

(** The last byte of a string. *)
Fixpoint last_byte (s : string) : option ascii :=
  match s with
  | "" => None
  | String c r => match r with "" => Some c | _ => last_byte r end
  end.

(** A string none of whose bytes is in the class of [re]. *)
Definition class_free (re : regexp.Regexp) (s : string) : Prop :=
  has_char (regexp.matches re) s = false.

(** The bytes of [s] outside the class of [re], in order. *)
Fixpoint drop_class (re : regexp.Regexp) (s : string) : string :=
  match s with
  | "" => ""
  | String c r =>
      if regexp.matches re c then drop_class re r else String c (drop_class re r)
  end.

(** The last byte of [s] is in the class of [re]. *)
Fixpoint ends_in_class (re : regexp.Regexp) (s : string) : bool :=
  match s with
  | "" => false
  | String c r =>
      match r with "" => regexp.matches re c | _ => ends_in_class re r end
  end.

(** The line splitting in the words of the specification: one trailing
    newline, if there is one, is taken off, and the rest is split on
    newlines. *)
Definition trimOneTrailingNewline (s : string) : string :=
  match reverse s with
  | "" => s
  | String c r => if Ascii.eqb c LF then reverse r else s
  end.

Definition toLines (output : string) : list string :=
  strings.Split (trimOneTrailingNewline output) LF.

(** ** Numerals *)

(** A decimal numeral: an optional sign, then one digit or more. *)
Fixpoint allDigits (s : string) : bool :=
  match s with
  | "" => true
  | String c r => strconv.isDigit c && allDigits r
  end.

Definition isNumeral (s : string) : bool :=
  match s with
  | "" => false
  | String c r =>
      if Ascii.eqb c "+" || Ascii.eqb c "-"
      then negb (String.eqb r "") && allDigits r
      else allDigits s
  end.

(** The number the digits of [s] spell after the number [acc]. *)
Fixpoint digitsValue (s : string) (acc : Z) : Z :=
  match s with
  | "" => acc
  | String c r => digitsValue r (acc * 10 + (Z.of_N (byte c) - 48))
  end.

Definition numeralValue (s : string) : Z :=
  match s with
  | "" => 0
  | String c r =>
      if Ascii.eqb c "-" then - digitsValue r 0
      else if Ascii.eqb c "+" then digitsValue r 0
      else digitsValue s 0
  end.

(** ** Commands and hosts *)

(** The program name and the arguments [commandSplit] makes of a command
    line. *)
Definition argv (commandText : string) : osagent.command :=
  let tokens := regexp.Split spaces (strings.TrimSpace commandText) in
  (List.hd "" tokens, List.tl tokens).

(** What the host answers now to a command, and the host after it. *)
Definition answer (h : osagent.Host) (c : osagent.command)
  : string * option osagent.error :=
  osagent.respond h (osagent.executed h) c.

Definition ran (h : osagent.Host) (c : osagent.command) : osagent.Host :=
  {| osagent.executed := (osagent.executed h ++ [c])%list;
     osagent.respond := osagent.respond h |}.

(** The command lines the operations build. *)
Definition lvsCommand (volumeName : string) : string :=
  "lvs --noheading -o lv_name,vg_name,lv_path,snap_percent " ++ volumeName.

Definition grepCommand (mountPoint : string) : string :=
  "grep " ++ mountPoint ++ " /etc/mtab".

Definition duCommand (path : string) : string := "du -sb " ++ path.

Definition mountCommand (volumeName mountPoint : string) : string :=
  "mount " ++ volumeName ++ " " ++ mountPoint.

Definition umountCommand (mountPoint : string) : string := "umount " ++ mountPoint.

(** On the host, whenever [lvs] succeeds, every row it prints has the
    five tokens [LogicalVolumes] reads. *)
Definition lvsWellFormed (h : osagent.Host) : Prop :=
  forall (history : list osagent.command) (volumeName : string) (output : string),
    osagent.respond h history (argv (lvsCommand volumeName)) = (output, None) ->
    Forall (fun row => 5 <= List.length row)
           (fst (osagent.outputTokens blanks output None)).

(** ** Rows *)

(** The rows of tokens of an output, for the delimiter [[ \t]+]. *)
Definition rows (output : string) : list (list string) :=
  fst (osagent.outputTokens blanks output None).

(** The first field of the first row of an output. *)
Definition firstField (output : string) : string :=
  List.hd "" (List.hd [] (rows output)).

(** The bytes of a string before the first byte that [stop] holds of. *)
Fixpoint upTo (stop : ascii -> bool) (s : string) : string :=
  match s with
  | "" => ""
  | String c r => if stop c then "" else String c (upTo stop r)
  end.

Definition isLF (c : ascii) : bool := Ascii.eqb c LF.

Definition isBlank (c : ascii) : bool := Ascii.eqb c SP || Ascii.eqb c TAB.

(** The first line of an output that is not empty: the bytes after the
    leading newlines, up to the next newline. *)
Fixpoint firstLine (output : string) : string :=
  match output with
  | "" => ""
  | String c r => if isLF c then firstLine r else upTo isLF output
  end.

(** The field that line starts with: its bytes before the first space or
    tab. *)
Definition leadingField (output : string) : string := upTo isBlank (firstLine output).

(** The rows of tokens in the words of the specification: the lines of
    [toLines], each split on the delimiter; and the first field of the
    first of them. *)
Definition toTokenRows (delimiter : regexp.Regexp) (output : string)
  : list (list string) :=
  List.map (regexp.Split delimiter) (toLines output).

Definition specFirstField (output : string) : string :=
  List.hd "" (List.hd [] (toTokenRows blanks output)).

(** The logical volume a row of five tokens or more stands for. *)
Definition volumeOfTokens (lineTokens : list string) : osagent.LogicalVolume.t :=
  {| osagent.LogicalVolume.Name := nth 1 lineTokens "";
     osagent.LogicalVolume.GroupName := nth 2 lineTokens "";
     osagent.LogicalVolume.Path := nth 3 lineTokens "";
     osagent.LogicalVolume.IsSnapshot :=
       match snd (strconv.ParseFloat (nth 4 lineTokens "") 32) with
       | None => true
       | Some _ => false
       end;
     osagent.LogicalVolume.SnapshotPercent :=
       fst (strconv.ParseFloat (nth 4 lineTokens "") 32) |}.

(** The name of a volume contains the pattern. *)
Definition nameContains (filterPattern : string) (lv : osagent.LogicalVolume.t) : bool :=
  strings.Contains (osagent.LogicalVolume.Name lv) filterPattern.

(** ** Example hosts and data *)

(** [scripted f] answers by [f], whatever ran before; on [silent] every
    command prints nothing and exits with status zero; [byProgram] answers
    by the name of the program alone, and knows three programs. *)
Definition scripted (f : osagent.command -> string * option osagent.error)
  : osagent.Host :=
  {| osagent.executed := []; osagent.respond := fun _ c => f c |}.

Definition silent : osagent.Host := scripted (fun _ => ("", None)).

Definition exitStatus (n : string) : option osagent.error :=
  Some (osagent.ExecError ("exit status " ++ n)).

Definition byProgram (grep lvs du : string * option osagent.error) : osagent.Host :=
  scripted (fun c =>
    if String.eqb (fst c) "grep" then grep
    else if String.eqb (fst c) "lvs" then lvs
    else if String.eqb (fst c) "du" then du
    else ("", exitStatus "127")).

(** A host on which [lvs] prints [output] and exits with status zero, and
    every other program fails. *)
Definition lvsHost (output : string) : osagent.Host :=
  byProgram ("", exitStatus "1") (output, None) ("", exitStatus "1").

(** Two volumes as [lvs --noheading] prints them, the second a snapshot. *)
Definition lvsTwoVolumes : string :=
  "  data  vg0 /dev/vg0/data  " ++ nl ++ "  snap1 vg0 /dev/vg0/snap1 12.34" ++ nl.

(** A row whose snapshot field is well formed and beyond any [float32]. *)
Definition lvsHugePercent : string :=
  "  snap1 vg0 /dev/vg0/snap1 1e39" ++ nl.

(** An example volume of the group [vg0]. *)
Definition volume (name : string) (snapshot : bool) (percent : float)
  : osagent.LogicalVolume.t :=
  {| osagent.LogicalVolume.Name := name;
     osagent.LogicalVolume.GroupName := "vg0";
     osagent.LogicalVolume.Path := "/dev/vg0/" ++ name;
     osagent.LogicalVolume.IsSnapshot := snapshot;
     osagent.LogicalVolume.SnapshotPercent := percent |}.

(** [/mnt/snap] is not in the mount table: [grep] finds nothing and
    exits with status one. *)
Definition notMounted : osagent.Host :=
  byProgram ("", exitStatus "1") ("", exitStatus "5") ("", exitStatus "1").

(** [/mnt/snap] is mounted, but neither [lvs] nor [du] works. *)
Definition mountedNoEnrichment : osagent.Host :=
  byProgram ("/dev/sdb1 /mnt/snap ext4 rw 0 0" ++ nl, None)
            ("", exitStatus "5") ("", exitStatus "1").

(** [/mnt/snap] is mounted from a snapshot volume, and [lvs] and [du] work. *)
Definition mountedSnapshot : osagent.Host :=
  byProgram ("/dev/vg0/snap1 /mnt/snap ext4 rw 0 0" ++ nl, None)
            ("  snap1 vg0 /dev/vg0/snap1 12.34" ++ nl, None)
            ("12345" ++ tab ++ "/mnt/snap" ++ nl, None).

(** [du] prints a line that starts with a word. *)
Definition duGarbled : osagent.Host :=
  byProgram ("", exitStatus "1") ("", exitStatus "5") ("total 12345" ++ nl, None).

(** A configuration whose status command is [service mysql status]. *)
Definition exampleConfig : config.Configuration :=
  {| config.SnapshotMountPoint := "/mnt/snap";
     config.SnapshotVolumesFilter := "snap";
     config.AvailableLocalSnapshotHostsCommand := "echo 127.0.0.1";
     config.AvailableSnapshotHostsCommand := "echo localhost";
     config.MySQLServiceStatusCommand := "service mysql status";
     config.MySQLServiceStopCommand := "service mysql stop";
     config.MySQLServiceStartCommand := "service mysql start" |}.

(** The status command exits with status three: MySQL is not running. *)
Definition mysqlStopped : osagent.Host :=
  scripted (fun c =>
    if String.eqb (fst c) "service" then ("mysql stopped" ++ nl, exitStatus "3")
    else ("", None)).

(** ** Further vocabulary *)

(** A command line made of ASCII white space only. *)
Definition blank (s : string) : Prop :=
  has_char (fun c => negb (strings.isSpace1 c)) s = false.

(** The two commands [GetMount] runs for a row of the mount table. *)
Definition enrichment (mountPoint : string) (lineTokens : list string)
  : list osagent.command :=
  [argv (lvsCommand (nth 0 lineTokens "")); argv (duCommand mountPoint)].

(** [lvs] prints a row whose trailing blanks were cut: four tokens. *)
Definition lvsCutRow : string := "  data vg0 /dev/vg0/data" ++ nl.

(** [/mnt/snap] is mounted, and [lvs] exits with status zero and prints
    nothing. *)
Definition mountedSilentLvs : osagent.Host :=
  byProgram ("/dev/sdb1 /mnt/snap ext4 rw 0 0" ++ nl, None)
            ("", None) ("12345" ++ tab ++ "/mnt/snap" ++ nl, None).

(** [grep] prints a count, as [grep -c] does. *)
Definition grepCount : osagent.Host :=
  byProgram ("12" ++ nl, None) ("", exitStatus "5") ("", exitStatus "1").

(** [du] prints an empty line before its row. *)
Definition duLeadingNewline : osagent.Host :=
  byProgram ("", exitStatus "1") ("", exitStatus "5")
            (nl ++ "12345" ++ tab ++ "/some/path", None).

(** [du] prints a number beyond any [int64]. *)
Definition duHuge : osagent.Host :=
  byProgram ("", exitStatus "1") ("", exitStatus "5")
            ("99999999999999999999" ++ tab ++ "/mnt/snap" ++ nl, None).

(** The command [AvailableSnapshots] takes from the configuration. *)
Definition snapshotsCommand (Config : config.Configuration) (requireLocal : bool)
  : string :=
  if requireLocal then config.AvailableLocalSnapshotHostsCommand Config
  else config.AvailableSnapshotHostsCommand Config.

(** The numbers of an [int64], and the nearest of them to a number. *)
Definition minInt64 : Z := (- 2 ^ 63)%Z.
Definition maxInt64 : Z := (2 ^ 63 - 1)%Z.

Definition isInt64 (n : Z) : bool := ((minInt64 <=? n) && (n <=? maxInt64))%Z.

Definition clampInt64 (n : Z) : Z := Z.max minInt64 (Z.min maxInt64 n).

(** The host [h] after the commands [cs] ran, in this order. *)
Definition ranAll (h : osagent.Host) (cs : list osagent.command) : osagent.Host :=
  {| osagent.executed := (osagent.executed h ++ cs)%list;
     osagent.respond := osagent.respond h |}.

(** Every command but [program] answers as on [h]; [program] prints
    nothing and exits with status zero. *)
Definition succeeding (program : string) (h : osagent.Host) : osagent.Host :=
  {| osagent.executed := osagent.executed h;
     osagent.respond := fun history c =>
       if String.eqb (fst c) program then ("", None)
       else osagent.respond h history c |}.

(** The mount a row of the mount table makes, with the volume path and
    the disk usage found for it. *)
Definition mountOfRow (lineTokens : list string) (lvPath : string) (diskUsage : Z)
  : osagent.Mount.t :=
  {| osagent.Mount.Path := nth 1 lineTokens "";
     osagent.Mount.Device := nth 0 lineTokens "";
     osagent.Mount.LVPath := lvPath;
     osagent.Mount.FileSystem := nth 2 lineTokens "";
     osagent.Mount.IsMounted := true;
     osagent.Mount.DiskUsage := diskUsage |}.

(** The mount table shows [/mnt/snap] and, after it, [/mnt/snap2]: [grep]
    prints both rows for [/mnt/snap]. *)
Definition mtabNearby : string :=
  "/dev/sdb1 /mnt/snap ext4 rw 0 0" ++ nl ++ "/dev/sdc1 /mnt/snap2 xfs rw 0 0" ++ nl.

Definition mountedNearby : osagent.Host :=
  byProgram (mtabNearby, None) ("", exitStatus "5")
            ("777" ++ tab ++ "/mnt/snap" ++ nl, None).

(** Two volumes: one that is no snapshot and is named [snapped], and a
    snapshot named [nightly]. *)
Definition lvsMisnamed : string :=
  "  snapped vg0 /dev/vg0/snapped  " ++ nl ++ "  nightly vg0 /dev/vg0/nightly 12.34" ++ nl.

(** A float that is no number or is infinite. *)
Definition isNaNOrInf (f : float) : bool :=
  PrimFloat.is_nan f || (f =? infinity)%float || (f =? neg_infinity)%float.

(** * Runs of the library models *)

Example Split_blanks_1 :
  regexp.Split blanks ("  lv0 vg0" ++ tab ++ " /dev/vg0/lv0 ")
  = [""; "lv0"; "vg0"; "/dev/vg0/lv0"; ""].
Proof. reflexivity. Qed.

Example Split_blanks_2 : regexp.Split blanks "" = [""].
Proof. reflexivity. Qed.

Example Split_blanks_3 : regexp.Split blanks " " = [""; ""].
Proof. reflexivity. Qed.

Example TrimSpace_1 : strings.TrimSpace (tab ++ " du -sb  /x " ++ nl) = "du -sb  /x".
Proof. reflexivity. Qed.

Example Trim_1 : strings.Trim (nl ++ "a" ++ nl ++ "b" ++ nl ++ nl) [LF] = "a" ++ nl ++ "b".
Proof. reflexivity. Qed.

Example Split_1 : strings.Split ("a" ++ nl ++ nl ++ "b") LF = ["a"; ""; "b"].
Proof. reflexivity. Qed.

Example ParseInt_1 : strconv.ParseInt "12345" 10 0 = (12345%Z, None).
Proof. reflexivity. Qed.

Example ParseInt_2 : strconv.ParseInt "-9223372036854775808" 10 0 = ((- 2 ^ 63)%Z, None).
Proof. reflexivity. Qed.

Example ParseInt_3 :
  strconv.ParseInt "9223372036854775808" 10 0 = ((2 ^ 63 - 1)%Z, Some strconv.ErrRange).
Proof. reflexivity. Qed.

Example ParseInt_4 : strconv.ParseInt "12a" 10 0 = (0%Z, Some strconv.ErrSyntax).
Proof. reflexivity. Qed.

Example ParseInt_5 :
  strconv.ParseInt "99999999999999999999x" 10 0 = ((2 ^ 63 - 1)%Z, Some strconv.ErrRange).
Proof. reflexivity. Qed.

Example ParseFloat_1 : strconv.ParseFloat "12.34" 32 = (12.340000152587890625%float, None).
Proof. vm_compute. reflexivity. Qed.
Example ParseFloat_2 : strconv.ParseFloat "100.00" 32 = (100%float, None).
Proof. vm_compute. reflexivity. Qed.
Example ParseFloat_3 : strconv.ParseFloat "1e39" 32 = (infinity, Some strconv.ErrRange).
Proof. vm_compute. reflexivity. Qed.
Example ParseFloat_4 : strconv.ParseFloat "" 32 = (0%float, Some strconv.ErrSyntax).
Proof. vm_compute. reflexivity. Qed.
Example ParseFloat_5 : strconv.ParseFloat "NaN" 32 = (nan, None).
Proof. vm_compute. reflexivity. Qed.
Example ParseFloat_6 : strconv.ParseFloat "3.4028235e38" 32 = (340282346638528859811704183484516925440%float, None).
Proof. vm_compute. reflexivity. Qed.
Example ParseFloat_7 : strconv.ParseFloat "1e-46" 32 = (0%float, None).
Proof. vm_compute. reflexivity. Qed.
Example ParseFloat_8 : strconv.ParseFloat "-.5e+1" 32 = ((-5)%float, None).
Proof. vm_compute. reflexivity. Qed.
Example ParseFloat_10 : strconv.ParseFloat "1.5.2" 32 = (0%float, Some strconv.ErrSyntax).
Proof. vm_compute. reflexivity. Qed.
Example ParseFloat_11 : strconv.ParseFloat "3.4028236e38" 32 = (infinity, Some strconv.ErrRange).
Proof. vm_compute. reflexivity. Qed.
Example ParseFloat_12 : strconv.ParseFloat "1e-45" 32 = (0x1p-149%float, None).
Proof. vm_compute. reflexivity. Qed.
Example ParseFloat_13 : strconv.ParseFloat "16777217" 32 = (16777216%float, None).
Proof. vm_compute. reflexivity. Qed.
Example ParseFloat_14 : strconv.ParseFloat "0.30000001192092896" 32 = (0.300000011920928955078125%float, None).
Proof. vm_compute. reflexivity. Qed.

(** * Facts about the library models *)

(** ** Strings *)

Lemma append_assoc (a b c : string) : (a ++ b) ++ c = a ++ (b ++ c).
Proof. induction a; simpl; congruence. Qed.

Lemma rev_string_app (s acc : string) :
  rev_string s acc = rev_string s "" ++ acc.
Proof.
  revert acc. induction s as [|c s IH]; intro acc; simpl.
  - reflexivity.
  - rewrite IH, (IH (String c "")). rewrite append_assoc. reflexivity.
Qed.

Lemma reverse_cons (c : ascii) (s : string) :
  reverse (String c s) = reverse s ++ String c "".
Proof. unfold reverse. simpl. apply rev_string_app. Qed.

Lemma append_empty_r (s : string) : s ++ "" = s.
Proof. induction s; simpl; congruence. Qed.

Lemma reverse_app (a b : string) : reverse (a ++ b) = reverse b ++ reverse a.
Proof.
  induction a as [|c a IH]; simpl.
  - now rewrite append_empty_r.
  - rewrite !reverse_cons, IH, append_assoc. reflexivity.
Qed.

Lemma reverse_involutive (s : string) : reverse (reverse s) = s.
Proof.
  induction s as [|c s IH]; [reflexivity|].
  rewrite reverse_cons, reverse_app, IH. reflexivity.
Qed.

Lemma has_char_app (p : ascii -> bool) (a b : string) :
  has_char p (a ++ b) = has_char p a || has_char p b.
Proof.
  induction a as [|c a IH]; simpl; [reflexivity|].
  destruct (p c); simpl; auto.
Qed.

Lemma has_char_reverse (p : ascii -> bool) (s : string) :
  has_char p (reverse s) = has_char p s.
Proof.
  induction s as [|c s IH]; [reflexivity|].
  rewrite reverse_cons, has_char_app, IH. simpl.
  destruct (p c), (has_char p s); reflexivity.
Qed.

Lemma trimLeft_spec (cutset : list ascii) (s : string) :
  exists a, s = a ++ strings.trimLeft cutset s /\ all_in cutset a
            /\ head_not_in cutset (strings.trimLeft cutset s).
Proof.
  induction s as [|c s (a & E & Ha & Hh)].
  - exists "". repeat split.
  - simpl. destruct (mem_ascii c cutset) eqn:Hc.
    + exists (String c a). repeat split; [simpl; congruence | | exact Hh].
      unfold all_in in *. simpl. rewrite Hc. exact Ha.
    + exists "". repeat split. simpl. exact Hc.
Qed.

Lemma all_in_reverse (cutset : list ascii) (s : string) :
  all_in cutset s -> all_in cutset (reverse s).
Proof. unfold all_in. now rewrite has_char_reverse. Qed.

Lemma head_not_in_app (cutset : list ascii) (a b : string) :
  head_not_in cutset (a ++ b) -> a <> "" -> head_not_in cutset a.
Proof. destruct a; simpl; [congruence | auto]. Qed.

(** [strings.Trim] takes bytes of the cutset off both ends, and neither
    end of what it leaves is in the cutset. *)
Lemma Trim_spec (s : string) (cutset : list ascii) :
  exists a b,
    s = a ++ strings.Trim s cutset ++ b
    /\ all_in cutset a /\ all_in cutset b
    /\ head_not_in cutset (strings.Trim s cutset)
    /\ head_not_in cutset (reverse (strings.Trim s cutset)).
Proof.
  unfold strings.Trim, strings.trimRight.
  destruct (trimLeft_spec cutset s) as (a & E & Ha & Hh).
  set (t := strings.trimLeft cutset s) in *.
  destruct (trimLeft_spec cutset (reverse t)) as (b & E' & Hb & Hh').
  set (u := strings.trimLeft cutset (reverse t)) in *.
  exists a, (reverse b).
  assert (Et : t = reverse u ++ reverse b).
  { rewrite <- reverse_app, <- E'. symmetry. apply reverse_involutive. }
  repeat split.
  - rewrite <- Et. exact E.
  - exact Ha.
  - now apply all_in_reverse.
  - destruct (reverse u) as [|c r] eqn:Er; [exact I|].
    rewrite Et in Hh. simpl in Hh. exact Hh.
  - rewrite reverse_involutive. exact Hh'.
Qed.

Lemma Split_not_nil (s : string) (sep : ascii) : strings.Split s sep <> [].
Proof.
  destruct s as [|c s]; simpl; [discriminate|].
  destruct (Ascii.eqb c sep); [discriminate|].
  destruct (strings.Split s sep); discriminate.
Qed.

(** Joining the pieces with the separator gives the string back. *)
Lemma Split_join (s : string) (sep : ascii) :
  String.concat (String sep "") (strings.Split s sep) = s.
Proof.
  induction s as [|c s IH]; [reflexivity|].
  simpl. destruct (Ascii.eqb_spec c sep) as [->|Hc].
  - pose proof (Split_not_nil s sep) as Hn.
    destruct (strings.Split s sep) as [|p ps] eqn:E; [congruence|].
    simpl. simpl in IH. now rewrite IH.
  - pose proof (Split_not_nil s sep) as Hn.
    destruct (strings.Split s sep) as [|p ps] eqn:E; [congruence|].
    simpl in *. destruct ps; simpl in *; now rewrite <- IH.
Qed.

(** No piece contains the separator. *)
Lemma Split_no_sep (s : string) (sep : ascii) :
  Forall (fun l => has_char (Ascii.eqb sep) l = false) (strings.Split s sep).
Proof.
  induction s as [|c s IH]; simpl.
  - constructor; [reflexivity | constructor].
  - destruct (Ascii.eqb_spec c sep) as [->|Hc].
    + constructor; [reflexivity | exact IH].
    + destruct (strings.Split s sep) as [|p ps]; [constructor; [|constructor]|].
      * simpl. destruct (Ascii.eqb_spec sep c); [congruence | reflexivity].
      * inversion IH; subst. constructor; [|assumption].
        simpl. destruct (Ascii.eqb_spec sep c); [congruence | assumption].
Qed.

Lemma HasPrefix_spec (s prefix : string) :
  strings.HasPrefix s prefix = true <-> exists b, s = prefix ++ b.
Proof.
  revert s. induction prefix as [|p prefix IH]; intro s; simpl.
  - destruct s; split; eauto.
  - destruct s as [|c s]; simpl.
    + split; [discriminate | intros (b & E); discriminate].
    + rewrite andb_true_iff, IH. split.
      * intros (Hc & b & ->). apply Ascii.eqb_eq in Hc. subst. eauto.
      * intros (b & E). injection E as -> ->. split; [apply Ascii.eqb_refl | eauto].
Qed.

(** [strings.Contains] is the substring relation. *)
Lemma Contains_spec (s substr : string) :
  strings.Contains s substr = true <-> exists a b, s = a ++ substr ++ b.
Proof.
  induction s as [|c s IH].
  - cbn [strings.Contains]. destruct (strings.HasPrefix "" substr) eqn:E.
    + apply HasPrefix_spec in E. destruct E as (b & E).
      split; [intros _; exists "", b; exact E | reflexivity].
    + split; [discriminate|]. intros (a & b & E').
      destruct a; [|discriminate]. simpl in E'.
      assert (strings.HasPrefix "" substr = true) by (apply HasPrefix_spec; eauto).
      congruence.
  - cbn [strings.Contains]. destruct (strings.HasPrefix (String c s) substr) eqn:E.
    + apply HasPrefix_spec in E. destruct E as (b & E).
      split; [intros _; exists "", b; exact E | reflexivity].
    + rewrite IH. split.
      * intros (a & b & ->). exists (String c a), b. reflexivity.
      * intros (a & b & E'). destruct a as [|c' a].
        -- simpl in E'.
           assert (strings.HasPrefix (String c s) substr = true)
             by (apply HasPrefix_spec; eauto).
           congruence.
        -- injection E' as -> ->. eauto.
Qed.

Lemma Contains_empty (s : string) : strings.Contains s "" = true.
Proof. destruct s; reflexivity. Qed.

(** ** Splitting on runs of class bytes *)

Section RegexpSplit.

Variable re : regexp.Regexp.

Lemma pieces_head_match (c : ascii) (r : string) :
  regexp.matches re c = true -> fst (regexp.pieces re (String c r)) = "".
Proof.
  intro Hc. simpl. destruct (regexp.pieces re r) as [p ps]. rewrite Hc.
  destruct r as [|d r']; [reflexivity|]. now destruct (regexp.matches re d).
Qed.

Lemma pieces_class_free (s : string) :
  class_free re (fst (regexp.pieces re s))
  /\ Forall (class_free re) (snd (regexp.pieces re s)).
Proof.
  induction s as [|c r [IHp IHps]]; simpl.
  - split; [reflexivity | constructor].
  - destruct (regexp.pieces re r) as [p ps]. simpl in IHp, IHps.
    destruct (regexp.matches re c) eqn:Hc.
    + destruct r as [|d r'].
      * split; [reflexivity | constructor; assumption].
      * destruct (regexp.matches re d); simpl;
          (split; [reflexivity | try constructor; assumption]).
    + simpl. split; [|assumption].
      unfold class_free in *. simpl. now rewrite Hc.
Qed.

(** No piece holds a byte of the class. *)
Lemma Split_class_free (s : string) : Forall (class_free re) (regexp.Split re s).
Proof.
  unfold regexp.Split. pose proof (pieces_class_free s) as [Hp Hps].
  destruct (regexp.pieces re s). constructor; assumption.
Qed.

(** A string without a byte of the class is one piece. *)
Lemma Split_token (t : string) : class_free re t -> regexp.Split re t = [t].
Proof.
  unfold regexp.Split, class_free.
  induction t as [|c t IH]; simpl; [reflexivity|].
  destruct (regexp.matches re c) eqn:Hc; [discriminate|]. intro Ht.
  specialize (IH Ht). destruct (regexp.pieces re t) as [p ps].
  now injection IH as -> ->.
Qed.

Lemma Split_run (sep rest : string) :
  sep <> "" -> all_in (regexp.class re) sep -> head_not_in (regexp.class re) rest ->
  regexp.Split re (sep ++ rest) = "" :: regexp.Split re rest.
Proof.
  unfold regexp.Split, all_in.
  induction sep as [|c sep IH]; [congruence|]. intros _ Hs Hr.
  simpl in Hs.
  destruct (mem_ascii c (regexp.class re)) eqn:Hc; [|discriminate]. simpl in Hs.
  cbn [append regexp.pieces]. unfold regexp.matches at 1. rewrite Hc.
  destruct sep as [|d sep'].
  - simpl. destruct (regexp.pieces re rest) as [p ps].
    destruct rest as [|e rest']; [reflexivity|].
    simpl in Hr. unfold regexp.matches. now rewrite Hr.
  - specialize (IH ltac:(discriminate) Hs Hr).
    simpl in Hs. destruct (mem_ascii d (regexp.class re)) eqn:Hd; [|discriminate].
    destruct (regexp.pieces re (String d sep' ++ rest)) as [p ps].
    cbn [append]. unfold regexp.matches. rewrite Hd.
    now injection IH as -> ->.
Qed.

(** A piece, a run of class bytes, and the rest: the run is one
    separator, whatever its length. *)
Lemma Split_cons (t sep rest : string) :
  class_free re t -> sep <> "" -> all_in (regexp.class re) sep -> head_not_in (regexp.class re) rest ->
  regexp.Split re (t ++ sep ++ rest) = t :: regexp.Split re rest.
Proof.
  intros Ht Hne Hs Hr. induction t as [|c t IH].
  - cbn [append]. apply Split_run; assumption.
  - unfold class_free in Ht. simpl in Ht.
    destruct (regexp.matches re c) eqn:Hc; [discriminate|].
    specialize (IH Ht). unfold regexp.Split in *. cbn [append regexp.pieces].
    destruct (regexp.pieces re (t ++ sep ++ rest)) as [p ps]. rewrite Hc.
    now injection IH as -> ->.
Qed.

Lemma concat_empty_cons (x : string) (xs : list string) :
  String.concat "" (x :: xs) = x ++ String.concat "" xs.
Proof. destruct xs; simpl; [now rewrite append_empty_r | reflexivity]. Qed.

(** The pieces, put end to end, are the string without its class
    bytes: splitting loses the separators and nothing else. *)
Lemma Split_concat (s : string) :
  String.concat "" (regexp.Split re s) = drop_class re s.
Proof.
  unfold regexp.Split. induction s as [|c r IH]; [reflexivity|].
  cbn [regexp.pieces drop_class].
  pose proof (pieces_head_match) as Hh.
  destruct (regexp.pieces re r) as [p ps] eqn:E.
  destruct (regexp.matches re c) eqn:Hc.
  - destruct r as [|d r'].
    + simpl in E. injection E as <- <-. reflexivity.
    + destruct (regexp.matches re d) eqn:Hd.
      * specialize (Hh d r' Hd). rewrite E in Hh. simpl in Hh. subst p. exact IH.
      * rewrite concat_empty_cons. exact IH.
  - rewrite concat_empty_cons in *. simpl. now rewrite IH.
Qed.

Lemma pieces_nonempty (s : string) :
  (forall c r, s = String c r -> regexp.matches re c = false ->
               fst (regexp.pieces re s) <> "")
  /\ Forall (fun t => t <> "") (removelast (snd (regexp.pieces re s)))
  /\ (snd (regexp.pieces re s) <> [] -> ends_in_class re s = false ->
      last (snd (regexp.pieces re s)) "" <> "").
Proof.
  induction s as [|c r (IH1 & IH2 & IH3)].
  - simpl. repeat split; [discriminate | constructor | congruence].
  - cbn [regexp.pieces ends_in_class].
    destruct (regexp.pieces re r) as [p ps] eqn:E. cbn [fst snd] in *.
    destruct (regexp.matches re c) eqn:Hc.
    + destruct r as [|d r'].
      * simpl in E. injection E as <- <-. cbn [fst snd].
        repeat split; [congruence | constructor | congruence].
      * destruct (regexp.matches re d) eqn:Hd; cbn [fst snd].
        -- repeat split; [intros ? ? [= <- <-]; congruence | exact IH2 | exact IH3].
        -- specialize (IH1 d r' eq_refl Hd).
           repeat split; [intros ? ? [= <- <-]; congruence | |].
           ++ destruct ps as [|q ps']; [constructor|].
              cbn [removelast]. constructor; [exact IH1 | exact IH2].
           ++ intros _ He. destruct ps as [|q ps']; [exact IH1|].
              change (last (p :: q :: ps') "") with (last (q :: ps') "").
              apply IH3; [discriminate | exact He].
    + cbn [fst snd]. repeat split; [discriminate | exact IH2 |].
      intros Hps He. apply IH3; [exact Hps|].
      destruct r; [simpl in E; injection E as <- <-; congruence | exact He].
Qed.

End RegexpSplit.

(** ** Trimming white space *)

(** Boolean tests on bytes, read as arithmetic. *)
Ltac bytes_arith H :=
  unfold strings.isSpace1, strings.isSpace2, strings.isSpace3, spaceByte in *;
  cbv zeta in *;
  repeat first [ rewrite orb_true_iff in H | rewrite andb_true_iff in H
               | rewrite N.eqb_eq in H | rewrite N.leb_le in H ];
  repeat first [ rewrite orb_true_iff | rewrite andb_true_iff
               | rewrite N.eqb_eq | rewrite N.leb_le ];
  lia.

Lemma isSpace1_byte (c : ascii) : strings.isSpace1 c = true -> spaceByte c = true.
Proof. intro H. bytes_arith H. Qed.

Lemma isSpace2_bytes (c1 c2 : ascii) :
  strings.isSpace2 c1 c2 = true -> spaceByte c1 = true /\ spaceByte c2 = true.
Proof. intro H. split; bytes_arith H. Qed.

Lemma isSpace3_bytes (c1 c2 c3 : ascii) :
  strings.isSpace3 c1 c2 c3 = true ->
  spaceByte c1 = true /\ spaceByte c2 = true /\ spaceByte c3 = true.
Proof. intro H. repeat split; bytes_arith H. Qed.

Lemma space_bytes_cons (c : ascii) (s : string) :
  spaceByte c = true -> space_bytes s -> space_bytes (String c s).
Proof. unfold space_bytes. simpl. now intros ->. Qed.

Lemma trimLeftSpace_spec (s : string) :
  exists a, s = a ++ strings.trimLeftSpace s
            /\ space_bytes a
            /\ head_not_space (strings.trimLeftSpace s).
Proof.
  remember (String.length s) as n eqn:Hn.
  assert (Hle : String.length s <= n) by lia. clear Hn.
  revert s Hle. induction n as [|n IH]; intros s Hle.
  - destruct s; [exists ""; repeat split | simpl in Hle; lia].
  - destruct s as [|c1 r1]; [exists ""; repeat split|].
    cbn [strings.trimLeftSpace]. simpl in Hle.
    destruct (strings.isSpace1 c1) eqn:H1.
    { destruct (IH r1 ltac:(lia)) as (a & E & Ha & Hh).
      exists (String c1 a). repeat split; [simpl; congruence | | exact Hh].
      apply space_bytes_cons; [now apply isSpace1_byte | exact Ha]. }
    destruct r1 as [|c2 r2]; [exists ""; repeat split; exact H1|].
    simpl in Hle. destruct (strings.isSpace2 c1 c2) eqn:H2.
    { destruct (IH r2 ltac:(lia)) as (a & E & Ha & Hh).
      destruct (isSpace2_bytes _ _ H2) as [B1 B2].
      exists (String c1 (String c2 a)). repeat split; [simpl; congruence | | exact Hh].
      now repeat apply space_bytes_cons. }
    destruct r2 as [|c3 r3]; [exists ""; repeat split; exact H1|].
    simpl in Hle. destruct (strings.isSpace3 c1 c2 c3) eqn:H3.
    { destruct (IH r3 ltac:(lia)) as (a & E & Ha & Hh).
      destruct (isSpace3_bytes _ _ _ H3) as (B1 & B2 & B3).
      exists (String c1 (String c2 (String c3 a))).
      repeat split; [simpl; congruence | | exact Hh].
      now repeat apply space_bytes_cons. }
    exists "". repeat split. exact H1.
Qed.

Lemma trimLeftSpaceRev_spec (s : string) :
  exists a, s = a ++ strings.trimLeftSpaceRev s
            /\ space_bytes a
            /\ head_not_space (strings.trimLeftSpaceRev s).
Proof.
  remember (String.length s) as n eqn:Hn.
  assert (Hle : String.length s <= n) by lia. clear Hn.
  revert s Hle. induction n as [|n IH]; intros s Hle.
  - destruct s; [exists ""; repeat split | simpl in Hle; lia].
  - destruct s as [|c1 r1]; [exists ""; repeat split|].
    cbn [strings.trimLeftSpaceRev]. simpl in Hle.
    destruct (strings.isSpace1 c1) eqn:H1.
    { destruct (IH r1 ltac:(lia)) as (a & E & Ha & Hh).
      exists (String c1 a). repeat split; [simpl; congruence | | exact Hh].
      apply space_bytes_cons; [now apply isSpace1_byte | exact Ha]. }
    destruct r1 as [|c2 r2]; [exists ""; repeat split; exact H1|].
    simpl in Hle. destruct (strings.isSpace2 c2 c1) eqn:H2.
    { destruct (IH r2 ltac:(lia)) as (a & E & Ha & Hh).
      destruct (isSpace2_bytes _ _ H2) as [B2 B1].
      exists (String c1 (String c2 a)). repeat split; [simpl; congruence | | exact Hh].
      now repeat apply space_bytes_cons. }
    destruct r2 as [|c3 r3]; [exists ""; repeat split; exact H1|].
    simpl in Hle. destruct (strings.isSpace3 c3 c2 c1) eqn:H3.
    { destruct (IH r3 ltac:(lia)) as (a & E & Ha & Hh).
      destruct (isSpace3_bytes _ _ _ H3) as (B3 & B2 & B1).
      exists (String c1 (String c2 (String c3 a))).
      repeat split; [simpl; congruence | | exact Hh].
      now repeat apply space_bytes_cons. }
    exists "". repeat split. exact H1.
Qed.

(** [strings.TrimSpace] takes white space bytes off both ends and leaves
    a substring that neither starts nor ends with an ASCII white space. *)
Lemma TrimSpace_spec (s : string) :
  exists a b,
    s = a ++ strings.TrimSpace s ++ b
    /\ space_bytes a /\ space_bytes b
    /\ head_not_space (strings.TrimSpace s)
    /\ head_not_space (reverse (strings.TrimSpace s)).
Proof.
  unfold strings.TrimSpace, strings.trimRightSpace.
  destruct (trimLeftSpace_spec s) as (a & E & Ha & Hh).
  set (t := strings.trimLeftSpace s) in *.
  destruct (trimLeftSpaceRev_spec (reverse t)) as (b & E' & Hb & Hh').
  set (u := strings.trimLeftSpaceRev (reverse t)) in *.
  assert (Et : t = reverse u ++ reverse b).
  { rewrite <- reverse_app, <- E'. symmetry. apply reverse_involutive. }
  exists a, (reverse b). repeat split.
  - rewrite <- Et. exact E.
  - exact Ha.
  - unfold space_bytes. now rewrite has_char_reverse.
  - destruct (reverse u) as [|c r] eqn:Er; [exact I|].
    rewrite Et in Hh. exact Hh.
  - rewrite reverse_involutive. exact Hh'.
Qed.

Lemma ends_in_class_snoc (re : regexp.Regexp) (a : string) (c : ascii) :
  ends_in_class re (a ++ String c "") = regexp.matches re c.
Proof.
  induction a as [|d a IH]; [reflexivity|].
  cbn [append ends_in_class]. destruct (a ++ String c "") eqn:E; [|exact IH].
  destruct a; discriminate.
Qed.

Lemma ends_in_class_reverse (re : regexp.Regexp) (s : string) :
  ends_in_class re s
  = match reverse s with "" => false | String c _ => regexp.matches re c end.
Proof.
  destruct (reverse s) as [|c u] eqn:E.
  - apply (f_equal reverse) in E. rewrite reverse_involutive in E. now subst.
  - apply (f_equal reverse) in E. rewrite reverse_involutive in E. subst.
    rewrite reverse_cons. apply ends_in_class_snoc.
Qed.

Lemma isSpace1_spaces (c : ascii) :
  strings.isSpace1 c = false -> regexp.matches spaces c = false.
Proof.
  unfold regexp.matches, spaces. simpl.
  destruct (Ascii.eqb_spec c SP) as [->|]; [discriminate | reflexivity].
Qed.

(** * The command execution primitive *)

Import osagent.

Lemma regexp_Split_not_nil (re : regexp.Regexp) (s : string) :
  regexp.Split re s <> [].
Proof. unfold regexp.Split. destruct (regexp.pieces re s). discriminate. Qed.

(** [commandSplit] never panics and runs nothing. *)
Lemma commandSplit_argv (commandText : string) (h : Host) :
  commandSplit commandText h = Done (argv commandText) h.
Proof.
  unfold commandSplit, argv, bind, index, ret.
  pose proof (regexp_Split_not_nil spaces (strings.TrimSpace commandText)) as Hn.
  destruct (regexp.Split spaces (strings.TrimSpace commandText)); [congruence|].
  reflexivity.
Qed.

Lemma Forall_removelast_last {A} (P : A -> Prop) (l : list A) (d : A) :
  Forall P (removelast l) -> (l <> [] -> P (last l d)) -> Forall P l.
Proof.
  intros Hr Hl. destruct l as [|x l]; [constructor|].
  rewrite (app_removelast_last d (l := x :: l)) by discriminate.
  apply Forall_app. split; [exact Hr|].
  constructor; [apply Hl; discriminate | constructor].
Qed.

(** C5 (amended).  For every command line, [commandSplit] trims the white
    space at both ends and splits what is left on runs of the space byte
    (U+0020) into a program name and an argument list, without running
    anything: no name or argument holds a space, a run of spaces is one
    separator (no argument is empty), and the pieces put end to end are
    the trimmed line without its spaces.  Bytes other than the space, the
    tab among them, separate nothing and stay inside the arguments. *)
Theorem commandSplit_splits_on_spaces (commandText : string) (h : Host) :
  exists name args,
    commandSplit commandText h = Done (name, args) h
    /\ name :: args = regexp.Split spaces (strings.TrimSpace commandText)
    /\ Forall (class_free spaces) (name :: args)
    /\ Forall (fun a => a <> "") args
    /\ String.concat "" (name :: args)
       = drop_class spaces (strings.TrimSpace commandText).
Proof.
  rewrite commandSplit_argv. unfold argv.
  set (t := strings.TrimSpace commandText).
  pose proof (regexp_Split_not_nil spaces t) as Hn.
  pose proof (Split_class_free spaces t) as Hfree.
  pose proof (Split_concat spaces t) as Hcat.
  pose proof (pieces_nonempty spaces t) as (_ & Hinner & Hlast).
  destruct (TrimSpace_spec commandText) as (a & b & _ & _ & _ & _ & Hend). fold t in Hend.
  unfold regexp.Split in *. destruct (regexp.pieces spaces t) as [name args].
  exists name, args. cbn [List.hd List.tl fst snd] in *.
  repeat split; try assumption.
  apply (Forall_removelast_last _ args ""); [exact Hinner|].
  intro Hne. apply Hlast; [exact Hne|].
  rewrite ends_in_class_reverse. destruct (reverse t); [reflexivity|].
  now apply isSpace1_spaces.
Qed.

(** C5, as stated, fails on a tab: the tab between the device and the
    mount point separates nothing, and the one argument holds it. *)
Lemma commandSplit_keeps_tab :
  commandSplit ("mount /dev/vg0/lv1" ++ tab ++ "/mnt/snap") silent
  = Done ("mount", ["/dev/vg0/lv1" ++ tab ++ "/mnt/snap"]) silent
  /\ has_char (Ascii.eqb TAB) ("/dev/vg0/lv1" ++ tab ++ "/mnt/snap") = true.
Proof. split; reflexivity. Qed.

(** ** The program a command line names *)

Lemma has_char_weaken (p q : ascii -> bool) (s : string) :
  (forall c, p c = true -> q c = true) -> has_char q s = false -> has_char p s = false.
Proof.
  intros Hpq. induction s as [|c s IH]; simpl; [reflexivity|].
  destruct (q c) eqn:Hq; [discriminate|]. intro Hs.
  destruct (p c) eqn:Hp; [apply Hpq in Hp; congruence | auto].
Qed.

Lemma space_free_class_free (s : string) : space_free s -> class_free spaces s.
Proof.
  apply has_char_weaken. intros c. unfold regexp.matches, spaces. simpl.
  destruct (Ascii.eqb_spec c SP) as [->|]; [reflexivity | discriminate].
Qed.

Lemma pieces_first (re : regexp.Regexp) (t : string) (c : ascii) (x : string) :
  class_free re t -> regexp.matches re c = true ->
  fst (regexp.pieces re (t ++ String c x)) = t.
Proof.
  intros Ht Hc. induction t as [|d t IH].
  - now apply pieces_head_match.
  - unfold class_free in Ht. simpl in Ht.
    destruct (regexp.matches re d) eqn:Hd; [discriminate|].
    specialize (IH Ht). cbn [append regexp.pieces].
    destruct (regexp.pieces re (t ++ String c x)) as [p ps]. rewrite Hd.
    simpl in *. congruence.
Qed.

(** Trimming cannot eat into a name that holds no white space byte. *)
Lemma trimmed_keeps_name (name rest b : string) :
  space_free name -> space_bytes b ->
  forall T, name ++ String SP rest = T ++ b ->
  exists T2, T = name ++ T2 /\ (T2 = "" \/ exists T3, T2 = String SP T3).
Proof.
  intros Hname Hb. induction name as [|n name IH]; intros T E.
  - destruct T as [|x T1]; [exists ""; auto|].
    injection E as <- E. exists (String SP T1). eauto.
  - unfold space_free in Hname. simpl in Hname.
    destruct (spaceByte n) eqn:Hn; [discriminate|].
    destruct T as [|x T1].
    + simpl in E. subst b. unfold space_bytes in Hb. simpl in Hb.
      rewrite Hn in Hb. discriminate.
    + injection E as <- E. destruct (IH Hname T1 E) as (T2 & -> & HT2).
      exists T2. split; [reflexivity | exact HT2].
Qed.

(** The program [commandSplit] names is the first word of the command
    line, when a space follows it and it holds no white space byte. *)
Lemma argv_program (name rest : string) :
  name <> "" -> space_free name ->
  fst (argv (name ++ String SP rest)) = name.
Proof.
  intros Hne Hname. unfold argv. cbn [fst].
  destruct (TrimSpace_spec (name ++ String SP rest)) as (a & b & E & Ha & Hb & _ & _).
  set (T := strings.TrimSpace (name ++ String SP rest)) in *.
  assert (a = "") as ->.
  { destruct a as [|x a']; [reflexivity|]. destruct name as [|n name']; [congruence|].
    injection E as <- _. unfold space_bytes in Ha. unfold space_free in Hname.
    simpl in Ha, Hname. destruct (spaceByte n); discriminate. }
  simpl in E. destruct (trimmed_keeps_name name rest b Hname Hb T E) as (T2 & -> & HT2).
  destruct HT2 as [-> | (T3 & ->)].
  - rewrite append_empty_r, Split_token by now apply space_free_class_free.
    reflexivity.
  - unfold regexp.Split.
    pose proof (pieces_first spaces name SP T3 (space_free_class_free _ Hname) eq_refl) as Hp.
    destruct (regexp.pieces spaces (name ++ String SP T3)). simpl in *. exact Hp.
Qed.

(** The programs the operations run. *)
Lemma argv_lvs (volumeName : string) : fst (argv (lvsCommand volumeName)) = "lvs".
Proof. apply (argv_program "lvs"); [discriminate | reflexivity]. Qed.

Lemma argv_grep (mountPoint : string) : fst (argv (grepCommand mountPoint)) = "grep".
Proof. apply (argv_program "grep"); [discriminate | reflexivity]. Qed.

Lemma argv_du (path : string) : fst (argv (duCommand path)) = "du".
Proof. apply (argv_program "du"); [discriminate | reflexivity]. Qed.

Lemma argv_mount (volumeName mountPoint : string) :
  fst (argv (mountCommand volumeName mountPoint)) = "mount".
Proof. apply (argv_program "mount"); [discriminate | reflexivity]. Qed.

(** [commandOutput] runs the one command [argv] names; on failure the
    output is dropped and the error handed on. *)
Lemma commandOutput_spec (commandText : string) (h : Host) :
  commandOutput commandText h
  = Done (match snd (answer h (argv commandText)) with
          | Some e => ("", Some e)
          | None => (fst (answer h (argv commandText)), None)
          end)
         (ran h (argv commandText)).
Proof.
  unfold commandOutput, bind. rewrite commandSplit_argv.
  destruct (argv commandText) as [name args] eqn:E.
  unfold exec_Output, answer, ran.
  destruct (respond h (executed h) (name, args)) as [out [e|]]; reflexivity.
Qed.

(** The first command of an operation, once the answer of the host to it
    is known. *)
Ltac run_command Hans :=
  unfold bind; rewrite commandOutput_spec, Hans; cbn [fst snd].

(** * The output tokenizer *)

Lemma last_byte_snoc (a : string) (c : ascii) :
  last_byte (a ++ String c "") = Some c.
Proof.
  induction a as [|d a IH]; [reflexivity|].
  cbn [append last_byte]. destruct (a ++ String c "") eqn:E; [|exact IH].
  destruct a; discriminate.
Qed.

Lemma last_byte_reverse (s : string) (c : ascii) (u : string) :
  reverse s = String c u -> last_byte s = Some c.
Proof.
  intro E. apply (f_equal reverse) in E. rewrite reverse_involutive in E. subst.
  rewrite reverse_cons. apply last_byte_snoc.
Qed.

(** A string that ends in another byte than the separator has a last
    piece that is not empty. *)
Lemma Split_last_nonempty (s : string) (sep c : ascii) :
  last_byte s = Some c -> c <> sep -> List.last (strings.Split s sep) "" <> "".
Proof.
  intros Hl Hc. induction s as [|d r IH]; [discriminate|].
  cbn [last_byte] in Hl. cbn [strings.Split].
  pose proof (Split_not_nil r sep) as Hn.
  destruct r as [|e r'].
  - injection Hl as ->. simpl. destruct (Ascii.eqb_spec c sep); [contradiction|].
    simpl. discriminate.
  - specialize (IH Hl). destruct (strings.Split (String e r') sep) as [|q qs]; [congruence|].
    destruct (Ascii.eqb d sep).
    + exact IH.
    + destruct qs; [simpl; discriminate | exact IH].
Qed.

Lemma head_not_in_LF (c : ascii) : mem_ascii c [LF] = false -> c <> LF.
Proof. simpl. destruct (Ascii.eqb_spec c LF); [discriminate | auto]. Qed.

(** C4 (amended).  For every output, [outputLines] takes every newline
    off both ends of it (not one trailing newline only) and splits what is
    left on newlines, in order: the output is a run of newlines, the lines
    joined by newlines, and a run of newlines; no line holds a newline; and
    either there is the one empty line, or the first and the last line are
    not empty.  So empty output gives the one empty line, and output that
    ends in two newlines loses both: the empty line is not kept. *)
Theorem outputLines_trims_every_newline (output : string) :
  (exists lines a b,
    outputLines output None = (lines, None)
    /\ output = a ++ String.concat nl lines ++ b
    /\ all_in [LF] a /\ all_in [LF] b
    /\ Forall (fun l => has_char (Ascii.eqb LF) l = false) lines
    /\ (lines = [""] \/ (List.hd "" lines <> "" /\ List.last lines "" <> "")))
  /\ outputLines "" None = ([""], None)
  /\ outputLines ("a" ++ nl ++ nl) None = (["a"], None).
Proof.
  split; [|split; reflexivity].
  unfold outputLines.
  destruct (Trim_spec output [LF]) as (a & b & E & Ha & Hb & Hh & Hl).
  set (t := strings.Trim output [LF]) in *.
  exists (strings.Split t LF), a, b. repeat split; try assumption.
  - unfold nl. now rewrite Split_join.
  - apply Split_no_sep.
  - clearbody t. destruct t as [|c r]; [left; reflexivity | right]. split.
    + cbn [strings.Split]. simpl in Hh. apply head_not_in_LF in Hh.
      destruct (Ascii.eqb_spec c LF); [contradiction|].
      destruct (strings.Split r LF); simpl; discriminate.
    + destruct (reverse (String c r)) as [|d u] eqn:Er.
      * apply (f_equal reverse) in Er. rewrite reverse_involutive in Er.
        discriminate.
      * apply (Split_last_nonempty (String c r) LF d).
        -- now apply last_byte_reverse in Er.
        -- now apply head_not_in_LF.
Qed.

(** C4, as stated, fails on output that ends in two newlines: trimming
    one newline would keep an empty second line, the code keeps none. *)
Lemma outputLines_drops_empty_last_line :
  toLines ("a" ++ nl ++ nl) = ["a"; ""]
  /\ outputLines ("a" ++ nl ++ nl) None = (["a"], None)
  /\ outputLines ("a" ++ nl ++ nl) None <> (toLines ("a" ++ nl ++ nl), None).
Proof. repeat split. discriminate. Qed.

Lemma outputLines_error (output : string) (e : error) :
  outputLines output (Some e) = ([], Some e).
Proof. reflexivity. Qed.

Lemma outputTokens_ok (re : regexp.Regexp) (output : string) :
  outputTokens re output None
  = (List.map (regexp.Split re) (strings.Split (strings.Trim output [LF]) LF), None).
Proof. reflexivity. Qed.

Lemma outputTokens_error (re : regexp.Regexp) (output : string) (e : error) :
  outputTokens re output (Some e) = ([], Some e).
Proof. reflexivity. Qed.

(** Tokenizing never gives an empty sequence of rows, nor an empty row. *)
Lemma outputTokens_rows (re : regexp.Regexp) (output : string) :
  fst (outputTokens re output None) <> []
  /\ Forall (fun row => row <> []) (fst (outputTokens re output None)).
Proof.
  rewrite outputTokens_ok. cbn [fst]. split.
  - pose proof (Split_not_nil (strings.Trim output [LF]) LF).
    destruct (strings.Split (strings.Trim output [LF]) LF); [congruence | discriminate].
  - apply Forall_map. apply Forall_forall. intros l _. apply regexp_Split_not_nil.
Qed.

(** * Logical volumes *)

(** ** Comparing floats *)

Lemma SFcompare_swap (x y : spec_float) :
  SFcompare y x = option_map CompOpp (SFcompare x y).
Proof.
  destruct x as [sx|sx| |sx mx ex], y as [sy|sy| |sy my ey]; simpl;
    try destruct sx; try destruct sy; try reflexivity;
    rewrite (Z.compare_antisym ex ey); destruct (ex ?= ey)%Z; simpl; try reflexivity;
    pose proof (Pos.compare_cont_antisym mx my Eq) as H; simpl in H;
    rewrite <- H; destruct (Pos.compare_cont Eq mx my); reflexivity.
Qed.

Lemma SFcompare_None (x y : spec_float) :
  SFcompare y x = None <-> y = S754_nan \/ x = S754_nan.
Proof.
  destruct x as [sx|sx| |sx mx ex], y as [sy|sy| |sy my ey]; simpl;
    try destruct sx; try destruct sy;
    split; try discriminate; try (intros [|]; discriminate); auto.
Qed.

Lemma SFleb_false (y x : spec_float) :
  y <> S754_nan ->
  (SFleb y x = false <-> SFltb x y = true \/ x = S754_nan).
Proof.
  intro Hy. unfold SFleb, SFltb. rewrite (SFcompare_swap y x).
  destruct (SFcompare y x) as [[]|] eqn:E; cbn [option_map CompOpp].
  - split; [discriminate|]. intros [ | -> ]; [discriminate|].
    destruct y; discriminate.
  - split; [discriminate|]. intros [ | -> ]; [discriminate|].
    destruct y; discriminate.
  - split; auto.
  - apply SFcompare_None in E. destruct E as [|E]; [contradiction|].
    split; auto.
Qed.

Lemma SFeqb_self (x : spec_float) : SFeqb x x = false <-> x = S754_nan.
Proof.
  unfold SFeqb. destruct x as [s|s| |s m e]; simpl; try destruct s;
    try rewrite Z.compare_refl; try rewrite Pos.compare_cont_refl; simpl;
    split; congruence.
Qed.

Lemma is_nan_spec (x : float) : PrimFloat.is_nan x = true <-> Prim2SF x = S754_nan.
Proof.
  unfold PrimFloat.is_nan. rewrite FloatAxioms.eqb_spec, negb_true_iff.
  apply SFeqb_self.
Qed.

(** [x >= 100.0] is false exactly when [x < 100.0] or [x] is NaN. *)
Lemma not_ge_100 (x : float) :
  (100 <=? x)%float = false
  <-> (x <? 100)%float = true \/ PrimFloat.is_nan x = true.
Proof.
  rewrite leb_spec, ltb_spec, is_nan_spec. apply SFleb_false.
  vm_compute. discriminate.
Qed.

(** C6 (amended).  For every logical volume, [IsSnapshotValid] is true if
    and only if [IsSnapshot] is true and [SnapshotPercent >= 100.0] is
    false, that is, the percent is strictly less than 100.0 or is NaN; it
    is false for every volume that is no snapshot and for every snapshot
    whose percent is greater than or equal to 100.0, with exactly 100.0
    counted as invalid. *)
Theorem IsSnapshotValid_spec (this : LogicalVolume.t) :
  (IsSnapshotValid this = true
   <-> LogicalVolume.IsSnapshot this = true
       /\ ((LogicalVolume.SnapshotPercent this <? 100)%float = true
           \/ PrimFloat.is_nan (LogicalVolume.SnapshotPercent this) = true))
  /\ (LogicalVolume.IsSnapshot this = false -> IsSnapshotValid this = false)
  /\ ((100 <=? LogicalVolume.SnapshotPercent this)%float = true ->
      IsSnapshotValid this = false)
  /\ (LogicalVolume.SnapshotPercent this = 100%float -> IsSnapshotValid this = false).
Proof.
  unfold IsSnapshotValid. rewrite <- not_ge_100.
  destruct (LogicalVolume.IsSnapshot this); cbn [negb].
  - repeat split.
    + destruct (100 <=? _)%float; intuition congruence.
    + destruct (100 <=? _)%float; intuition congruence.
    + discriminate.
    + intros ->. reflexivity.
    + intros ->. reflexivity.
  - repeat split; intuition congruence.
Qed.

(** C6, as stated, fails on NaN: a snapshot whose percent is NaN is
    valid for the code, and NaN is not less than 100.0. *)
Lemma IsSnapshotValid_nan :
  IsSnapshotValid (volume "snap" true nan) = true
  /\ (nan <? 100)%float = false.
Proof. split; reflexivity. Qed.

(** A snapshot at 42.5 percent is valid; a volume that is no snapshot, a
    snapshot above 100 percent and a snapshot at 100 percent are not. *)
Lemma IsSnapshotValid_spec_witness :
  IsSnapshotValid (volume "snap" true 42.5) = true
  /\ IsSnapshotValid (volume "lv" false 0) = false
  /\ IsSnapshotValid (volume "snap" true 100.25) = false
  /\ IsSnapshotValid (volume "snap" true 100) = false.
Proof.
  split; [|split; [|split]].
  - apply (proj1 (IsSnapshotValid_spec (volume "snap" true 42.5))).
    split; [reflexivity | left; reflexivity].
  - apply (proj1 (proj2 (IsSnapshotValid_spec (volume "lv" false 0)))). reflexivity.
  - apply (proj1 (proj2 (proj2 (IsSnapshotValid_spec (volume "snap" true 100.25))))).
    reflexivity.
  - apply (proj2 (proj2 (proj2 (IsSnapshotValid_spec (volume "snap" true 100))))).
    reflexivity.
Defined.

(** ** Listing the volumes *)

(** What [strconv.ParseFloat] hands back with an error: zero for a
    malformed string, an infinity for a value out of range. *)
Lemma ParseFloat_error (s : string) (bitSize : Z) (f : float) (e : strconv.Err) :
  strconv.ParseFloat s bitSize = (f, Some e) ->
  (e = strconv.ErrSyntax /\ f = 0%float)
  \/ (e = strconv.ErrRange /\ (f = infinity \/ f = neg_infinity)).
Proof.
  unfold strconv.ParseFloat.
  destruct (strconv.special s); [discriminate|].
  destruct (strconv.readFloat s) as [[[neg mant] ex]|].
  - destruct (if (bitSize =? 32)%Z then _ else _) as [z|[|]| |sg m ex']; try discriminate;
      intros [= <- <-]; right; split; auto.
  - intros [= <- <-]. left. split; reflexivity.
Qed.

Lemma LogicalVolumes_row_ok (filterPattern : string)
  (logicalVolumes : list LogicalVolume.t) (lineTokens : list string) (h : Host) :
  5 <= List.length lineTokens ->
  LogicalVolumes_row filterPattern logicalVolumes lineTokens h
  = Done (if nameContains filterPattern (volumeOfTokens lineTokens)
          then logicalVolumes ++ [volumeOfTokens lineTokens]
          else logicalVolumes)%list h.
Proof.
  intro Hlen.
  destruct lineTokens as [|t0 [|t1 [|t2 [|t3 [|t4 rest]]]]]; simpl in Hlen; try lia.
  unfold LogicalVolumes_row, bind, index, ret, nameContains, volumeOfTokens.
  cbn [nth_error nth LogicalVolume.Name].
  destruct (strconv.ParseFloat t4 32) as [percent [e|]]; cbn [fst snd];
    destruct (strings.Contains t1 filterPattern); reflexivity.
Qed.

Lemma LogicalVolumes_row_short (filterPattern : string)
  (logicalVolumes : list LogicalVolume.t) (lineTokens : list string) (h : Host) :
  0 < List.length lineTokens < 5 ->
  exists i, LogicalVolumes_row filterPattern logicalVolumes lineTokens h
            = Panic (IndexOutOfRange i (List.length lineTokens))
            /\ List.length lineTokens <= i.
Proof.
  intro Hlen.
  destruct lineTokens as [|t0 [|t1 [|t2 [|t3 [|t4 rest]]]]]; simpl in Hlen; try lia;
    unfold LogicalVolumes_row, bind, index; cbn [nth_error List.length].
  - exists 1. split; [reflexivity | lia].
  - exists 2. split; [reflexivity | lia].
  - exists 3. split; [reflexivity | lia].
  - exists 4. split; [reflexivity | lia].
Qed.

Lemma LogicalVolumes_loop_ok (filterPattern : string) (tokens : list (list string)) :
  Forall (fun row => 5 <= List.length row) tokens ->
  forall (logicalVolumes : list LogicalVolume.t) (h : Host),
    LogicalVolumes_loop filterPattern tokens logicalVolumes h
    = Done (logicalVolumes
            ++ List.filter (nameContains filterPattern) (List.map volumeOfTokens tokens))%list
           h.
Proof.
  induction 1 as [|row tokens Hrow _ IH]; intros acc h; cbn [LogicalVolumes_loop].
  - unfold ret. now rewrite app_nil_r.
  - unfold bind. rewrite LogicalVolumes_row_ok by exact Hrow.
    cbn [List.map List.filter].
    destruct (nameContains filterPattern (volumeOfTokens row)); rewrite IH.
    + now rewrite <- app_assoc.
    + reflexivity.
Qed.

(** When [lvs] succeeds and every row has its five tokens,
    [LogicalVolumes] returns, in order, the volumes of the rows whose name
    contains the pattern, and no error. *)
Lemma LogicalVolumes_returns (volumeName filterPattern output : string) (h : Host) :
  answer h (argv (lvsCommand volumeName)) = (output, None) ->
  Forall (fun row => 5 <= List.length row) (rows output) ->
  LogicalVolumes volumeName filterPattern h
  = Done (List.filter (nameContains filterPattern) (List.map volumeOfTokens (rows output)),
          None)
         (ran h (argv (lvsCommand volumeName))).
Proof.
  intros Hans Hrows. unfold LogicalVolumes.
  fold (lvsCommand volumeName). run_command Hans.
  unfold rows in *. rewrite outputTokens_ok in *. cbn [fst] in *.
  rewrite LogicalVolumes_loop_ok by exact Hrows. reflexivity.
Qed.

(** A failure of [lvs] is handed on. *)
Lemma LogicalVolumes_error (volumeName filterPattern output : string)
  (e : error) (h : Host) :
  answer h (argv (lvsCommand volumeName)) = (output, Some e) ->
  LogicalVolumes volumeName filterPattern h
  = Done ([], Some e) (ran h (argv (lvsCommand volumeName))).
Proof.
  intros Hans. unfold LogicalVolumes.
  fold (lvsCommand volumeName). run_command Hans. reflexivity.
Qed.

(** C1 (the code against the claim).  When [lvs] succeeds and prints
    nothing, the tokenizer still hands one row of one empty token to the
    loop, and [LogicalVolumes] panics on [lineTokens[1]] instead of
    returning an empty sequence and no error. *)
Theorem LogicalVolumes_no_rows_panics (volumeName filterPattern : string) (h : Host) :
  answer h (argv (lvsCommand volumeName)) = ("", None) ->
  LogicalVolumes volumeName filterPattern h = Panic (IndexOutOfRange 1 1).
Proof.
  intros Hans. unfold LogicalVolumes.
  fold (lvsCommand volumeName). run_command Hans. reflexivity.
Qed.

(** [lvs] prints nothing on a host without volumes. *)
Lemma LogicalVolumes_no_rows_panics_witness :
  LogicalVolumes "" "" (lvsHost "") = Panic (IndexOutOfRange 1 1).
Proof. apply (LogicalVolumes_no_rows_panics "" "" (lvsHost "")). reflexivity. Defined.

(** When rows are there and none has a name that contains the pattern,
    the empty sequence and no error come back. *)
Lemma LogicalVolumes_no_match (volumeName filterPattern output : string) (h : Host) :
  answer h (argv (lvsCommand volumeName)) = (output, None) ->
  Forall (fun row => 5 <= List.length row) (rows output) ->
  Forall (fun row => strings.Contains (nth 1 row "") filterPattern = false) (rows output) ->
  LogicalVolumes volumeName filterPattern h
  = Done ([], None) (ran h (argv (lvsCommand volumeName))).
Proof.
  intros Hans Hrows Hnone. rewrite (LogicalVolumes_returns _ _ output) by assumption.
  do 2 f_equal. induction Hnone as [|row tokens Hrow _ IH]; [reflexivity|].
  inversion Hrows; subst. cbn [List.map List.filter].
  unfold nameContains at 1. cbn [volumeOfTokens LogicalVolume.Name]. rewrite Hrow. auto.
Qed.

(** With the empty pattern every row is returned. *)
Lemma LogicalVolumes_empty_pattern (volumeName output : string) (h : Host) :
  answer h (argv (lvsCommand volumeName)) = (output, None) ->
  Forall (fun row => 5 <= List.length row) (rows output) ->
  LogicalVolumes volumeName "" h
  = Done (List.map volumeOfTokens (rows output), None)
         (ran h (argv (lvsCommand volumeName))).
Proof.
  intros Hans Hrows. rewrite (LogicalVolumes_returns _ _ output) by assumption.
  do 2 f_equal. apply forallb_filter_id. apply forallb_forall.
  intros lv _. apply Contains_empty.
Qed.

(** The first row with fewer than five tokens makes the loop panic. *)
Lemma LogicalVolumes_loop_short (filterPattern : string) (tokens : list (list string))
  (logicalVolumes : list LogicalVolume.t) (h : Host) :
  Forall (fun row => row <> []) tokens ->
  Exists (fun row => List.length row < 5) tokens ->
  exists p, LogicalVolumes_loop filterPattern tokens logicalVolumes h = Panic p.
Proof.
  intros Hne Hex. revert logicalVolumes.
  induction tokens as [|row tokens IH]; intro acc; [inversion Hex|].
  cbn [LogicalVolumes_loop]. unfold bind. inversion Hne as [|? ? Hrow Hne']; subst.
  destruct (Nat.lt_ge_cases (List.length row) 5) as [Hshort|Hlong].
  - destruct (LogicalVolumes_row_short filterPattern acc row h) as (i & -> & _); eauto.
    destruct row; [congruence | simpl in *; lia].
  - rewrite LogicalVolumes_row_ok by exact Hlong.
    inversion Hex; subst; [lia|]. now apply IH.
Qed.

(** [GetLogicalVolumePath]: the path of the first volume [lvs] lists for
    the name, or the error of the volume not found when [lvs] fails. *)
Lemma GetLogicalVolumePath_found (volumeName output : string) (h : Host) :
  answer h (argv (lvsCommand volumeName)) = (output, None) ->
  Forall (fun row => 5 <= List.length row) (rows output) ->
  GetLogicalVolumePath volumeName h
  = Done (nth 3 (List.hd [] (rows output)) "", None)
         (ran h (argv (lvsCommand volumeName))).
Proof.
  intros Hans Hrows. unfold GetLogicalVolumePath, bind.
  rewrite (LogicalVolumes_empty_pattern volumeName output) by assumption.
  pose proof (proj1 (outputTokens_rows blanks output)) as Hne. fold (rows output) in Hne.
  destruct (rows output) as [|row tokens]; [congruence | reflexivity].
Qed.

Lemma GetLogicalVolumePath_not_found (volumeName output : string) (e : error) (h : Host) :
  answer h (argv (lvsCommand volumeName)) = (output, Some e) ->
  GetLogicalVolumePath volumeName h
  = Done ("", Some (ErrorString ("logical volume not found: " ++ volumeName)))
         (ran h (argv (lvsCommand volumeName))).
Proof.
  intros Hans. unfold GetLogicalVolumePath, bind.
  now rewrite (LogicalVolumes_error volumeName "" output e).
Qed.

(** C2 (amended).  When [lvs] succeeds and every row has its five
    tokens, [LogicalVolumes] returns no error and, in order, the volumes
    of the rows whose name contains the pattern; every volume it returns
    comes from a row whose fifth token [strconv.ParseFloat] was given:
    [IsSnapshot] is true if and only if the parser reported no error, and
    [SnapshotPercent] is the value the parser handed back, with or without
    an error.  So a malformed field gives [IsSnapshot = false] and zero
    percent, and a well-formed field beyond the range of a [float32] gives
    [IsSnapshot = false] and an infinite percent, not zero. *)
Theorem LogicalVolumes_snapshot_fields
  (volumeName filterPattern output : string) (h : Host) :
  answer h (argv (lvsCommand volumeName)) = (output, None) ->
  Forall (fun row => 5 <= List.length row) (rows output) ->
  exists logicalVolumes,
    LogicalVolumes volumeName filterPattern h
    = Done (logicalVolumes, None) (ran h (argv (lvsCommand volumeName)))
    /\ logicalVolumes
       = List.filter (nameContains filterPattern) (List.map volumeOfTokens (rows output))
    /\ Forall (fun lv =>
          exists row,
            In row (rows output)
            /\ LogicalVolume.Name lv = nth 1 row ""
            /\ LogicalVolume.SnapshotPercent lv
               = fst (strconv.ParseFloat (nth 4 row "") 32)
            /\ (LogicalVolume.IsSnapshot lv = true
                <-> snd (strconv.ParseFloat (nth 4 row "") 32) = None)
            /\ (snd (strconv.ParseFloat (nth 4 row "") 32) = Some strconv.ErrSyntax ->
                LogicalVolume.IsSnapshot lv = false
                /\ LogicalVolume.SnapshotPercent lv = 0%float)
            /\ (snd (strconv.ParseFloat (nth 4 row "") 32) = Some strconv.ErrRange ->
                LogicalVolume.IsSnapshot lv = false
                /\ (LogicalVolume.SnapshotPercent lv = infinity
                    \/ LogicalVolume.SnapshotPercent lv = neg_infinity)))
         logicalVolumes.
Proof.
  intros Hans Hrows. eexists.
  split; [apply (LogicalVolumes_returns _ _ output); assumption|].
  split; [reflexivity|].
  apply Forall_forall. intros lv Hin.
  apply filter_In in Hin. destruct Hin as [Hin _].
  apply in_map_iff in Hin. destruct Hin as (row & <- & Hin).
  exists row. cbn [volumeOfTokens LogicalVolume.Name LogicalVolume.SnapshotPercent
                   LogicalVolume.IsSnapshot].
  destruct (strconv.ParseFloat (nth 4 row "") 32) as [f [e|]] eqn:E; cbn [fst snd].
  - destruct (ParseFloat_error _ _ _ _ E) as [[-> ->]|[-> Hf]];
      repeat split; try congruence; auto.
  - repeat split; congruence.
Qed.

(** The two volumes of [lvsTwoVolumes]. *)
Lemma LogicalVolumes_snapshot_fields_witness :
  exists logicalVolumes,
    LogicalVolumes "" "" (lvsHost lvsTwoVolumes)
    = Done (logicalVolumes, None) (ran (lvsHost lvsTwoVolumes) (argv (lvsCommand "")))
    /\ logicalVolumes
       = List.filter (nameContains "") (List.map volumeOfTokens (rows lvsTwoVolumes))
    /\ Forall (fun lv =>
          exists row,
            In row (rows lvsTwoVolumes)
            /\ LogicalVolume.Name lv = nth 1 row ""
            /\ LogicalVolume.SnapshotPercent lv
               = fst (strconv.ParseFloat (nth 4 row "") 32)
            /\ (LogicalVolume.IsSnapshot lv = true
                <-> snd (strconv.ParseFloat (nth 4 row "") 32) = None)
            /\ (snd (strconv.ParseFloat (nth 4 row "") 32) = Some strconv.ErrSyntax ->
                LogicalVolume.IsSnapshot lv = false
                /\ LogicalVolume.SnapshotPercent lv = 0%float)
            /\ (snd (strconv.ParseFloat (nth 4 row "") 32) = Some strconv.ErrRange ->
                LogicalVolume.IsSnapshot lv = false
                /\ (LogicalVolume.SnapshotPercent lv = infinity
                    \/ LogicalVolume.SnapshotPercent lv = neg_infinity)))
         logicalVolumes.
Proof.
  apply (LogicalVolumes_snapshot_fields "" "" lvsTwoVolumes (lvsHost lvsTwoVolumes)).
  - reflexivity.
  - vm_compute. repeat constructor.
Defined.

Example LogicalVolumes_two_volumes :
  LogicalVolumes "" "" (lvsHost lvsTwoVolumes)
  = Done ([volume "data" false 0; volume "snap1" true 12.340000152587890625], None)
         (ran (lvsHost lvsTwoVolumes) (argv (lvsCommand ""))).
Proof. vm_compute. reflexivity. Qed.

Example LogicalVolumes_pattern :
  LogicalVolumes "" "snap" (lvsHost lvsTwoVolumes)
  = Done ([volume "snap1" true 12.340000152587890625], None)
         (ran (lvsHost lvsTwoVolumes) (argv (lvsCommand ""))).
Proof. vm_compute. reflexivity. Qed.

(** C2, as stated, fails on a field that is well formed and too large:
    the parser reports an error, [IsSnapshot] is false, and the percent is
    infinite, not zero. *)
Lemma LogicalVolumes_unparsable_not_zero :
  snd (strconv.ParseFloat "1e39" 32) = Some strconv.ErrRange
  /\ LogicalVolumes "" "" (lvsHost lvsHugePercent)
     = Done ([volume "snap1" false infinity], None)
            (ran (lvsHost lvsHugePercent) (argv (lvsCommand "")))
  /\ (infinity =? 0)%float = false.
Proof. repeat split; vm_compute; reflexivity. Qed.

(** * Disk usage *)

(** ** Parsing integers *)

Local Open Scope Z_scope.

Lemma digitVal_digit (c : ascii) (v : Z) :
  strconv.digitVal c = Some v -> v < 10 ->
  strconv.isDigit c = true /\ v = Z.of_N (byte c) - 48.
Proof.
  unfold strconv.digitVal, strconv.isDigit.
  destruct (Z.leb_spec 48 (Z.of_N (byte c))), (Z.leb_spec (Z.of_N (byte c)) 57);
    cbn [andb].
  1: { intros [= <-] _. split; [|reflexivity].
       apply andb_true_iff. split; apply N.leb_le; lia. }
  all: destruct (Z.leb_spec 97 (Z.of_N (byte c))), (Z.leb_spec (Z.of_N (byte c)) 122);
    cbn [andb]; try (intros [= <-]; lia);
    destruct (Z.leb_spec 65 (Z.of_N (byte c))), (Z.leb_spec (Z.of_N (byte c)) 90);
    cbn [andb]; try (intros [= <-]; lia); discriminate.
Qed.

Lemma isDigit_digitVal (c : ascii) :
  strconv.isDigit c = true ->
  strconv.digitVal c = Some (Z.of_N (byte c) - 48) /\ 0 <= Z.of_N (byte c) - 48 < 10.
Proof.
  unfold strconv.isDigit, strconv.digitVal. intro H.
  apply andb_true_iff in H. destruct H as [H1 H2].
  apply N.leb_le in H1, H2.
  destruct (Z.leb_spec 48 (Z.of_N (byte c))); [|lia].
  destruct (Z.leb_spec (Z.of_N (byte c)) 57); [|lia].
  split; [reflexivity | lia].
Qed.

(** The loop fails as soon as a byte is no digit, if not before. *)
Lemma parseUintLoop_not_digits (cutoff maxVal : Z) (s : string) :
  allDigits s = false ->
  forall n, exists v e, strconv.parseUintLoop 10 cutoff maxVal s n = (v, Some e).
Proof.
  induction s as [|c r IH]; [discriminate|]. intros Hd n.
  cbn [strconv.parseUintLoop].
  destruct (strconv.digitVal c) as [v|] eqn:Ev; [|eauto].
  destruct (Z.leb_spec 10 v); [eauto|].
  destruct (cutoff <=? n); [eauto|].
  destruct (_ || _); [eauto|].
  apply IH. destruct (digitVal_digit c v Ev ltac:(lia)) as [Hc _].
  simpl in Hd. now rewrite Hc in Hd.
Qed.

(** Out of range, the loop hands back the largest [uint64]. *)
Lemma parseUintLoop_range (base cutoff maxVal : Z) (s : string) :
  forall n v, strconv.parseUintLoop base cutoff maxVal s n = (v, Some strconv.ErrRange) ->
              v = strconv.maxUint64.
Proof.
  induction s as [|c r IH]; intros n v; cbn [strconv.parseUintLoop]; [discriminate|].
  destruct (strconv.digitVal c) as [d|]; [|discriminate].
  destruct (base <=? d); [discriminate|].
  destruct (cutoff <=? n); [congruence|].
  destruct (_ || _); [congruence | apply IH].
Qed.

Lemma digitsValue_ge (s : string) :
  allDigits s = true -> forall n, 0 <= n -> n <= digitsValue s n.
Proof.
  induction s as [|c r IH]; intros Hd n Hn; cbn [digitsValue]; [lia|].
  simpl in Hd. apply andb_true_iff in Hd. destruct Hd as [Hc Hr].
  destruct (isDigit_digitVal c Hc) as [_ Hv].
  specialize (IH Hr (n * 10 + (Z.of_N (byte c) - 48)) ltac:(lia)). lia.
Qed.

(** On digits whose number fits a [uint64], the loop computes it. *)
Lemma parseUintLoop_digits (s : string) :
  allDigits s = true ->
  forall n, 0 <= n -> digitsValue s n < 2 ^ 64 ->
  strconv.parseUintLoop 10 (strconv.maxUint64 / 10 + 1) strconv.maxUint64 s n
  = (digitsValue s n, None).
Proof.
  change (strconv.maxUint64 / 10 + 1) with 1844674407370955162.
  change strconv.maxUint64 with 18446744073709551615.
  change (2 ^ 64) with 18446744073709551616.
  induction s as [|c r IH]; intros Hd n Hn Hv; [reflexivity|].
  simpl in Hd. apply andb_true_iff in Hd. destruct Hd as [Hc Hr].
  destruct (isDigit_digitVal c Hc) as [Ed Hd].
  cbn [strconv.parseUintLoop digitsValue] in *. rewrite Ed.
  set (d := Z.of_N (byte c) - 48) in *.
  pose proof (digitsValue_ge r Hr (n * 10 + d) ltac:(lia)) as Hge.
  destruct (Z.leb_spec 10 d); [lia|].
  destruct (Z.leb_spec 1844674407370955162 n); [lia|].
  change (2 ^ 64) with 18446744073709551616.
  rewrite (Z.mod_small (n * 10)) by lia.
  rewrite (Z.mod_small (n * 10 + d)) by lia.
  destruct (Z.ltb_spec (n * 10 + d) (n * 10)); [lia|].
  destruct (Z.ltb_spec 18446744073709551615 (n * 10 + d)); [lia|].
  cbn [orb]. apply IH; [exact Hr | lia | exact Hv].
Qed.

Lemma ParseUint_64 (s : string) :
  s <> "" ->
  strconv.ParseUint s 10 64
  = strconv.parseUintLoop 10 (strconv.maxUint64 / 10 + 1) strconv.maxUint64 s 0.
Proof. destruct s; [congruence | reflexivity]. Qed.

(** [ParseInt] on a string that is no numeral reports an error. *)
Lemma ParseInt_not_numeral (s : string) :
  isNumeral s = false ->
  exists v e, strconv.ParseInt s 10 0 = (v, Some e).
Proof.
  destruct s as [|c r]; [now eexists _, _|]. intro Hn.
  unfold strconv.ParseInt. change (if 0 =? 0 then strconv.IntSize else 0) with 64.
  set (neg := Ascii.eqb c "-"). set (s' := if Ascii.eqb c "+" || neg then r else String c r).
  assert (Hs' : s' = "" \/ (s' <> "" /\ allDigits s' = false)).
  { unfold s', isNumeral in *. fold neg in Hn.
    destruct (Ascii.eqb c "+" || neg).
    - destruct r; [left; reflexivity | right]. split; [discriminate|].
      exact Hn.
    - right. split; [discriminate | exact Hn]. }
  destruct Hs' as [-> | [Hne Hd]]; [now eexists _, _|].
  rewrite ParseUint_64 by exact Hne.
  destruct (parseUintLoop_not_digits (strconv.maxUint64 / 10 + 1) strconv.maxUint64 s' Hd 0)
    as (v & e & E).
  rewrite E. destruct e; [now eexists _, _|].
  apply parseUintLoop_range in E. subst v.
  destruct neg; cbn [negb andb]; change (2 ^ (64 - 1) <=? strconv.maxUint64) with true;
    change (2 ^ (64 - 1) <? strconv.maxUint64) with true; cbn [andb]; now eexists _, _.
Qed.

(** [ParseInt] on a numeral that fits an [int64] returns its number. *)
Lemma ParseInt_numeral (s : string) :
  isNumeral s = true ->
  - 2 ^ 63 <= numeralValue s < 2 ^ 63 ->
  strconv.ParseInt s 10 0 = (numeralValue s, None).
Proof.
  change (2 ^ 63) with 9223372036854775808.
  destruct s as [|c r]; [discriminate|]. intros Hn Hv.
  unfold strconv.ParseInt. change (if 0 =? 0 then strconv.IntSize else 0) with 64.
  change (2 ^ (64 - 1)) with 9223372036854775808.
  unfold isNumeral, numeralValue in *.
  destruct (Ascii.eqb_spec c "-") as [->|Hminus].
  - cbn [Ascii.eqb Bool.eqb orb andb] in *.
    apply andb_true_iff in Hn. destruct Hn as [Hne Hd].
    assert (r <> "") by (destruct r; [discriminate | discriminate]).
    pose proof (digitsValue_ge r Hd 0 ltac:(lia)).
    rewrite ParseUint_64, parseUintLoop_digits by (assumption || lia).
    cbn [negb andb].
    destruct (Z.ltb_spec 9223372036854775808 (digitsValue r 0)); [lia | reflexivity].
  - destruct (Ascii.eqb_spec c "+") as [->|Hplus].
    + cbn [Ascii.eqb Bool.eqb orb andb] in *.
      apply andb_true_iff in Hn. destruct Hn as [Hne Hd].
      assert (r <> "") by (destruct r; [discriminate | discriminate]).
      pose proof (digitsValue_ge r Hd 0 ltac:(lia)).
      rewrite ParseUint_64, parseUintLoop_digits by (assumption || lia).
      cbn [negb andb].
      destruct (Z.leb_spec 9223372036854775808 (digitsValue r 0)); [lia | reflexivity].
    + cbn [orb] in *.
      pose proof (digitsValue_ge (String c r) Hn 0 ltac:(lia)).
      rewrite ParseUint_64, parseUintLoop_digits by (assumption || lia || discriminate).
      cbn [negb andb].
      destruct (Z.leb_spec 9223372036854775808 (digitsValue (String c r) 0));
        [lia | reflexivity].
Qed.

Local Close Scope Z_scope.

(** ** Measuring a directory *)

(** With the output of [du] in hand, [DiskUsage] is [strconv.ParseInt] on
    the first field of the first row. *)
Lemma DiskUsage_ok (path output : string) (h : Host) :
  answer h (argv (duCommand path)) = (output, None) ->
  DiskUsage path h
  = Done (fst (strconv.ParseInt (firstField output) 10 0),
          option_map (NumError "ParseInt" (firstField output))
                     (snd (strconv.ParseInt (firstField output) 10 0)))
         (ran h (argv (duCommand path))).
Proof.
  intro Hans. unfold DiskUsage. fold (duCommand path). run_command Hans.
  unfold firstField, rows. rewrite outputTokens_ok. cbn [fst].
  pose proof (Split_not_nil (strings.Trim output [LF]) LF) as Hl.
  destruct (strings.Split (strings.Trim output [LF]) LF) as [|l ls]; [congruence|].
  cbn [List.map List.hd].
  pose proof (regexp_Split_not_nil blanks l) as Hf.
  destruct (regexp.Split blanks l) as [|f fs]; [congruence|].
  unfold index. cbn [nth_error List.hd].
  destruct (strconv.ParseInt f 10 0) as [v [e|]]; reflexivity.
Qed.

Lemma DiskUsage_error (path output : string) (e : error) (h : Host) :
  answer h (argv (duCommand path)) = (output, Some e) ->
  DiskUsage path h = Done (0%Z, Some e) (ran h (argv (duCommand path))).
Proof.
  intro Hans. unfold DiskUsage. fold (duCommand path). run_command Hans.
  reflexivity.
Qed.

(** [DiskUsage] never panics: it runs [du] and returns. *)
Lemma DiskUsage_total (path : string) (h : Host) :
  exists r, DiskUsage path h = Done r (ran h (argv (duCommand path))).
Proof.
  destruct (answer h (argv (duCommand path))) as [output [e|]] eqn:Hans.
  - eexists. exact (DiskUsage_error path output e h Hans).
  - eexists. exact (DiskUsage_ok path output h Hans).
Qed.

(** *** The first field, read off the output *)

Lemma upTo_app_stop (stop : ascii -> bool) (t b : string) :
  has_char (fun c => negb (stop c)) b = false ->
  upTo stop (t ++ b) = upTo stop t.
Proof.
  intro Hb. induction t as [|c t IH]; cbn [append upTo].
  - destruct b as [|d b]; [reflexivity|]. cbn [has_char] in Hb.
    apply orb_false_iff in Hb. destruct Hb as [Hd _].
    apply negb_false_iff in Hd. cbn [upTo]. now rewrite Hd.
  - now rewrite IH.
Qed.

Lemma all_in_LF (b : string) :
  all_in [LF] b -> has_char (fun c => negb (isLF c)) b = false.
Proof.
  unfold all_in. induction b as [|c b IH]; [reflexivity|]. cbn [has_char mem_ascii].
  unfold isLF. destruct (Ascii.eqb c LF); cbn [negb orb]; auto.
Qed.

Lemma firstLine_all_LF (a t : string) : all_in [LF] a -> firstLine (a ++ t) = firstLine t.
Proof.
  unfold all_in. induction a as [|c a IH]; [reflexivity|]. cbn [has_char mem_ascii append].
  intro H. cbn [firstLine]. unfold isLF at 1.
  destruct (Ascii.eqb c LF); cbn [negb orb] in H; [auto | discriminate].
Qed.

Lemma firstLine_head (t : string) : head_not_in [LF] t -> firstLine t = upTo isLF t.
Proof.
  destruct t as [|c t]; [reflexivity|]. cbn [head_not_in mem_ascii firstLine].
  unfold isLF at 1. destruct (Ascii.eqb c LF); [discriminate | reflexivity].
Qed.

(** The first piece of [strings.Split] on newlines. *)
Lemma Split_first_line (s : string) : List.hd "" (strings.Split s LF) = upTo isLF s.
Proof.
  induction s as [|c r IH]; [reflexivity|]. cbn [strings.Split upTo]. unfold isLF at 1.
  destruct (Ascii.eqb c LF); [reflexivity|].
  pose proof (Split_not_nil r LF) as Hne.
  destruct (strings.Split r LF) as [|q qs]; [congruence|].
  cbn [List.hd] in *. now rewrite IH.
Qed.

(** The first piece of [regexp.Split] on blanks. *)
Lemma Split_first_field (line : string) :
  List.hd "" (regexp.Split blanks line) = upTo isBlank line.
Proof.
  unfold regexp.Split. destruct (regexp.pieces blanks line) as [q qs] eqn:E.
  cbn [List.hd]. change q with (fst (q, qs)). rewrite <- E. clear E q qs.
  induction line as [|c r IH]; [reflexivity|]. cbn [regexp.pieces upTo].
  assert (Hc : regexp.matches blanks c = isBlank c).
  { unfold regexp.matches, blanks, isBlank. cbn [regexp.class mem_ascii].
    destruct (Ascii.eqb c SP), (Ascii.eqb c TAB); reflexivity. }
  rewrite Hc. destruct (regexp.pieces blanks r) as [q qs]. cbn [fst] in IH.
  destruct (isBlank c).
  - destruct r as [|d r']; [reflexivity|]. destruct (regexp.matches blanks d); reflexivity.
  - cbn [fst]. now rewrite IH.
Qed.

(** The line [outputLines] puts first is the first line that is not
    empty. *)
Lemma Trim_first_line (output : string) :
  List.hd "" (strings.Split (strings.Trim output [LF]) LF) = firstLine output.
Proof.
  rewrite Split_first_line.
  destruct (Trim_spec output [LF]) as (a & b & E & Ha & Hb & Hhead & _).
  remember (strings.Trim output [LF]) as T eqn:ET. clear ET. rewrite E.
  rewrite (firstLine_all_LF a _ Ha).
  destruct T as [|c T'].
  - cbn [append upTo]. symmetry.
    rewrite <- (append_empty_r b). rewrite (firstLine_all_LF b "" Hb). reflexivity.
  - rewrite firstLine_head by exact Hhead.
    symmetry. apply upTo_app_stop. now apply all_in_LF.
Qed.

(** The first field of the first row of the tokenizer is the field the
    first line that is not empty starts with. *)
Lemma firstField_leadingField (output : string) : firstField output = leadingField output.
Proof.
  unfold firstField, rows, leadingField. rewrite outputTokens_ok. cbn [fst].
  rewrite <- Trim_first_line.
  pose proof (Split_not_nil (strings.Trim output [LF]) LF) as Hl.
  destruct (strings.Split (strings.Trim output [LF]) LF) as [|l ls]; [congruence|].
  cbn [List.map List.hd]. apply Split_first_field.
Qed.

Lemma trimOneTrailingNewline_first_line (output : string) :
  upTo isLF (trimOneTrailingNewline output) = upTo isLF output.
Proof.
  unfold trimOneTrailingNewline. destruct (reverse output) as [|c r] eqn:E; [reflexivity|].
  destruct (Ascii.eqb_spec c LF) as [->|Hc]; [|reflexivity].
  assert (Eo : output = reverse r ++ String LF "").
  { rewrite <- (reverse_involutive output), E. apply reverse_cons. }
  rewrite Eo. symmetry. apply upTo_app_stop. reflexivity.
Qed.

(** On an output that does not start with a newline, that field is the
    first field of the first row of the specification. *)
Lemma leadingField_specFirstField (output : string) :
  head_not_in [LF] output -> leadingField output = specFirstField output.
Proof.
  intro Hhead. unfold leadingField, specFirstField, toTokenRows, toLines.
  rewrite (firstLine_head _ Hhead), <- trimOneTrailingNewline_first_line.
  rewrite <- Split_first_line.
  pose proof (Split_not_nil (trimOneTrailingNewline output) LF) as Hl.
  destruct (strings.Split (trimOneTrailingNewline output) LF) as [|l ls]; [congruence|].
  cbn [List.map List.hd]. symmetry. apply Split_first_field.
Qed.

(** C8, amended.  [DiskUsage] runs [du -sb] on the path and parses as an
    integer the field that the first line of the output that is not empty
    starts with, the bytes of that line before its first space or tab: a
    numeral that fits an [int64] is returned as its number and no error,
    so the output [12345<tab>/some/path] gives 12345; a field that is no
    numeral gives the [*strconv.NumError] of [ParseInt]; and when the
    command fails, its error comes back with zero.  On an output that
    does not start with a newline this field is the first field of the
    first row of the specification; the newlines an output starts with
    are skipped. *)
Theorem DiskUsage_spec (path : string) (h : Host) :
  (forall output,
     answer h (argv (duCommand path)) = (output, None) ->
     isNumeral (leadingField output) = true ->
     (- 2 ^ 63 <= numeralValue (leadingField output) < 2 ^ 63)%Z ->
     DiskUsage path h
     = Done (numeralValue (leadingField output), None) (ran h (argv (duCommand path))))
  /\ (answer h (argv (duCommand path)) = ("12345" ++ tab ++ "/some/path", None) ->
      DiskUsage path h = Done (12345%Z, None) (ran h (argv (duCommand path))))
  /\ (forall output,
       answer h (argv (duCommand path)) = (output, None) ->
       isNumeral (leadingField output) = false ->
       exists v e,
         DiskUsage path h
         = Done (v, Some (NumError "ParseInt" (leadingField output) e))
                (ran h (argv (duCommand path))))
  /\ (forall output e,
       answer h (argv (duCommand path)) = (output, Some e) ->
       DiskUsage path h = Done (0%Z, Some e) (ran h (argv (duCommand path))))
  /\ (forall output,
       head_not_in [LF] output -> leadingField output = specFirstField output).
Proof.
  repeat split.
  - intros output Hans Hnum Hfit. rewrite (DiskUsage_ok path output) by exact Hans.
    rewrite firstField_leadingField. now rewrite ParseInt_numeral.
  - intros Hans. now rewrite (DiskUsage_ok path _ h Hans).
  - intros output Hans Hnum. rewrite (DiskUsage_ok path output) by exact Hans.
    rewrite firstField_leadingField.
    destruct (ParseInt_not_numeral _ Hnum) as (v & e & ->). now exists v, e.
  - intros output e. apply DiskUsage_error.
  - apply leadingField_specFirstField.
Qed.

(** [du] printing a number, [du] printing a word, and [du] failing. *)
Lemma DiskUsage_spec_witness :
  DiskUsage "/mnt/snap" mountedSnapshot
  = Done (12345%Z, None) (ran mountedSnapshot (argv (duCommand "/mnt/snap")))
  /\ (exists v e,
        DiskUsage "/mnt/snap" duGarbled
        = Done (v, Some (NumError "ParseInt" "total" e))
               (ran duGarbled (argv (duCommand "/mnt/snap"))))
  /\ DiskUsage "/mnt/snap" notMounted
     = Done (0%Z, Some (ExecError "exit status 1"))
            (ran notMounted (argv (duCommand "/mnt/snap"))).
Proof.
  split; [|split].
  - apply (proj1 (DiskUsage_spec "/mnt/snap" mountedSnapshot)
                 ("12345" ++ tab ++ "/mnt/snap" ++ nl));
      [reflexivity | reflexivity | vm_compute; split; [discriminate | reflexivity]].
  - apply (proj1 (proj2 (proj2 (DiskUsage_spec "/mnt/snap" duGarbled)))
                 ("total 12345" ++ nl)); reflexivity.
  - apply (proj1 (proj2 (proj2 (proj2 (DiskUsage_spec "/mnt/snap" notMounted)))) "").
    reflexivity.
Defined.

(** C8, as stated, fails on an output that starts with a newline: the
    first row of the specification is the empty line, whose first field
    is no numeral, and [DiskUsage] returns the number of the line after
    it with no error. *)
Lemma DiskUsage_skips_leading_newlines :
  toLines (nl ++ "12345" ++ tab ++ "/some/path") = [""; "12345" ++ tab ++ "/some/path"]
  /\ specFirstField (nl ++ "12345" ++ tab ++ "/some/path") = ""
  /\ isNumeral (specFirstField (nl ++ "12345" ++ tab ++ "/some/path")) = false
  /\ DiskUsage "/some/path" duLeadingNewline
     = Done (12345%Z, None) (ran duLeadingNewline (argv (duCommand "/some/path"))).
Proof. repeat split; vm_compute; reflexivity. Qed.

(** * Mounts *)

(** The lookup failed: the mount that is not mounted, and no error. *)
Lemma GetMount_not_found (mountPoint output : string) (e : error) (h : Host) :
  answer h (argv (grepCommand mountPoint)) = (output, Some e) ->
  GetMount mountPoint h
  = Done (Mount.unmounted mountPoint, None) (ran h (argv (grepCommand mountPoint))).
Proof.
  intro Hans. unfold GetMount. fold (grepCommand mountPoint).
  run_command Hans. reflexivity.
Qed.

(** C3.  When the lookup of the mount point in the mount table fails
    (as [grep] does when it finds no row), [GetMount] returns a mount that
    is not mounted, with the path asked for, an empty device, volume path
    and file system and zero disk usage, and no error; only the lookup was
    run. *)
Theorem GetMount_lookup_failed (mountPoint output : string) (e : error) (h : Host) :
  answer h (argv (grepCommand mountPoint)) = (output, Some e) ->
  exists mount h',
    GetMount mountPoint h = Done (mount, None) h'
    /\ Mount.IsMounted mount = false
    /\ Mount.Path mount = mountPoint
    /\ Mount.Device mount = ""
    /\ Mount.LVPath mount = ""
    /\ Mount.FileSystem mount = ""
    /\ Mount.DiskUsage mount = 0%Z
    /\ executed h' = (executed h ++ [argv (grepCommand mountPoint)])%list.
Proof.
  intro Hans. exists (Mount.unmounted mountPoint), (ran h (argv (grepCommand mountPoint))).
  repeat split. exact (GetMount_not_found mountPoint output e h Hans).
Qed.

(** [grep] finds nothing for [/mnt/snap]. *)
Lemma GetMount_lookup_failed_witness :
  exists mount h',
    GetMount "/mnt/snap" notMounted = Done (mount, None) h'
    /\ Mount.IsMounted mount = false
    /\ Mount.Path mount = "/mnt/snap"
    /\ Mount.Device mount = ""
    /\ Mount.LVPath mount = ""
    /\ Mount.FileSystem mount = ""
    /\ Mount.DiskUsage mount = 0%Z
    /\ executed h' = (executed notMounted ++ [argv (grepCommand "/mnt/snap")])%list.
Proof.
  apply (GetMount_lookup_failed "/mnt/snap" "" (ExecError "exit status 1") notMounted).
  reflexivity.
Defined.

(** One row of the mount table: whatever [GetLogicalVolumePath] and
    [DiskUsage] report as their error, the row gives a mounted mount with
    the values they handed back. *)
Lemma GetMount_row_ok (mountPoint : string) (mount : Mount.t) (lineTokens : list string)
  (lvPath : string) (e1 e2 : option error) (diskUsage : Z) (h h1 h2 : Host) :
  3 <= List.length lineTokens ->
  GetLogicalVolumePath (nth 0 lineTokens "") h = Done (lvPath, e1) h1 ->
  DiskUsage mountPoint h1 = Done (diskUsage, e2) h2 ->
  GetMount_row mountPoint mount lineTokens h
  = Done {| Mount.Path := nth 1 lineTokens "";
            Mount.Device := nth 0 lineTokens "";
            Mount.LVPath := lvPath;
            Mount.FileSystem := nth 2 lineTokens "";
            Mount.IsMounted := true;
            Mount.DiskUsage := diskUsage |} h2.
Proof.
  intros Hlen Hlv Hdu.
  destruct lineTokens as [|t0 [|t1 [|t2 rest]]]; simpl in Hlen; try lia.
  unfold GetMount_row, bind, index. cbn [nth_error nth] in *.
  cbn [Mount.setIsMounted Mount.setDevice Mount.setPath Mount.setFileSystem Mount.Device].
  rewrite Hlv. cbn [Mount.setLVPath]. rewrite Hdu. reflexivity.
Qed.

(** On a host where [lvs] prints whole rows, looking up the volume of a
    device returns, with a path or with the error of the volume not
    found. *)
Lemma lvsWellFormed_ran (h : Host) (c : command) :
  lvsWellFormed h -> lvsWellFormed (ran h c).
Proof. intros Hw history volumeName output. apply Hw. Qed.

Lemma GetLogicalVolumePath_total (volumeName : string) (h : Host) :
  lvsWellFormed h ->
  exists r, GetLogicalVolumePath volumeName h = Done r (ran h (argv (lvsCommand volumeName))).
Proof.
  intro Hw. destruct (answer h (argv (lvsCommand volumeName))) as [output [e|]] eqn:Hans.
  - eexists. exact (GetLogicalVolumePath_not_found volumeName output e h Hans).
  - eexists. apply (GetLogicalVolumePath_found volumeName output h Hans).
    exact (Hw _ _ _ Hans).
Qed.

Lemma GetMount_row_total (mountPoint : string) (mount : Mount.t)
  (lineTokens : list string) (h : Host) :
  lvsWellFormed h -> 3 <= List.length lineTokens ->
  exists mount' h',
    GetMount_row mountPoint mount lineTokens h = Done mount' h'
    /\ Mount.IsMounted mount' = true
    /\ Mount.Device mount' = nth 0 lineTokens ""
    /\ Mount.Path mount' = nth 1 lineTokens ""
    /\ Mount.FileSystem mount' = nth 2 lineTokens ""
    /\ lvsWellFormed h'.
Proof.
  intros Hw Hlen.
  destruct (GetLogicalVolumePath_total (nth 0 lineTokens "") h Hw) as ([lvPath e1] & Hlv).
  destruct (DiskUsage_total mountPoint (ran h (argv (lvsCommand (nth 0 lineTokens "")))))
    as ([diskUsage e2] & Hdu).
  eexists _, _. split.
  - exact (GetMount_row_ok mountPoint mount lineTokens lvPath e1 e2 diskUsage _ _ _
                           Hlen Hlv Hdu).
  - repeat split. now do 2 apply lvsWellFormed_ran.
Qed.

Lemma GetMount_loop_total (mountPoint : string) (tokens : list (list string)) :
  Forall (fun row => 3 <= List.length row) tokens ->
  forall (mount : Mount.t) (h : Host),
    lvsWellFormed h ->
    exists mount' h',
      GetMount_loop mountPoint tokens mount h = Done mount' h'
      /\ (tokens <> [] -> Mount.IsMounted mount' = true)
      /\ (tokens = [] -> mount' = mount).
Proof.
  induction 1 as [|row tokens Hrow Hrows IH]; intros mount h Hw.
  - exists mount, h. repeat split; congruence.
  - cbn [GetMount_loop]. unfold bind.
    destruct (GetMount_row_total mountPoint mount row h Hw Hrow)
      as (m1 & h1 & -> & Hm & _ & _ & _ & Hw1).
    destruct (IH m1 h1 Hw1) as (m2 & h2 & -> & Hne & Hnil).
    exists m2, h2. repeat split; [|discriminate].
    intros _. destruct tokens; [now rewrite Hnil | apply Hne; discriminate].
Qed.

(** When the lookup finds rows of three tokens or more, on a host where
    [lvs] prints whole rows, [GetMount] returns a mounted mount and no
    error. *)
Lemma GetMount_returns (mountPoint output : string) (h : Host) :
  answer h (argv (grepCommand mountPoint)) = (output, None) ->
  Forall (fun row => 3 <= List.length row) (rows output) ->
  lvsWellFormed h ->
  exists mount h',
    GetMount mountPoint h = Done (mount, None) h' /\ Mount.IsMounted mount = true.
Proof.
  intros Hans Hrows Hw. unfold GetMount. fold (grepCommand mountPoint).
  run_command Hans. unfold rows in Hrows. rewrite outputTokens_ok in *. cbn [fst] in Hrows.
  destruct (GetMount_loop_total mountPoint _ Hrows (Mount.unmounted mountPoint)
              (ran h (argv (grepCommand mountPoint)))
              (lvsWellFormed_ran _ _ Hw)) as (m & h' & -> & Hne & _).
  exists m, h'. split; [reflexivity|]. apply Hne.
  pose proof (Split_not_nil (strings.Trim output [LF]) LF).
  destruct (strings.Split (strings.Trim output [LF]) LF); [congruence | discriminate].
Qed.

(** A host that answers by the name of the program prints whole rows
    when the answer it has for [lvs] does. *)
Lemma byProgram_lvsWellFormed (grep lvs du : string * option error) :
  (snd lvs = None -> Forall (fun row => 5 <= List.length row) (rows (fst lvs))) ->
  lvsWellFormed (byProgram grep lvs du).
Proof.
  intros Hlvs history volumeName output. unfold byProgram, scripted. cbn [respond].
  rewrite argv_lvs. cbn [String.eqb Ascii.eqb Bool.eqb]. cbn.
  destruct lvs as [out err]. intros [= -> ->]. now apply Hlvs.
Qed.

(** *** Rows that are too short *)

Lemma rows_not_nil (output : string) :
  rows output <> [] /\ Forall (fun row => row <> []) (rows output).
Proof. apply outputTokens_rows. Qed.

Lemma LogicalVolumes_short_panics (volumeName filterPattern output : string) (h : Host) :
  answer h (argv (lvsCommand volumeName)) = (output, None) ->
  Exists (fun row => List.length row < 5) (rows output) ->
  exists p, LogicalVolumes volumeName filterPattern h = Panic p.
Proof.
  intros Hans Hex. unfold LogicalVolumes. fold (lvsCommand volumeName). run_command Hans.
  rewrite outputTokens_ok.
  destruct (LogicalVolumes_loop_short filterPattern (rows output) []
              (ran h (argv (lvsCommand volumeName))) (proj2 (rows_not_nil output)) Hex)
    as (p & Hp).
  unfold rows in Hp. rewrite outputTokens_ok in Hp. cbn [fst] in Hp. rewrite Hp.
  now exists p.
Qed.

Lemma GetLogicalVolumePath_panics (volumeName : string) (h : Host) (p : panic) :
  LogicalVolumes volumeName "" h = Panic p -> GetLogicalVolumePath volumeName h = Panic p.
Proof. intro E. unfold GetLogicalVolumePath, bind. now rewrite E. Qed.

(** What [GetMount] returns comes with no error. *)
Lemma GetMount_error_nil (mountPoint : string) (h : Host)
  (mount : Mount.t) (err : option error) (h' : Host) :
  GetMount mountPoint h = Done (mount, err) h' -> err = None.
Proof.
  unfold GetMount, bind. rewrite commandOutput_spec.
  destruct (answer h _) as [output [e|]]; cbn [fst snd].
  - rewrite outputTokens_error. unfold ret. congruence.
  - rewrite outputTokens_ok.
    destruct (GetMount_loop mountPoint _ (Mount.unmounted mountPoint) _);
      unfold ret; congruence.
Qed.

(** C10 (the code against the claim).  Whatever [GetMount] returns
    comes with no error, but it does not return on every outcome of its
    commands: when [grep] succeeds, it panics on a first row of fewer
    than three tokens, and on a first row of three tokens or more it
    panics as soon as the [lvs] of the enrichment succeeds and prints
    nothing, on the [lineTokens[1]] of [LogicalVolumes]. *)
Theorem GetMount_panics (mountPoint output : string) (h : Host) :
  answer h (argv (grepCommand mountPoint)) = (output, None) ->
  (forall mount err h', GetMount mountPoint h = Done (mount, err) h' -> err = None)
  /\ (List.length (List.hd [] (rows output)) < 3 ->
      GetMount mountPoint h
      = Panic (IndexOutOfRange (List.length (List.hd [] (rows output)))
                               (List.length (List.hd [] (rows output)))))
  /\ (3 <= List.length (List.hd [] (rows output)) ->
      answer (ran h (argv (grepCommand mountPoint)))
             (argv (lvsCommand (nth 0 (List.hd [] (rows output)) ""))) = ("", None) ->
      GetMount mountPoint h = Panic (IndexOutOfRange 1 1)).
Proof.
  intros Hans. split; [apply GetMount_error_nil|].
  destruct (rows_not_nil output) as [Hne Hrows].
  unfold GetMount. fold (grepCommand mountPoint). run_command Hans.
  rewrite outputTokens_ok. unfold rows in *. rewrite outputTokens_ok in *. cbn [fst] in *.
  destruct (List.map (regexp.Split blanks) (strings.Split (strings.Trim output [LF]) LF))
    as [|row rest]; [congruence|].
  inversion Hrows as [|? ? Hrow _]; subst. cbn [List.hd GetMount_loop]. unfold bind.
  split.
  - intro Hshort. destruct row as [|t0 [|t1 [|t2 r]]]; cbn [List.length] in Hshort;
      [congruence | reflexivity | reflexivity | lia].
  - intros Hlong Hlvs. destruct row as [|t0 [|t1 [|t2 r]]]; cbn [List.length] in Hlong;
      try lia.
    unfold GetMount_row, bind, index. cbn [nth_error nth] in *.
    cbn [Mount.setIsMounted Mount.setDevice Mount.setPath Mount.setFileSystem Mount.Device].
    unfold GetLogicalVolumePath, bind at 1.
    unfold LogicalVolumes. fold (lvsCommand t0). run_command Hlvs. reflexivity.
Qed.

(** A row of the mount table for a device on which [lvs] prints nothing,
    as for a device that is no logical volume on a host where [lvs] exits
    with status zero; and the mount point [-c /], for which [grep] prints
    a count. *)
Lemma GetMount_panics_witness :
  GetMount "/mnt/snap" mountedSilentLvs = Panic (IndexOutOfRange 1 1)
  /\ GetMount "-c /" grepCount = Panic (IndexOutOfRange 1 1).
Proof.
  split.
  - apply (proj2 (proj2 (GetMount_panics "/mnt/snap"
             ("/dev/sdb1 /mnt/snap ext4 rw 0 0" ++ nl) mountedSilentLvs eq_refl)));
      [vm_compute; repeat constructor | reflexivity].
  - apply (proj1 (proj2 (GetMount_panics "-c /" ("12" ++ nl) grepCount eq_refl))).
    vm_compute. repeat constructor.
Defined.

(** A mounted path for which [lvs] and [du] both fail: the mount comes
    back, mounted, with an empty volume path, zero usage and no error. *)
Example GetMount_no_enrichment :
  GetMount "/mnt/snap" mountedNoEnrichment
  = Done ({| Mount.Path := "/mnt/snap"; Mount.Device := "/dev/sdb1"; Mount.LVPath := "";
             Mount.FileSystem := "ext4"; Mount.IsMounted := true; Mount.DiskUsage := 0 |},
          None)
         (ran (ran (ran mountedNoEnrichment (argv (grepCommand "/mnt/snap")))
                   (argv (lvsCommand "/dev/sdb1")))
              (argv (duCommand "/mnt/snap"))).
Proof. vm_compute. reflexivity. Qed.

Example GetMount_snapshot :
  GetMount "/mnt/snap" mountedSnapshot
  = Done ({| Mount.Path := "/mnt/snap"; Mount.Device := "/dev/vg0/snap1";
             Mount.LVPath := "/dev/vg0/snap1"; Mount.FileSystem := "ext4";
             Mount.IsMounted := true; Mount.DiskUsage := 12345 |}, None)
         (ran (ran (ran mountedSnapshot (argv (grepCommand "/mnt/snap")))
                   (argv (lvsCommand "/dev/vg0/snap1")))
              (argv (duCommand "/mnt/snap"))).
Proof. vm_compute. reflexivity. Qed.

(** C7.  With an empty volume name, [MountLV] returns at once: the mount
    that is not mounted, for the path asked for, and the error of the
    empty name; the host is untouched, so no command was run. *)
Theorem MountLV_empty_volume_name (mountPoint : string) (h : Host) :
  exists mount h',
    MountLV mountPoint "" h
    = Done (mount, Some (ErrorString "Empty columeName in MountLV")) h'
    /\ Mount.IsMounted mount = false
    /\ Mount.Path mount = mountPoint
    /\ mount = Mount.unmounted mountPoint
    /\ h' = h
    /\ executed h' = executed h.
Proof. exists (Mount.unmounted mountPoint), h. repeat split. Qed.

(** When the [mount] command fails, its error comes back with the mount
    that is not mounted, and the mount table is not looked up. *)
Lemma MountLV_command_failed (mountPoint volumeName output : string) (e : error) (h : Host) :
  volumeName <> "" ->
  answer h (argv (mountCommand volumeName mountPoint)) = (output, Some e) ->
  MountLV mountPoint volumeName h
  = Done (Mount.unmounted mountPoint, Some e)
         (ran h (argv (mountCommand volumeName mountPoint))).
Proof.
  intros Hne Hans. unfold MountLV.
  destruct (String.eqb_spec volumeName ""); [contradiction|].
  fold (mountCommand volumeName mountPoint). run_command Hans. reflexivity.
Qed.

(** When it succeeds, where the mount stands is read from the mount
    table. *)
Lemma MountLV_command_ok (mountPoint volumeName output : string) (h : Host) :
  volumeName <> "" ->
  answer h (argv (mountCommand volumeName mountPoint)) = (output, None) ->
  MountLV mountPoint volumeName h
  = GetMount mountPoint (ran h (argv (mountCommand volumeName mountPoint))).
Proof.
  intros Hne Hans. unfold MountLV.
  destruct (String.eqb_spec volumeName ""); [contradiction|].
  fold (mountCommand volumeName mountPoint). run_command Hans. reflexivity.
Qed.

Lemma Unmount_command_failed (mountPoint output : string) (e : error) (h : Host) :
  answer h (argv (umountCommand mountPoint)) = (output, Some e) ->
  Unmount mountPoint h
  = Done (Mount.unmounted mountPoint, Some e) (ran h (argv (umountCommand mountPoint))).
Proof.
  intros Hans. unfold Unmount. fold (umountCommand mountPoint).
  run_command Hans. reflexivity.
Qed.

(** * The MySQL service *)

(** C9.  [MySQLRunning] runs the configured status command and returns
    no error whatever it answers: [true] with no error when the command
    exits with status zero, [false] with no error when it does not. *)
Theorem MySQLRunning_spec (Config : config.Configuration) (h : Host) :
  exists running,
    MySQLRunning Config h
    = Done (running, None) (ran h (argv (config.MySQLServiceStatusCommand Config)))
    /\ (snd (answer h (argv (config.MySQLServiceStatusCommand Config))) = None ->
        running = true)
    /\ (forall e, snd (answer h (argv (config.MySQLServiceStatusCommand Config))) = Some e ->
        running = false).
Proof.
  unfold MySQLRunning, bind. rewrite commandOutput_spec.
  destruct (answer h _) as [output [e|]]; cbn [fst snd]; eexists;
    (split; [reflexivity|]); split; try discriminate; reflexivity.
Qed.

(** The status command exiting with zero, and with three. *)
Lemma MySQLRunning_spec_witness :
  MySQLRunning exampleConfig silent
  = Done (true, None) (ran silent ("service", ["mysql"; "status"]))
  /\ MySQLRunning exampleConfig mysqlStopped
     = Done (false, None) (ran mysqlStopped ("service", ["mysql"; "status"])).
Proof.
  split.
  - destruct (MySQLRunning_spec exampleConfig silent) as (running & E & Hup & _).
    rewrite E, Hup; reflexivity.
  - destruct (MySQLRunning_spec exampleConfig mysqlStopped) as (running & E & _ & Hdown).
    rewrite E, (Hdown (ExecError "exit status 3")); reflexivity.
Defined.

(** * Further properties of the package *)

(** ** The command line *)

Lemma trimLeftSpace_blank (s : string) : blank s -> strings.trimLeftSpace s = "".
Proof.
  unfold blank. induction s as [|c s IH]; [reflexivity|].
  cbn [has_char strings.trimLeftSpace].
  destruct (strings.isSpace1 c); cbn [negb]; [exact IH | discriminate].
Qed.

(** A command line that is empty or made of white space only names the
    program with the empty name and no argument; [commandSplit] does not
    panic on it, though it reads [tokens[0]]. *)
Theorem commandSplit_blank (commandText : string) (h : Host) :
  blank commandText ->
  commandSplit commandText h = Done ("", []) h
  /\ commandOutput commandText h
     = Done (match snd (answer h ("", [])) with
             | Some e => ("", Some e)
             | None => (fst (answer h ("", [])), None)
             end) (ran h ("", [])).
Proof.
  intro Hb.
  assert (E : argv commandText = ("", [])).
  { unfold argv, strings.TrimSpace. now rewrite trimLeftSpace_blank. }
  split.
  - now rewrite commandSplit_argv, E.
  - now rewrite commandOutput_spec, E.
Qed.

Lemma commandSplit_blank_witness :
  commandSplit (" " ++ tab ++ " ") silent = Done ("", []) silent.
Proof. apply (commandSplit_blank (" " ++ tab ++ " ") silent). reflexivity. Defined.

(** ** Rows of tokens *)

(** [outputTokens] hands an error on without parsing.  Without one, it
    gives a row for every line, at least one; every row has a token, no
    token holds a byte of the delimiter class, and the tokens of a row
    put end to end are its line without the delimiter bytes. *)
Theorem outputTokens_spec (re : regexp.Regexp) (output : string) :
  (forall e, outputTokens re output (Some e) = ([], Some e))
  /\ exists tokens,
       outputTokens re output None = (tokens, None)
       /\ List.length tokens = List.length (fst (outputLines output None))
       /\ tokens <> []
       /\ Forall (fun row => row <> [] /\ Forall (class_free re) row) tokens
       /\ List.map (String.concat "") tokens
          = List.map (drop_class re) (fst (outputLines output None)).
Proof.
  split; [reflexivity|]. eexists. split; [apply outputTokens_ok|].
  cbn [outputLines fst]. repeat split.
  - apply length_map.
  - pose proof (Split_not_nil (strings.Trim output [LF]) LF).
    destruct (strings.Split (strings.Trim output [LF]) LF); [congruence | discriminate].
  - apply Forall_map, Forall_forall. intros l _. split.
    + apply regexp_Split_not_nil.
    + apply Split_class_free.
  - rewrite map_map. apply map_ext. intro l. apply Split_concat.
Qed.

(** ** Listing the volumes, again *)

Lemma Forall_or_Exists_short (n : nat) (tokens : list (list string)) :
  Forall (fun row => n <= List.length row) tokens
  \/ Exists (fun row => List.length row < n) tokens.
Proof.
  induction tokens as [|row tokens [IH|IH]].
  - left. constructor.
  - destruct (Nat.lt_ge_cases (List.length row) n).
    + right. now constructor.
    + left. now constructor.
  - right. now constructor 2.
Qed.

(** With the output of [lvs] in hand, [LogicalVolumes] panics exactly
    when some row has fewer than five tokens, whatever the pattern and
    whether the name of that row contains it or not; when [lvs] fails it
    never panics. *)
Theorem LogicalVolumes_panics_iff (volumeName filterPattern : string) (h : Host) :
  (forall output,
     answer h (argv (lvsCommand volumeName)) = (output, None) ->
     ((exists p, LogicalVolumes volumeName filterPattern h = Panic p)
      <-> Exists (fun row => List.length row < 5) (rows output)))
  /\ (forall output e,
       answer h (argv (lvsCommand volumeName)) = (output, Some e) ->
       LogicalVolumes volumeName filterPattern h
       = Done ([], Some e) (ran h (argv (lvsCommand volumeName)))).
Proof.
  split; [|intros output e; apply LogicalVolumes_error].
  intros output Hans. split.
  - intros (p & Hp). destruct (Forall_or_Exists_short 5 (rows output)) as [Hall|Hex];
      [|exact Hex].
    rewrite (LogicalVolumes_returns _ _ output h Hans Hall) in Hp. discriminate.
  - apply LogicalVolumes_short_panics. exact Hans.
Qed.

(** A row of four tokens: [lvs] printed no blank after the path. *)
Lemma LogicalVolumes_panics_iff_witness :
  exists p, LogicalVolumes "" "snap" (lvsHost lvsCutRow) = Panic p.
Proof.
  apply (proj1 (LogicalVolumes_panics_iff "" "snap" (lvsHost lvsCutRow)) lvsCutRow).
  - reflexivity.
  - vm_compute. constructor. repeat constructor.
Defined.

(** When [lvs] succeeds and every row has its five tokens,
    [LogicalVolumes] returns, in the order of the rows, the volumes of
    exactly those rows whose second token contains the pattern as a
    substring: never more volumes than rows, and all of them for the
    empty pattern. *)
Theorem LogicalVolumes_selects (volumeName filterPattern output : string) (h : Host) :
  answer h (argv (lvsCommand volumeName)) = (output, None) ->
  Forall (fun row => 5 <= List.length row) (rows output) ->
  exists logicalVolumes,
    LogicalVolumes volumeName filterPattern h
    = Done (logicalVolumes, None) (ran h (argv (lvsCommand volumeName)))
    /\ logicalVolumes
       = List.filter (nameContains filterPattern) (List.map volumeOfTokens (rows output))
    /\ (forall lv,
         In lv logicalVolumes
         <-> exists row a b,
               In row (rows output) /\ lv = volumeOfTokens row
               /\ nth 1 row "" = a ++ filterPattern ++ b)
    /\ List.length logicalVolumes <= List.length (rows output)
    /\ (filterPattern = "" -> logicalVolumes = List.map volumeOfTokens (rows output)).
Proof.
  intros Hans Hrows. eexists.
  split; [exact (LogicalVolumes_returns _ _ output h Hans Hrows)|].
  split; [reflexivity|]. repeat split.
  - intro Hin. apply filter_In in Hin. destruct Hin as [Hin Hc].
    apply in_map_iff in Hin. destruct Hin as (row & <- & Hin).
    apply Contains_spec in Hc. destruct Hc as (a & b & E). now exists row, a, b.
  - intros (row & a & b & Hin & -> & E). apply filter_In. split.
    + now apply in_map.
    + apply Contains_spec. now exists a, b.
  - rewrite <- (length_map volumeOfTokens). apply filter_length_le.
  - intros ->. apply forallb_filter_id, forallb_forall. intros lv _. apply Contains_empty.
Qed.

Lemma LogicalVolumes_selects_witness :
  exists logicalVolumes,
    LogicalVolumes "" "snap" (lvsHost lvsTwoVolumes)
    = Done (logicalVolumes, None) (ran (lvsHost lvsTwoVolumes) (argv (lvsCommand "")))
    /\ logicalVolumes
       = List.filter (nameContains "snap") (List.map volumeOfTokens (rows lvsTwoVolumes))
    /\ (forall lv,
         In lv logicalVolumes
         <-> exists row a b,
               In row (rows lvsTwoVolumes) /\ lv = volumeOfTokens row
               /\ nth 1 row "" = a ++ "snap" ++ b)
    /\ List.length logicalVolumes <= List.length (rows lvsTwoVolumes)
    /\ ("snap" = "" -> logicalVolumes = List.map volumeOfTokens (rows lvsTwoVolumes)).
Proof.
  apply (LogicalVolumes_selects "" "snap" lvsTwoVolumes (lvsHost lvsTwoVolumes)).
  - reflexivity.
  - vm_compute. repeat constructor.
Defined.

(** ** The path of a volume *)

(** Whenever [GetLogicalVolumePath] returns, it returns a path and no
    error, or no path and the error of the volume not found.  The error
    comes exactly when [lvs] fails, and the error of [lvs] itself is never
    handed on; the path is the fourth token of the first row [lvs] prints,
    whatever rows follow. *)
Theorem GetLogicalVolumePath_spec (volumeName : string) (h : Host)
  (path : string) (err : option error) (h' : Host) :
  GetLogicalVolumePath volumeName h = Done (path, err) h' ->
  h' = ran h (argv (lvsCommand volumeName))
  /\ ((err = None
       /\ snd (answer h (argv (lvsCommand volumeName))) = None
       /\ path = nth 3 (List.hd [] (rows (fst (answer h (argv (lvsCommand volumeName)))))) "")
      \/ (err = Some (ErrorString ("logical volume not found: " ++ volumeName))
          /\ path = ""
          /\ snd (answer h (argv (lvsCommand volumeName))) <> None)).
Proof.
  destruct (answer h (argv (lvsCommand volumeName))) as [output [e|]] eqn:Hans; cbn [fst snd].
  - rewrite (GetLogicalVolumePath_not_found volumeName output e h Hans).
    intros [= <- <- <-]. split; [reflexivity | right]. repeat split. discriminate.
  - destruct (Forall_or_Exists_short 5 (rows output)) as [Hall|Hex].
    + rewrite (GetLogicalVolumePath_found volumeName output h Hans Hall).
      intros [= <- <- <-]. split; [reflexivity | left]. repeat split.
    + destruct (LogicalVolumes_short_panics volumeName "" output h Hans Hex) as (p & Hp). rewrite (GetLogicalVolumePath_panics _ _ _ Hp). discriminate.
Qed.

(** The volume behind the device of [mountedSnapshot]. *)
Lemma GetLogicalVolumePath_spec_witness :
  ran mountedSnapshot (argv (lvsCommand "/dev/vg0/snap1"))
  = ran mountedSnapshot (argv (lvsCommand "/dev/vg0/snap1"))
  /\ ((@None error = None
       /\ snd (answer mountedSnapshot (argv (lvsCommand "/dev/vg0/snap1"))) = None
       /\ "/dev/vg0/snap1"
          = nth 3 (List.hd [] (rows (fst (answer mountedSnapshot
                                           (argv (lvsCommand "/dev/vg0/snap1")))))) "")
      \/ (None = Some (ErrorString ("logical volume not found: " ++ "/dev/vg0/snap1"))
          /\ "/dev/vg0/snap1" = ""
          /\ snd (answer mountedSnapshot (argv (lvsCommand "/dev/vg0/snap1"))) <> None)).
Proof.
  apply (GetLogicalVolumePath_spec "/dev/vg0/snap1" mountedSnapshot).
  vm_compute. reflexivity.
Defined.

(** ** Mounting and unmounting *)

(** With a volume name, whenever [MountLV] returns, its error is the
    error of the [mount] command and nothing else: what the mount table
    shows afterwards never makes an error.  When [mount] fails, the mount
    table is not looked up ([mount] is all that ran) and the mount that
    comes back is the one not mounted; when it succeeds, [MountLV] is
    [GetMount] on the host after it. *)
Theorem MountLV_error_is_mount_error (mountPoint volumeName : string) (h : Host)
  (mount : Mount.t) (err : option error) (h' : Host) :
  volumeName <> "" ->
  MountLV mountPoint volumeName h = Done (mount, err) h' ->
  err = snd (answer h (argv (mountCommand volumeName mountPoint)))
  /\ (err <> None ->
      mount = Mount.unmounted mountPoint
      /\ h' = ran h (argv (mountCommand volumeName mountPoint)))
  /\ (err = None ->
      GetMount mountPoint (ran h (argv (mountCommand volumeName mountPoint)))
      = Done (mount, None) h').
Proof.
  intros Hne. destruct (answer h (argv (mountCommand volumeName mountPoint)))
    as [output [e|]] eqn:Hans; cbn [snd].
  - rewrite (MountLV_command_failed mountPoint volumeName output e h Hne Hans).
    intros [= <- <- <-]. repeat split. discriminate.
  - rewrite (MountLV_command_ok mountPoint volumeName output h Hne Hans). intro E.
    pose proof (GetMount_error_nil _ _ _ _ _ E) as ->. repeat split; congruence.
Qed.

(** [mount] refuses the volume. *)
Lemma MountLV_error_is_mount_error_witness :
  Some (ExecError "exit status 127")
  = snd (answer notMounted (argv (mountCommand "/dev/vg0/snap1" "/mnt/snap")))
  /\ (Some (ExecError "exit status 127") <> None ->
      Mount.unmounted "/mnt/snap" = Mount.unmounted "/mnt/snap"
      /\ ran notMounted (argv (mountCommand "/dev/vg0/snap1" "/mnt/snap"))
         = ran notMounted (argv (mountCommand "/dev/vg0/snap1" "/mnt/snap")))
  /\ (Some (ExecError "exit status 127") = None ->
      GetMount "/mnt/snap" (ran notMounted (argv (mountCommand "/dev/vg0/snap1" "/mnt/snap")))
      = Done (Mount.unmounted "/mnt/snap", None)
             (ran notMounted (argv (mountCommand "/dev/vg0/snap1" "/mnt/snap")))).
Proof.
  apply (MountLV_error_is_mount_error "/mnt/snap" "/dev/vg0/snap1" notMounted).
  - discriminate.
  - vm_compute. reflexivity.
Defined.

Lemma Unmount_command_ok (mountPoint output : string) (h : Host) :
  answer h (argv (umountCommand mountPoint)) = (output, None) ->
  Unmount mountPoint h = GetMount mountPoint (ran h (argv (umountCommand mountPoint))).
Proof.
  intros Hans. unfold Unmount. fold (umountCommand mountPoint).
  run_command Hans. reflexivity.
Qed.

(** Whenever [Unmount] returns, its error is the error of the [umount]
    command and nothing else.  When [umount] fails, the mount table is not
    looked up and the mount that comes back is the one not mounted; when
    it succeeds, [Unmount] is [GetMount] on the host after it, so a path
    the mount table still shows comes back mounted, with no error. *)
Theorem Unmount_error_is_umount_error (mountPoint : string) (h : Host)
  (mount : Mount.t) (err : option error) (h' : Host) :
  Unmount mountPoint h = Done (mount, err) h' ->
  err = snd (answer h (argv (umountCommand mountPoint)))
  /\ (err <> None ->
      mount = Mount.unmounted mountPoint
      /\ h' = ran h (argv (umountCommand mountPoint)))
  /\ (err = None ->
      GetMount mountPoint (ran h (argv (umountCommand mountPoint)))
      = Done (mount, None) h').
Proof.
  destruct (answer h (argv (umountCommand mountPoint))) as [output [e|]] eqn:Hans; cbn [snd].
  - rewrite (Unmount_command_failed mountPoint output e h Hans).
    intros [= <- <- <-]. repeat split. discriminate.
  - rewrite (Unmount_command_ok mountPoint output h Hans). intro E.
    pose proof (GetMount_error_nil _ _ _ _ _ E) as ->. repeat split; congruence.
Qed.

(** [umount] succeeds, and the mount table still shows the path. *)
Lemma Unmount_error_is_umount_error_witness :
  None = snd (answer (succeeding "umount" mountedNoEnrichment) (argv (umountCommand "/mnt/snap")))
  /\ (@None error <> None ->
      {| Mount.Path := "/mnt/snap"; Mount.Device := "/dev/sdb1"; Mount.LVPath := "";
         Mount.FileSystem := "ext4"; Mount.IsMounted := true; Mount.DiskUsage := 0 |}
      = Mount.unmounted "/mnt/snap"
      /\ ranAll (succeeding "umount" mountedNoEnrichment)
                (argv (umountCommand "/mnt/snap") :: argv (grepCommand "/mnt/snap")
                 :: enrichment "/mnt/snap" ["/dev/sdb1"])
         = ran (succeeding "umount" mountedNoEnrichment) (argv (umountCommand "/mnt/snap")))
  /\ (@None error = None ->
      GetMount "/mnt/snap"
        (ran (succeeding "umount" mountedNoEnrichment) (argv (umountCommand "/mnt/snap")))
      = Done ({| Mount.Path := "/mnt/snap"; Mount.Device := "/dev/sdb1"; Mount.LVPath := "";
                 Mount.FileSystem := "ext4"; Mount.IsMounted := true;
                 Mount.DiskUsage := 0 |}, None)
             (ranAll (succeeding "umount" mountedNoEnrichment)
                (argv (umountCommand "/mnt/snap") :: argv (grepCommand "/mnt/snap")
                 :: enrichment "/mnt/snap" ["/dev/sdb1"]))).
Proof.
  apply (Unmount_error_is_umount_error "/mnt/snap" (succeeding "umount" mountedNoEnrichment)).
  vm_compute. reflexivity.
Defined.

(** ** The snapshot hosts *)

Lemma trimLeft_all_in (cutset : list ascii) (s : string) :
  all_in cutset s -> strings.trimLeft cutset s = "".
Proof.
  unfold all_in. induction s as [|c r IH]; [reflexivity|].
  cbn [has_char strings.trimLeft]. destruct (mem_ascii c cutset); cbn [negb orb].
  - exact IH.
  - discriminate.
Qed.

Lemma Trim_all_in (cutset : list ascii) (s : string) :
  all_in cutset s -> strings.Trim s cutset = "".
Proof.
  intro H. unfold strings.Trim. rewrite (trimLeft_all_in _ _ H). reflexivity.
Qed.

(** [AvailableSnapshots] runs the command of the configuration the flag
    asks for, the local one or the other, and nothing else.  When the
    command fails it returns its error and no host.  When it succeeds it
    returns no error and at least one host: the lines between the
    newlines of the output with the newlines at both ends cut off, none of
    them holding a newline; an output that is empty or made of newlines
    alone gives the single host of the empty name. *)
Theorem AvailableSnapshots_spec (Config : config.Configuration) (requireLocal : bool)
  (h : Host) :
  (forall output e,
     answer h (argv (snapshotsCommand Config requireLocal)) = (output, Some e) ->
     AvailableSnapshots Config requireLocal h
     = Done ([], Some e) (ran h (argv (snapshotsCommand Config requireLocal))))
  /\ (forall output,
       answer h (argv (snapshotsCommand Config requireLocal)) = (output, None) ->
       exists hosts,
         AvailableSnapshots Config requireLocal h
         = Done (hosts, None) (ran h (argv (snapshotsCommand Config requireLocal)))
         /\ hosts <> []
         /\ Forall (fun host => has_char (Ascii.eqb LF) host = false) hosts
         /\ String.concat nl hosts = strings.Trim output [LF]
         /\ (all_in [LF] output -> hosts = [""])).
Proof.
  split.
  - intros output e Hans. unfold AvailableSnapshots. fold (snapshotsCommand Config requireLocal).
    run_command Hans. reflexivity.
  - intros output Hans. exists (strings.Split (strings.Trim output [LF]) LF).
    split; [|split; [|split; [|split]]].
    + unfold AvailableSnapshots. fold (snapshotsCommand Config requireLocal).
      run_command Hans. reflexivity.
    + apply Split_not_nil.
    + apply Split_no_sep.
    + apply Split_join.
    + intro Hall. rewrite (Trim_all_in _ _ Hall). reflexivity.
Qed.

(** ** Measuring a directory, again *)

Local Open Scope Z_scope.

Lemma parseUintLoop_overflow (s : string) :
  allDigits s = true ->
  forall n, 0 <= n < 2 ^ 64 -> 2 ^ 64 <= digitsValue s n ->
  strconv.parseUintLoop 10 (strconv.maxUint64 / 10 + 1) strconv.maxUint64 s n
  = (strconv.maxUint64, Some strconv.ErrRange).
Proof.
  change (strconv.maxUint64 / 10 + 1) with 1844674407370955162.
  change strconv.maxUint64 with 18446744073709551615.
  change (2 ^ 64) with 18446744073709551616.
  induction s as [|c r IH]; intros Hd n Hn Hv.
  - cbn [digitsValue] in Hv. lia.
  - cbn [allDigits] in Hd. apply andb_true_iff in Hd. destruct Hd as [Hc Hr].
    cbn [strconv.parseUintLoop digitsValue] in *.
    destruct (isDigit_digitVal c Hc) as (E & Hlo & Hhi). rewrite E.
    set (d := Z.of_N (byte c) - 48) in *.
    destruct (Z.leb_spec 10 d); [lia|].
    destruct (Z.leb_spec 1844674407370955162 n); [reflexivity|].
    change (2 ^ 64) with 18446744073709551616.
    rewrite (Z.mod_small (n * 10)) by lia.
    destruct (Z.lt_ge_cases (n * 10 + d) 18446744073709551616) as [Hs|Hb].
    + rewrite (Z.mod_small (n * 10 + d)) by lia.
      destruct (Z.ltb_spec (n * 10 + d) (n * 10)); [lia|].
      destruct (Z.ltb_spec 18446744073709551615 (n * 10 + d)); [lia|].
      cbn [orb]. apply IH; [exact Hr | lia | exact Hv].
    + replace ((n * 10 + d) mod 18446744073709551616)
        with (n * 10 + d - 18446744073709551616)
        by (apply Z.mod_unique with 1; lia).
      destruct (Z.ltb_spec (n * 10 + d - 18446744073709551616) (n * 10)); [|lia].
      reflexivity.
Qed.

(** The unsigned part of a numeral, as [ParseUint] reads it: its number,
    or the largest [uint64] when the number is beyond. *)
Lemma ParseUint_digits (s : string) :
  s <> "" -> allDigits s = true ->
  strconv.ParseUint s 10 64
  = if digitsValue s 0 <? 2 ^ 64 then (digitsValue s 0, None)
    else (strconv.maxUint64, Some strconv.ErrRange).
Proof.
  intros Hne Hd. rewrite ParseUint_64 by exact Hne.
  destruct (Z.ltb_spec (digitsValue s 0) (2 ^ 64)).
  - apply parseUintLoop_digits; [exact Hd | lia | assumption].
  - apply parseUintLoop_overflow; [exact Hd | | assumption].
    change (2 ^ 64) with 18446744073709551616. lia.
Qed.

(** [ParseInt] on a numeral: the nearest [int64] to its number, and
    [ErrRange] when that is another number. *)
Lemma ParseInt_numeral_clamps (s : string) :
  isNumeral s = true ->
  strconv.ParseInt s 10 0
  = (clampInt64 (numeralValue s),
     if isInt64 (numeralValue s) then None else Some strconv.ErrRange).
Proof.
  destruct s as [|c r]; [discriminate|]. intros Hn.
  unfold strconv.ParseInt. change (if 0 =? 0 then strconv.IntSize else 0) with 64.
  unfold clampInt64, isInt64, minInt64, maxInt64.
  change (2 ^ (64 - 1)) with 9223372036854775808.
  change (2 ^ 63) with 9223372036854775808.
  unfold isNumeral, numeralValue in *.
  assert (Hcases :
    forall (neg : bool) (s' : string),
      s' <> "" -> allDigits s' = true ->
      match strconv.ParseUint s' 10 64 with
      | (_, Some strconv.ErrSyntax) => (0, Some strconv.ErrSyntax)
      | (un, _) =>
          if negb neg && (9223372036854775808 <=? un)
          then (9223372036854775808 - 1, Some strconv.ErrRange)
          else if neg && (9223372036854775808 <? un)
          then (- 9223372036854775808, Some strconv.ErrRange)
          else (if neg then - un else un, None)
      end
      = (Z.max (- 9223372036854775808)
               (Z.min (9223372036854775808 - 1)
                      (if neg then - digitsValue s' 0 else digitsValue s' 0)),
         if (- 9223372036854775808 <=? (if neg then - digitsValue s' 0 else digitsValue s' 0))
            && ((if neg then - digitsValue s' 0 else digitsValue s' 0)
                <=? 9223372036854775808 - 1)
         then None else Some strconv.ErrRange)).
  { intros neg s' Hne Hd. rewrite (ParseUint_digits s' Hne Hd).
    pose proof (digitsValue_ge s' Hd 0 ltac:(lia)) as Hge.
    change (2 ^ 64) with 18446744073709551616.
    change strconv.maxUint64 with 18446744073709551615.
    destruct (Z.ltb_spec (digitsValue s' 0) 18446744073709551616) as [Hs|Hb];
      destruct neg; cbn [negb andb];
      repeat match goal with
             | |- context [Z.leb ?a ?b] => destruct (Z.leb_spec a b)
             | |- context [Z.ltb ?a ?b] => destruct (Z.ltb_spec a b)
             end; cbn [andb]; try lia; f_equal; lia. }
  destruct (Ascii.eqb_spec c "-") as [->|Hminus].
  - cbn [Ascii.eqb Bool.eqb orb andb] in *.
    apply andb_true_iff in Hn. destruct Hn as [Hne Hd].
    assert (r <> "") by (destruct r; discriminate).
    exact (Hcases true r ltac:(assumption) Hd).
  - destruct (Ascii.eqb_spec c "+") as [->|Hplus].
    + cbn [Ascii.eqb Bool.eqb orb andb] in *.
      apply andb_true_iff in Hn. destruct Hn as [Hne Hd].
      assert (r <> "") by (destruct r; discriminate).
      exact (Hcases false r ltac:(assumption) Hd).
    + cbn [orb] in *. exact (Hcases false (String c r) ltac:(discriminate) Hn).
Qed.

(** On a string that is no numeral, the number that comes with the error
    is zero or an end of the [int64] range. *)
Lemma ParseInt_not_numeral_value (s : string) :
  isNumeral s = false ->
  exists v e, strconv.ParseInt s 10 0 = (v, Some e) /\ isInt64 v = true.
Proof.
  destruct s as [|c r]; [now eexists _, _|]. intro Hn.
  unfold strconv.ParseInt. change (if 0 =? 0 then strconv.IntSize else 0) with 64.
  set (neg := Ascii.eqb c "-"). set (s' := if Ascii.eqb c "+" || neg then r else String c r).
  assert (Hs' : s' = "" \/ (s' <> "" /\ allDigits s' = false)).
  { unfold s', isNumeral in *. fold neg in Hn.
    destruct (Ascii.eqb c "+" || neg).
    - destruct r; [left; reflexivity | right]. split; [discriminate|].
      exact Hn.
    - right. split; [discriminate | exact Hn]. }
  destruct Hs' as [-> | [Hne Hd]]; [now eexists _, _|].
  rewrite ParseUint_64 by exact Hne.
  destruct (parseUintLoop_not_digits (strconv.maxUint64 / 10 + 1) strconv.maxUint64 s' Hd 0)
    as (v & e & E).
  rewrite E. destruct e; [now eexists _, _|].
  apply parseUintLoop_range in E. subst v.
  destruct neg; cbn [negb andb]; change (2 ^ (64 - 1) <=? strconv.maxUint64) with true;
    change (2 ^ (64 - 1) <? strconv.maxUint64) with true; cbn [andb]; now eexists _, _.
Qed.

Lemma clampInt64_isInt64 (n : Z) : isInt64 (clampInt64 n) = true.
Proof.
  unfold isInt64, clampInt64, minInt64, maxInt64.
  change (2 ^ 63) with 9223372036854775808.
  apply andb_true_iff. split; apply Z.leb_le; lia.
Qed.

(** When [du] prints a numeral, [DiskUsage] returns the nearest [int64]
    to its number: a number beyond the range comes back as the end of the
    range on its side, never wrapped around, and it is then, and only
    then, that an error comes with it, the range error of [ParseInt]. *)
Theorem DiskUsage_clamps (path output : string) (h : Host) :
  answer h (argv (duCommand path)) = (output, None) ->
  isNumeral (firstField output) = true ->
  DiskUsage path h
  = Done (clampInt64 (numeralValue (firstField output)),
          if isInt64 (numeralValue (firstField output)) then None
          else Some (NumError "ParseInt" (firstField output) strconv.ErrRange))
         (ran h (argv (duCommand path))).
Proof.
  intros Hans Hnum. rewrite (DiskUsage_ok path output h Hans).
  rewrite (ParseInt_numeral_clamps _ Hnum). cbn [fst snd].
  destruct (isInt64 _); reflexivity.
Qed.

(** Twenty nines. *)
Lemma DiskUsage_clamps_witness :
  DiskUsage "/mnt/snap" duHuge
  = Done (9223372036854775807,
          Some (NumError "ParseInt" "99999999999999999999" strconv.ErrRange))
         (ran duHuge (argv (duCommand "/mnt/snap"))).
Proof.
  apply (DiskUsage_clamps "/mnt/snap" ("99999999999999999999" ++ tab ++ "/mnt/snap" ++ nl)
           duHuge); reflexivity.
Defined.

Lemma DiskUsage_cases (path : string) (h : Host) :
  exists n err,
    DiskUsage path h = Done (n, err) (ran h (argv (duCommand path)))
    /\ isInt64 n = true
    /\ (err = None
        <-> snd (answer h (argv (duCommand path))) = None
            /\ isNumeral (firstField (fst (answer h (argv (duCommand path))))) = true
            /\ isInt64 (numeralValue (firstField (fst (answer h (argv (duCommand path))))))
               = true)
    /\ (err = None
        -> n = numeralValue (firstField (fst (answer h (argv (duCommand path)))))).
Proof.
  destruct (answer h (argv (duCommand path))) as [output [e|]] eqn:Hans; cbn [fst snd].
  - exists 0, (Some e). split; [exact (DiskUsage_error path output e h Hans)|].
    split; [reflexivity|].
    split; [split; [discriminate | intros (H & _); discriminate] | discriminate].
  - destruct (isNumeral (firstField output)) eqn:Hnum.
    + exists (clampInt64 (numeralValue (firstField output))),
             (if isInt64 (numeralValue (firstField output)) then None
              else Some (NumError "ParseInt" (firstField output) strconv.ErrRange)).
      split.
      { rewrite (DiskUsage_ok path output h Hans).
        rewrite (ParseInt_numeral_clamps _ Hnum). cbn [fst snd].
        destruct (isInt64 _); reflexivity. }
      split; [apply clampInt64_isInt64|].
      destruct (isInt64 (numeralValue (firstField output))) eqn:Hfit.
      * split; [split; intros; repeat split|]. intros _.
        unfold isInt64 in Hfit. apply andb_true_iff in Hfit. destruct Hfit as [Hlo Hhi].
        apply Z.leb_le in Hlo, Hhi. unfold clampInt64. lia.
      * split; [split; [discriminate | intros (_ & _ & H); discriminate] | discriminate].
    + destruct (ParseInt_not_numeral_value _ Hnum) as (v & e & E & Hv).
      exists v, (Some (NumError "ParseInt" (firstField output) e)).
      split; [|split; [exact Hv|]].
      * rewrite (DiskUsage_ok path output h Hans). rewrite E. reflexivity.
      * split; [split; [discriminate | intros (_ & H & _); discriminate] | discriminate].
Qed.

(** [DiskUsage] never panics and runs [du] and nothing else; the number
    it returns is an [int64] whatever [du] prints; and it returns no error
    exactly when [du] succeeds and the first field of its first row is a
    numeral of a number in the range. *)
Theorem DiskUsage_error_iff (path : string) (h : Host) :
  exists n err,
    DiskUsage path h = Done (n, err) (ran h (argv (duCommand path)))
    /\ isInt64 n = true
    /\ (err = None
        <-> snd (answer h (argv (duCommand path))) = None
            /\ isNumeral (firstField (fst (answer h (argv (duCommand path))))) = true
            /\ isInt64 (numeralValue (firstField (fst (answer h (argv (duCommand path))))))
               = true).
Proof.
  destruct (DiskUsage_cases path h) as (n & err & E & Hn & Herr & _).
  now exists n, err.
Qed.

Local Close Scope Z_scope.

(** ** The rows of the mount table *)

Lemma ran_ranAll (h : Host) (c : command) : ran h c = ranAll h [c].
Proof. reflexivity. Qed.

Lemma ranAll_ranAll (h : Host) (cs ds : list command) :
  ranAll (ranAll h cs) ds = ranAll h (cs ++ ds).
Proof. unfold ranAll. cbn [executed respond]. now rewrite <- app_assoc. Qed.

Lemma ranAll_nil (h : Host) : ranAll h [] = h.
Proof. destruct h. unfold ranAll. cbn [executed respond]. now rewrite app_nil_r. Qed.

Lemma lvsWellFormed_ranAll (h : Host) (cs : list command) :
  lvsWellFormed h -> lvsWellFormed (ranAll h cs).
Proof. intros Hw history volumeName output. apply Hw. Qed.

(** One row: the two commands run, and the mount is made of the row and
    of what they found. *)
Lemma GetMount_row_runs (mountPoint : string) (mount : Mount.t)
  (lineTokens : list string) (h : Host) :
  lvsWellFormed h -> 3 <= List.length lineTokens ->
  exists lvPath e1 diskUsage e2,
    GetLogicalVolumePath (nth 0 lineTokens "") h
    = Done (lvPath, e1) (ran h (argv (lvsCommand (nth 0 lineTokens ""))))
    /\ DiskUsage mountPoint (ran h (argv (lvsCommand (nth 0 lineTokens ""))))
       = Done (diskUsage, e2) (ranAll h (enrichment mountPoint lineTokens))
    /\ GetMount_row mountPoint mount lineTokens h
       = Done (mountOfRow lineTokens lvPath diskUsage)
              (ranAll h (enrichment mountPoint lineTokens)).
Proof.
  intros Hw Hlen.
  destruct (GetLogicalVolumePath_total (nth 0 lineTokens "") h Hw) as ([lvPath e1] & Hlv).
  destruct (DiskUsage_total mountPoint (ran h (argv (lvsCommand (nth 0 lineTokens "")))))
    as ([diskUsage e2] & Hdu).
  assert (Eh : ran (ran h (argv (lvsCommand (nth 0 lineTokens ""))))
                   (argv (duCommand mountPoint))
               = ranAll h (enrichment mountPoint lineTokens)).
  { rewrite !ran_ranAll, ranAll_ranAll. reflexivity. }
  rewrite Eh in Hdu.
  exists lvPath, e1, diskUsage, e2. split; [exact Hlv|]. split; [exact Hdu|].
  exact (GetMount_row_ok mountPoint mount lineTokens lvPath e1 e2 diskUsage _ _ _
                         Hlen Hlv Hdu).
Qed.

Lemma GetMount_loop_runs (mountPoint : string) (tokens : list (list string)) :
  Forall (fun row => 3 <= List.length row) tokens ->
  forall (mount : Mount.t) (h : Host),
    lvsWellFormed h ->
    exists mount',
      GetMount_loop mountPoint tokens mount h
      = Done mount' (ranAll h (flat_map (enrichment mountPoint) tokens))
      /\ (tokens = [] -> mount' = mount)
      /\ (tokens <> [] ->
          exists lvPath e1 diskUsage e2,
            GetLogicalVolumePath (nth 0 (List.last tokens []) "")
              (ranAll h (flat_map (enrichment mountPoint) (removelast tokens)))
            = Done (lvPath, e1)
                   (ran (ranAll h (flat_map (enrichment mountPoint) (removelast tokens)))
                        (argv (lvsCommand (nth 0 (List.last tokens []) ""))))
            /\ DiskUsage mountPoint
                 (ran (ranAll h (flat_map (enrichment mountPoint) (removelast tokens)))
                      (argv (lvsCommand (nth 0 (List.last tokens []) ""))))
               = Done (diskUsage, e2) (ranAll h (flat_map (enrichment mountPoint) tokens))
            /\ mount' = mountOfRow (List.last tokens []) lvPath diskUsage).
Proof.
  induction 1 as [|row tokens Hrow Hrows IH]; intros mount h Hw.
  - exists mount. cbn [GetMount_loop flat_map]. rewrite ranAll_nil.
    repeat split; congruence.
  - cbn [GetMount_loop]. unfold bind.
    destruct (GetMount_row_runs mountPoint mount row h Hw Hrow)
      as (lvPath & e1 & diskUsage & e2 & Hlv & Hdu & ->).
    destruct (IH (mountOfRow row lvPath diskUsage) (ranAll h (enrichment mountPoint row))
                 (lvsWellFormed_ranAll _ _ Hw))
      as (m2 & E & Hnil & Hne).
    rewrite ranAll_ranAll in E. exists m2. split; [exact E|]. split; [discriminate|].
    intros _. destruct tokens as [|row2 tokens].
    + rewrite (Hnil eq_refl). cbn [List.last removelast flat_map]. rewrite ranAll_nil.
      exists lvPath, e1, diskUsage, e2. cbn [flat_map]. rewrite app_nil_r.
      repeat split; assumption.
    + destruct (Hne ltac:(discriminate)) as (lvPath' & e1' & diskUsage' & e2' & Hlv' & Hdu' & ->).
      repeat rewrite ranAll_ranAll in Hlv'. repeat rewrite ranAll_ranAll in Hdu'.
      exists lvPath', e1', diskUsage', e2'.
      change (List.last (row :: row2 :: tokens) []) with (List.last (row2 :: tokens) []).
      change (removelast (row :: row2 :: tokens)) with (row :: removelast (row2 :: tokens)).
      cbn [flat_map] in *. repeat split; assumption.
Qed.

(** When [grep] finds rows of three tokens or more in the mount table, on
    a host where [lvs] prints whole rows, [GetMount] runs, after [grep],
    [lvs] on the device and [du] on the mount point once for every row, in
    the order of the rows, and returns the mount of the last row alone:
    its device, its path, which need not be the path asked for, and its
    file system, with the volume path and the disk usage found on the last
    round.  The earlier rows leave no trace but the commands run for
    them. *)
Theorem GetMount_last_row (mountPoint output : string) (h : Host) :
  answer h (argv (grepCommand mountPoint)) = (output, None) ->
  Forall (fun row => 3 <= List.length row) (rows output) ->
  lvsWellFormed h ->
  exists lvPath e1 diskUsage e2,
    GetMount mountPoint h
    = Done (mountOfRow (List.last (rows output) []) lvPath diskUsage, None)
           (ranAll h (argv (grepCommand mountPoint)
                      :: flat_map (enrichment mountPoint) (rows output)))
    /\ GetLogicalVolumePath (nth 0 (List.last (rows output) []) "")
         (ranAll h (argv (grepCommand mountPoint)
                    :: flat_map (enrichment mountPoint) (removelast (rows output))))
       = Done (lvPath, e1)
              (ran (ranAll h (argv (grepCommand mountPoint)
                              :: flat_map (enrichment mountPoint) (removelast (rows output))))
                   (argv (lvsCommand (nth 0 (List.last (rows output) []) ""))))
    /\ DiskUsage mountPoint
         (ran (ranAll h (argv (grepCommand mountPoint)
                         :: flat_map (enrichment mountPoint) (removelast (rows output))))
              (argv (lvsCommand (nth 0 (List.last (rows output) []) ""))))
       = Done (diskUsage, e2)
              (ranAll h (argv (grepCommand mountPoint)
                         :: flat_map (enrichment mountPoint) (rows output))).
Proof.
  intros Hans Hrows Hw.
  destruct (GetMount_loop_runs mountPoint (rows output) Hrows (Mount.unmounted mountPoint)
              (ran h (argv (grepCommand mountPoint))) (lvsWellFormed_ran _ _ Hw))
    as (mount & E & _ & Hne).
  destruct (Hne (proj1 (rows_not_nil output)))
    as (lvPath & e1 & diskUsage & e2 & Hlv & Hdu & ->).
  rewrite (ran_ranAll h (argv (grepCommand mountPoint))) in E, Hlv, Hdu.
  repeat rewrite ranAll_ranAll in E. repeat rewrite ranAll_ranAll in Hlv.
  repeat rewrite ranAll_ranAll in Hdu. cbn [app] in *.
  exists lvPath, e1, diskUsage, e2. split; [|split; assumption].
  unfold GetMount. fold (grepCommand mountPoint). run_command Hans.
  rewrite outputTokens_ok. fold (rows output) in *.
  unfold rows in E |- *. rewrite outputTokens_ok in E |- *. cbn [fst] in E |- *.
  rewrite ran_ranAll. rewrite E. reflexivity.
Qed.

(** Asked for [/mnt/snap], the mount of [/mnt/snap2] comes back. *)
Example GetMount_nearby :
  GetMount "/mnt/snap" mountedNearby
  = Done ({| Mount.Path := "/mnt/snap2"; Mount.Device := "/dev/sdc1";
             Mount.LVPath := ""; Mount.FileSystem := "xfs";
             Mount.IsMounted := true; Mount.DiskUsage := 777 |}, None)
         (ranAll mountedNearby
            [argv (grepCommand "/mnt/snap");
             argv (lvsCommand "/dev/sdb1"); argv (duCommand "/mnt/snap");
             argv (lvsCommand "/dev/sdc1"); argv (duCommand "/mnt/snap")]).
Proof. vm_compute. reflexivity. Qed.

Lemma GetMount_last_row_witness :
  exists lvPath e1 diskUsage e2,
    GetMount "/mnt/snap" mountedNearby
    = Done (mountOfRow (List.last (rows mtabNearby) []) lvPath diskUsage, None)
           (ranAll mountedNearby
              (argv (grepCommand "/mnt/snap")
               :: flat_map (enrichment "/mnt/snap") (rows mtabNearby)))
    /\ GetLogicalVolumePath (nth 0 (List.last (rows mtabNearby) []) "")
         (ranAll mountedNearby
            (argv (grepCommand "/mnt/snap")
             :: flat_map (enrichment "/mnt/snap") (removelast (rows mtabNearby))))
       = Done (lvPath, e1)
              (ran (ranAll mountedNearby
                      (argv (grepCommand "/mnt/snap")
                       :: flat_map (enrichment "/mnt/snap") (removelast (rows mtabNearby))))
                   (argv (lvsCommand (nth 0 (List.last (rows mtabNearby) []) ""))))
    /\ DiskUsage "/mnt/snap"
         (ran (ranAll mountedNearby
                 (argv (grepCommand "/mnt/snap")
                  :: flat_map (enrichment "/mnt/snap") (removelast (rows mtabNearby))))
              (argv (lvsCommand (nth 0 (List.last (rows mtabNearby) []) ""))))
       = Done (diskUsage, e2)
              (ranAll mountedNearby
                 (argv (grepCommand "/mnt/snap")
                  :: flat_map (enrichment "/mnt/snap") (rows mtabNearby))).
Proof.
  apply (GetMount_last_row "/mnt/snap" mtabNearby mountedNearby).
  - reflexivity.
  - vm_compute. repeat constructor.
  - apply byProgram_lvsWellFormed. discriminate.
Defined.

(** ** The HTTP interface *)

Lemma validateToken_ok (hash token : string) :
  token = hash -> http.validateToken hash token = None.
Proof. intros ->. unfold http.validateToken. now rewrite String.eqb_refl. Qed.

Lemma validateToken_invalid (hash token : string) :
  token <> hash -> http.validateToken hash token = Some (ErrorString "Invalid token").
Proof.
  intro Hne. unfold http.validateToken.
  destruct (String.eqb_spec token hash); [contradiction | reflexivity].
Qed.

Ltac routes H :=
  cbn [In http.RegisterRequests] in H;
  repeat (destruct H as [H|H]; [injection H as <- <- | ]); [..| contradiction].

Ltac handlers :=
  unfold http.ListLogicalVolumes, http.ListSnapshotsLogicalVolumes, http.LogicalVolume,
    http.GetMount, http.MountLV, http.Unmount, http.DiskUsage,
    http.AvailableLocalSnapshots, http.AvailableSnapshots, http.MySQLRunning,
    http.MySQLStop, http.MySQLStart.

(** Every route [RegisterRequests] registers, [/api/hostname] apart,
    checks the token before anything else: a request whose [token]
    parameter is not the token of the process, or that has none while the
    process has one, is answered with status 500 and the error response of
    the message [Invalid token], and no command runs on the host. *)
Theorem RegisterRequests_checks_token (Quote : string -> string)
  (Config : config.Configuration) (hash : string) (os_Hostname : string * option string)
  (route : string) (handler : http.Params -> http.Request -> M http.Response)
  (params : http.Params) (req : http.Request) (h : Host) :
  In (route, handler) (http.RegisterRequests Quote Config hash os_Hostname) ->
  route <> "/api/hostname" ->
  http.Get (http.Query req) "token" <> hash ->
  handler params req h
  = Done (500%Z, http.Pointer {| http.Code := http.ERROR;
                                 http.Message := "Invalid token";
                                 http.Details := None |}) h.
Proof.
  intros Hin Hroute Htoken. pose proof (validateToken_invalid _ _ Htoken) as Hv.
  routes Hin; try contradiction; handlers; rewrite Hv; reflexivity.
Qed.

(** A guess at the token, on the route that stops MySQL. *)
Lemma RegisterRequests_checks_token_witness :
  http.MySQLStop (fun s => s) exampleConfig "s3cret" []
    {| http.Query := [("token", ["guess"])] |} silent
  = Done (500%Z, http.Pointer {| http.Code := http.ERROR;
                                 http.Message := "Invalid token";
                                 http.Details := None |}) silent.
Proof.
  apply (RegisterRequests_checks_token (fun s => s) exampleConfig "s3cret" ("db1", None)
           "/api/mysql-stop").
  - cbn [In http.RegisterRequests]. do 13 right. left. reflexivity.
  - discriminate.
  - discriminate.
Defined.

(** What [encoding/json] refuses in a list of volumes is a snapshot
    percent that is NaN or infinite, and the message names it. *)
Lemma Marshal_volumes_message (l : list LogicalVolume.t) (msg : string) :
  http.Marshal_volumes l = Some msg ->
  exists str,
    msg = "json: unsupported value: " ++ str /\ In str ["NaN"; "+Inf"; "-Inf"]
    /\ Exists (fun lv => isNaNOrInf (LogicalVolume.SnapshotPercent lv) = true) l.
Proof.
  induction l as [|lv l IH]; [discriminate|]. cbn [http.Marshal_volumes].
  unfold http.unsupportedValue, isNaNOrInf.
  destruct (PrimFloat.is_nan (LogicalVolume.SnapshotPercent lv)) eqn:Enan.
  { intros [= <-]. exists "NaN". cbn [In]. repeat split; auto.
    constructor. now rewrite Enan. }
  destruct (LogicalVolume.SnapshotPercent lv =? infinity)%float eqn:Einf.
  { intros [= <-]. exists "+Inf". cbn [In]. repeat split; auto.
    constructor. now rewrite Enan, Einf. }
  destruct (LogicalVolume.SnapshotPercent lv =? neg_infinity)%float eqn:Eneg.
  { intros [= <-]. exists "-Inf". cbn [In]. repeat split; auto.
    constructor. now rewrite Enan, Einf, Eneg. }
  intro E. destruct (IH E) as (str & -> & Hin & Hex). exists str.
  repeat split; auto.
Qed.

Lemma Marshal_volumes_none (l : list LogicalVolume.t) :
  Forall (fun lv => isNaNOrInf (LogicalVolume.SnapshotPercent lv) = false) l ->
  http.Marshal_volumes l = None.
Proof.
  induction 1 as [|lv l Hlv Hl IH]; [reflexivity|]. cbn [http.Marshal_volumes].
  unfold http.unsupportedValue. unfold isNaNOrInf in Hlv.
  apply orb_false_iff in Hlv. destruct Hlv as [Hlv ->].
  apply orb_false_iff in Hlv. destruct Hlv as [-> ->]. exact IH.
Qed.

(** What the renderer sends for a list of volumes. *)
Lemma JSON_volumes (status : Z) (l : list LogicalVolume.t) (h : Host) :
  http.JSON status (http.Value (http.OfLogicalVolumes l)) h
  = Done (match http.Marshal_volumes l with
          | Some msg => (500%Z, http.PlainText (msg ++ nl))
          | None => (status, http.Value (http.OfLogicalVolumes l))
          end) h.
Proof.
  unfold http.JSON. cbn [http.Marshal_error http.Marshal_value].
  destruct (http.Marshal_volumes l); reflexivity.
Qed.

Ltac sent :=
  unfold http.JSON; cbn [http.Marshal_error http.Marshal_value http.Details]; unfold ret.

(** Whatever a route of [RegisterRequests] answers, it answers in one
    of three ways: with status 200 and a plain value that
    [encoding/json] encodes; with status 500 and an [APIResponse] of the
    code [ERROR] and no details; or, on the five routes that list logical
    volumes and on no other, with status 500 and the line of plain text
    in which [encoding/json] refuses a snapshot percent that is NaN or
    infinite.  No other status is sent, and the code [OK] never is. *)
Theorem RegisterRequests_status (Quote : string -> string)
  (Config : config.Configuration) (hash : string) (os_Hostname : string * option string)
  (route : string) (handler : http.Params -> http.Request -> M http.Response)
  (params : http.Params) (req : http.Request) (h h' : Host)
  (status : Z) (v : http.rendered) :
  In (route, handler) (http.RegisterRequests Quote Config hash os_Hostname) ->
  handler params req h = Done (status, v) h' ->
  (status = 200%Z /\ exists x, v = http.Value x /\ http.Marshal_value x = None)
  \/ (status = 500%Z
      /\ exists msg, v = http.Pointer {| http.Code := http.ERROR;
                                         http.Message := msg;
                                         http.Details := None |})
  \/ (status = 500%Z
      /\ (exists str,
            v = http.PlainText ("json: unsupported value: " ++ str ++ nl)
            /\ In str ["NaN"; "+Inf"; "-Inf"])
      /\ In route ["/api/lvs"; "/api/lvs/:pattern"; "/api/lvs-snapshots";
                   "/api/lv"; "/api/lv/:lv"]).
Proof.
  intros Hin.
  routes Hin; handlers; unfold http.Hostname;
    try (destruct (http.validateToken hash _);
         [sent; intros [= <- <- <-]; right; left; eauto|]);
    unfold bind.
  1: { destruct os_Hostname as [hostname [msg|]]; sent; intros [= <- <- <-]; eauto. }
  all: match goal with
       | |- match ?X with _ => _ end = _ -> _ =>
           destruct X as [[output [err|]] h1|p] || destruct X as [[err|] h1|p]
       end; try discriminate;
       try rewrite JSON_volumes;
       try match goal with
           | |- context [http.Marshal_volumes ?l] =>
               let E := fresh "E" in
               destruct (http.Marshal_volumes l) as [msg|] eqn:E;
               [destruct (Marshal_volumes_message _ _ E) as (str & -> & Hstr & _)|]
           end;
       sent; intros [= <- <- <-];
       first [ left; split; [reflexivity|]; eexists; split; [reflexivity|];
               first [reflexivity | assumption]
             | right; left; split; [reflexivity|]; eexists; reflexivity
             | right; right; split; [reflexivity|]; split;
               [exists str; split; [reflexivity | assumption] | cbn [In]; tauto] ].
Qed.

(** The mount of [mountedSnapshot], asked for with the token. *)
Lemma RegisterRequests_status_witness :
  (200%Z = 200%Z
   /\ exists x,
        http.Value (http.OfMount
          {| Mount.Path := "/mnt/snap"; Mount.Device := "/dev/vg0/snap1";
             Mount.LVPath := "/dev/vg0/snap1"; Mount.FileSystem := "ext4";
             Mount.IsMounted := true; Mount.DiskUsage := 12345 |})
        = http.Value x
        /\ http.Marshal_value x = None)
  \/ (200%Z = 500%Z
      /\ exists msg,
           http.Value (http.OfMount
             {| Mount.Path := "/mnt/snap"; Mount.Device := "/dev/vg0/snap1";
                Mount.LVPath := "/dev/vg0/snap1"; Mount.FileSystem := "ext4";
                Mount.IsMounted := true; Mount.DiskUsage := 12345 |})
           = http.Pointer {| http.Code := http.ERROR;
                             http.Message := msg;
                             http.Details := None |})
  \/ (200%Z = 500%Z
      /\ (exists str,
            http.Value (http.OfMount
              {| Mount.Path := "/mnt/snap"; Mount.Device := "/dev/vg0/snap1";
                 Mount.LVPath := "/dev/vg0/snap1"; Mount.FileSystem := "ext4";
                 Mount.IsMounted := true; Mount.DiskUsage := 12345 |})
            = http.PlainText ("json: unsupported value: " ++ str ++ nl)
            /\ In str ["NaN"; "+Inf"; "-Inf"])
      /\ In "/api/mount" ["/api/lvs"; "/api/lvs/:pattern"; "/api/lvs-snapshots";
                          "/api/lv"; "/api/lv/:lv"]).
Proof.
  apply (RegisterRequests_status (fun s => s) exampleConfig "s3cret" ("db1", None)
           "/api/mount" (http.GetMount (fun s => s) exampleConfig "s3cret") []
           {| http.Query := [("token", ["s3cret"])] |} mountedSnapshot
           (ranAll mountedSnapshot
              [argv (grepCommand "/mnt/snap"); argv (lvsCommand "/dev/vg0/snap1");
               argv (duCommand "/mnt/snap")])).
  - cbn [In http.RegisterRequests]. do 6 right. left. reflexivity.
  - vm_compute. reflexivity.
Defined.

(** A volume whose percent is beyond every [float32] on the route of the
    volumes: the renderer sends the refusal of [encoding/json]. *)
Example ListLogicalVolumes_infinite_percent :
  http.ListLogicalVolumes (fun s => s) "s3cret" []
    {| http.Query := [("token", ["s3cret"])] |} (lvsHost lvsHugePercent)
  = Done (500%Z, http.PlainText ("json: unsupported value: +Inf" ++ nl))
         (ran (lvsHost lvsHugePercent) (argv (lvsCommand ""))).
Proof. vm_compute. reflexivity. Qed.

(** With the token, the route of the mount never answers an error:
    whenever it answers, the status is 200 and the value is the mount
    [GetMount] returns for the configured mount point, mounted or not. *)
Theorem GetMount_handler_never_fails (Quote : string -> string)
  (Config : config.Configuration) (hash : string)
  (params : http.Params) (req : http.Request) (h h' : Host)
  (status : Z) (v : http.rendered) :
  http.Get (http.Query req) "token" = hash ->
  http.GetMount Quote Config hash params req h = Done (status, v) h' ->
  status = 200%Z
  /\ exists mount,
       v = http.Value (http.OfMount mount)
       /\ GetMount (config.SnapshotMountPoint Config) h = Done (mount, None) h'.
Proof.
  intros Htoken. unfold http.GetMount. rewrite (validateToken_ok _ _ Htoken).
  unfold bind.
  destruct (GetMount (config.SnapshotMountPoint Config) h) as [[mount err] h1|p] eqn:E;
    [|discriminate].
  pose proof (GetMount_error_nil _ _ _ _ _ E) as ->.
  sent. intros [= <- <- <-]. split; [reflexivity|]. now exists mount.
Qed.

(** Nothing is mounted: status 200 all the same. *)
Lemma GetMount_handler_never_fails_witness :
  200%Z = 200%Z
  /\ exists mount,
       http.Value (http.OfMount (Mount.unmounted "/mnt/snap"))
       = http.Value (http.OfMount mount)
       /\ GetMount (config.SnapshotMountPoint exampleConfig) notMounted
          = Done (mount, None) (ran notMounted (argv (grepCommand "/mnt/snap"))).
Proof.
  apply (GetMount_handler_never_fails (fun s => s) exampleConfig "s3cret" []
           {| http.Query := [("token", ["s3cret"])] |} notMounted).
  - reflexivity.
  - vm_compute. reflexivity.
Defined.

(** With the token, the route of the MySQL status always answers, with
    status 200: [true] when the status command exits with status zero,
    [false] when it does not, be it that it could not be run at all. *)
Theorem MySQLRunning_handler_always_200 (Quote : string -> string)
  (Config : config.Configuration) (hash : string)
  (params : http.Params) (req : http.Request) (h : Host) :
  http.Get (http.Query req) "token" = hash ->
  http.MySQLRunning Quote Config hash params req h
  = Done (200%Z,
          http.Value (http.OfBool
            (isNil (snd (answer h (argv (config.MySQLServiceStatusCommand Config)))))))
         (ran h (argv (config.MySQLServiceStatusCommand Config))).
Proof.
  intros Htoken. unfold http.MySQLRunning. rewrite (validateToken_ok _ _ Htoken).
  unfold MySQLRunning, bind. rewrite commandOutput_spec.
  destruct (answer h _) as [output [e|]]; reflexivity.
Qed.

Lemma MySQLRunning_handler_always_200_witness :
  http.MySQLRunning (fun s => s) exampleConfig "s3cret" []
    {| http.Query := [("token", ["s3cret"])] |} mysqlStopped
  = Done (200%Z,
          http.Value (http.OfBool
            (isNil (snd (answer mysqlStopped
                           (argv (config.MySQLServiceStatusCommand exampleConfig)))))))
         (ran mysqlStopped (argv (config.MySQLServiceStatusCommand exampleConfig))).
Proof.
  apply (MySQLRunning_handler_always_200 (fun s => s) exampleConfig "s3cret"). reflexivity.
Defined.

(** With the token, the routes that stop and start MySQL run the
    configured command and nothing else, and answer by its exit: status
    200 and [true] when it succeeds, status 500 and the message of its
    error when it fails.  The value [false] is never sent. *)
Theorem MySQLStop_MySQLStart_handlers (Quote : string -> string)
  (Config : config.Configuration) (hash : string)
  (params : http.Params) (req : http.Request) (h : Host) :
  http.Get (http.Query req) "token" = hash ->
  http.MySQLStop Quote Config hash params req h
  = Done (match snd (answer h (argv (config.MySQLServiceStopCommand Config))) with
          | None => (200%Z, http.Value (http.OfBool true))
          | Some e => (500%Z, http.Pointer {| http.Code := http.ERROR;
                                              http.Message := http.Error Quote e;
                                              http.Details := None |})
          end)
         (ran h (argv (config.MySQLServiceStopCommand Config)))
  /\ http.MySQLStart Quote Config hash params req h
     = Done (match snd (answer h (argv (config.MySQLServiceStartCommand Config))) with
             | None => (200%Z, http.Value (http.OfBool true))
             | Some e => (500%Z, http.Pointer {| http.Code := http.ERROR;
                                                 http.Message := http.Error Quote e;
                                                 http.Details := None |})
             end)
            (ran h (argv (config.MySQLServiceStartCommand Config))).
Proof.
  intros Htoken. unfold http.MySQLStop, http.MySQLStart.
  rewrite (validateToken_ok _ _ Htoken).
  unfold MySQLStop, MySQLStart, bind. rewrite !commandOutput_spec.
  split; destruct (answer h _) as [output [e|]]; reflexivity.
Qed.

(** The service command fails with status three. *)
Lemma MySQLStop_MySQLStart_handlers_witness :
  http.MySQLStop (fun s => s) exampleConfig "s3cret" []
    {| http.Query := [("token", ["s3cret"])] |} mysqlStopped
  = Done (match snd (answer mysqlStopped
                       (argv (config.MySQLServiceStopCommand exampleConfig))) with
          | None => (200%Z, http.Value (http.OfBool true))
          | Some e => (500%Z, http.Pointer {| http.Code := http.ERROR;
                                              http.Message := http.Error (fun s => s) e;
                                              http.Details := None |})
          end)
         (ran mysqlStopped (argv (config.MySQLServiceStopCommand exampleConfig)))
  /\ http.MySQLStart (fun s => s) exampleConfig "s3cret" []
       {| http.Query := [("token", ["s3cret"])] |} mysqlStopped
     = Done (match snd (answer mysqlStopped
                          (argv (config.MySQLServiceStartCommand exampleConfig))) with
             | None => (200%Z, http.Value (http.OfBool true))
             | Some e => (500%Z, http.Pointer {| http.Code := http.ERROR;
                                                 http.Message := http.Error (fun s => s) e;
                                                 http.Details := None |})
             end)
            (ran mysqlStopped (argv (config.MySQLServiceStartCommand exampleConfig))).
Proof.
  apply (MySQLStop_MySQLStart_handlers (fun s => s) exampleConfig "s3cret"). reflexivity.
Defined.

Lemma LogicalVolumes_host (volumeName filterPattern : string) (h h' : Host)
  (logicalVolumes : list LogicalVolume.t) (err : option error) :
  LogicalVolumes volumeName filterPattern h = Done (logicalVolumes, err) h' ->
  h' = ran h (argv (lvsCommand volumeName)).
Proof.
  destruct (answer h (argv (lvsCommand volumeName))) as [output [e|]] eqn:Hans.
  - rewrite (LogicalVolumes_error _ _ output e h Hans). now intros [= _ _ <-].
  - destruct (Forall_or_Exists_short 5 (rows output)) as [Hall|Hex].
    + rewrite (LogicalVolumes_returns _ _ output h Hans Hall). now intros [= _ _ <-].
    + destruct (LogicalVolumes_short_panics _ filterPattern output h Hans Hex) as (p & ->).
      discriminate.
Qed.

(** The volume of the routes [/api/lv] and [/api/mountlv] is the [lv]
    of the path when there is one, whatever the query holds, and the
    [lv] of the query otherwise; it is this volume that reaches the
    commands.  With the token, [/api/mountlv] answers what [MountLV]
    returns for the configured mount point and this volume: when [mount]
    of this volume on the mount point fails, status 500 with its message
    after that one command; with no volume at all, status 500 and the
    message of the empty name without a command run.  [/api/lv] answers
    what [LogicalVolumes] returns for this volume and the empty pattern,
    after [lvs] on this volume and nothing else, and with no volume at all
    it answers as [/api/lvs] does without a pattern.  A panic of the
    operation is the panic of the handler. *)
Theorem lv_of_path_or_query (Quote : string -> string)
  (Config : config.Configuration) (hash : string)
  (params : http.Params) (req : http.Request) (h : Host) (lv : string) :
  http.Get (http.Query req) "token" = hash ->
  (http.lookup params "lv" <> "" /\ lv = http.lookup params "lv")
  \/ (http.lookup params "lv" = "" /\ lv = http.Get (http.Query req) "lv") ->
  (forall mount err h',
     MountLV (config.SnapshotMountPoint Config) lv h = Done (mount, err) h' ->
     http.MountLV Quote Config hash params req h
     = Done (match err with
             | None => (200%Z, http.Value (http.OfMount mount))
             | Some e => (500%Z, http.Pointer {| http.Code := http.ERROR;
                                                 http.Message := http.Error Quote e;
                                                 http.Details := None |})
             end) h')
  /\ (forall p,
       MountLV (config.SnapshotMountPoint Config) lv h = Panic p ->
       http.MountLV Quote Config hash params req h = Panic p)
  /\ (lv <> "" ->
      forall output e,
        answer h (argv (mountCommand lv (config.SnapshotMountPoint Config)))
        = (output, Some e) ->
        http.MountLV Quote Config hash params req h
        = Done (500%Z, http.Pointer {| http.Code := http.ERROR;
                                       http.Message := http.Error Quote e;
                                       http.Details := None |})
               (ran h (argv (mountCommand lv (config.SnapshotMountPoint Config)))))
  /\ (lv = "" ->
      http.MountLV Quote Config hash params req h
      = Done (500%Z, http.Pointer {| http.Code := http.ERROR;
                                     http.Message := "Empty columeName in MountLV";
                                     http.Details := None |}) h)
  /\ (forall logicalVolumes err h',
       LogicalVolumes lv "" h = Done (logicalVolumes, err) h' ->
       h' = ran h (argv (lvsCommand lv))
       /\ http.LogicalVolume Quote hash params req h
          = Done (match err with
                  | Some e => (500%Z, http.Pointer {| http.Code := http.ERROR;
                                                      http.Message := http.Error Quote e;
                                                      http.Details := None |})
                  | None =>
                      match http.Marshal_volumes logicalVolumes with
                      | Some msg => (500%Z, http.PlainText (msg ++ nl))
                      | None => (200%Z, http.Value (http.OfLogicalVolumes logicalVolumes))
                      end
                  end) h')
  /\ (forall p,
       LogicalVolumes lv "" h = Panic p ->
       http.LogicalVolume Quote hash params req h = Panic p)
  /\ (lv = "" ->
      http.LogicalVolume Quote hash params req h
      = http.ListLogicalVolumes Quote hash [] req h).
Proof.
  intros Htoken Hlv.
  assert (Elv : (if String.eqb (http.lookup params "lv") ""
                 then http.Get (http.Query req) "lv"
                 else http.lookup params "lv") = lv).
  { destruct Hlv as [[Hne ->] | [-> ->]]; [|reflexivity].
    destruct (String.eqb_spec (http.lookup params "lv") ""); [contradiction | reflexivity]. }
  unfold http.MountLV, http.LogicalVolume, http.ListLogicalVolumes.
  rewrite (validateToken_ok _ _ Htoken). rewrite Elv. unfold bind.
  repeat split.
  - intros mount err h' ->. destruct err; reflexivity.
  - intros p ->. reflexivity.
  - intros Hne output e Hans.
    rewrite (MountLV_command_failed _ lv output e h Hne Hans). reflexivity.
  - intros ->. reflexivity.
  - exact (LogicalVolumes_host _ _ _ _ _ _ H).
  - rewrite H. destruct err; [reflexivity|]. apply JSON_volumes.
  - intros p ->. reflexivity.
  - intros ->. reflexivity.
Qed.

(** A volume in the path and another in the query, on a host where
    [mount] is refused: it is the volume of the path that [mount] was
    asked for. *)
Lemma lv_of_path_or_query_witness :
  http.MountLV (fun s => s) exampleConfig "s3cret" [("lv", "/dev/vg0/snap1")]
    {| http.Query := [("token", ["s3cret"]); ("lv", ["/dev/vg0/data"])] |} notMounted
  = Done (500%Z, http.Pointer {| http.Code := http.ERROR;
                                 http.Message := "exit status 127";
                                 http.Details := None |})
         (ran notMounted ("mount", ["/dev/vg0/snap1"; "/mnt/snap"])).
Proof.
  refine (proj1 (proj2 (proj2
            (lv_of_path_or_query (fun s => s) exampleConfig "s3cret"
               [("lv", "/dev/vg0/snap1")]
               {| http.Query := [("token", ["s3cret"]); ("lv", ["/dev/vg0/data"])] |}
               notMounted "/dev/vg0/snap1" eq_refl _))) _ "" (ExecError "exit status 127") _).
  - left. split; [discriminate | reflexivity].
  - discriminate.
  - reflexivity.
Defined.

(** With the token, the route of the disk usage always answers, after
    [du -sb] on the [path] of the query and nothing else: status 200 and
    the number [du] printed exactly when [du] succeeds and the first field
    of its first row is a numeral of a number that fits an [int64], and
    status 500 otherwise.  A request without [path] is not refused:
    [du -sb] runs with no operand. *)
Theorem DiskUsage_handler_spec (Quote : string -> string) (hash : string)
  (params : http.Params) (req : http.Request) (h : Host) :
  http.Get (http.Query req) "token" = hash ->
  (exists status v,
     http.DiskUsage Quote hash params req h
     = Done (status, v) (ran h (argv (duCommand (http.Get (http.Query req) "path"))))
     /\ (status = 200%Z \/ status = 500%Z)
     /\ (status = 200%Z
         <-> snd (answer h (argv (duCommand (http.Get (http.Query req) "path")))) = None
             /\ isNumeral (firstField (fst (answer h
                   (argv (duCommand (http.Get (http.Query req) "path")))))) = true
             /\ isInt64 (numeralValue (firstField (fst (answer h
                   (argv (duCommand (http.Get (http.Query req) "path"))))))) = true)
     /\ (status = 200%Z
         -> v = http.Value (http.OfInt64 (numeralValue (firstField (fst (answer h
                  (argv (duCommand (http.Get (http.Query req) "path"))))))))))
  /\ (http.Get (http.Query req) "path" = "" ->
      argv (duCommand (http.Get (http.Query req) "path")) = ("du", ["-sb"])).
Proof.
  intros Htoken. split; [|intros ->; reflexivity].
  unfold http.DiskUsage. rewrite (validateToken_ok _ _ Htoken). unfold bind.
  destruct (DiskUsage_cases (http.Get (http.Query req) "path") h)
    as (n & err & -> & _ & Herr & Hn).
  destruct err as [e|]; unfold http.JSON, ret; eexists _, _; (split; [reflexivity|]).
  - split; [now right|]. split; [split|]; try discriminate.
    intro H. apply Herr in H. discriminate.
  - split; [now left|]. split; [split; [intros _; now apply Herr | reflexivity]|].
    intros _. now rewrite (Hn eq_refl).
Qed.

(** No [path] in the query. *)
Lemma DiskUsage_handler_spec_witness :
  argv (duCommand (http.Get (http.Query {| http.Query := [("token", ["s3cret"])] |}) "path"))
  = ("du", ["-sb"]).
Proof.
  apply (proj2 (DiskUsage_handler_spec (fun s => s) "s3cret" []
                  {| http.Query := [("token", ["s3cret"])] |} silent eq_refl)).
  reflexivity.
Defined.

(** With the token, when [lvs] prints whole rows, the route of the
    snapshot volumes selects the volumes whose name contains the
    configured filter, in the order of [lvs]: the selection goes by the
    name alone, whether [lvs] reports a snapshot percent for the volume or
    not.  When the percent of every selected volume is a number, the
    answer is status 200 and the selected volumes; when the percent of one
    of them is NaN or infinite, [encoding/json] refuses it and the answer
    is status 500 and a line of plain text.  Either way [lvs] is the one
    command run. *)
Theorem ListSnapshotsLogicalVolumes_by_name (Quote : string -> string)
  (Config : config.Configuration) (hash : string)
  (params : http.Params) (req : http.Request) (output : string) (h : Host) :
  http.Get (http.Query req) "token" = hash ->
  answer h (argv (lvsCommand "")) = (output, None) ->
  Forall (fun row => 5 <= List.length row) (rows output) ->
  (Forall (fun lv => isNaNOrInf (LogicalVolume.SnapshotPercent lv) = false)
          (List.filter (nameContains (config.SnapshotVolumesFilter Config))
                       (List.map volumeOfTokens (rows output))) ->
   http.ListSnapshotsLogicalVolumes Quote Config hash params req h
   = Done (200%Z,
           http.Value (http.OfLogicalVolumes
             (List.filter (nameContains (config.SnapshotVolumesFilter Config))
                          (List.map volumeOfTokens (rows output)))))
          (ran h (argv (lvsCommand ""))))
  /\ (Exists (fun lv => isNaNOrInf (LogicalVolume.SnapshotPercent lv) = true)
             (List.filter (nameContains (config.SnapshotVolumesFilter Config))
                          (List.map volumeOfTokens (rows output))) ->
      exists str,
        In str ["NaN"; "+Inf"; "-Inf"]
        /\ http.ListSnapshotsLogicalVolumes Quote Config hash params req h
           = Done (500%Z, http.PlainText ("json: unsupported value: " ++ str ++ nl))
                  (ran h (argv (lvsCommand "")))).
Proof.
  intros Htoken Hans Hrows. unfold http.ListSnapshotsLogicalVolumes.
  rewrite (validateToken_ok _ _ Htoken). unfold bind.
  rewrite (LogicalVolumes_returns "" _ output h Hans Hrows). rewrite JSON_volumes.
  split.
  - intro Hall. now rewrite (Marshal_volumes_none _ Hall).
  - intro Hex.
    destruct (http.Marshal_volumes _) as [msg|] eqn:E.
    + destruct (Marshal_volumes_message _ _ E) as (str & -> & Hstr & _).
      exists str. split; [exact Hstr | reflexivity].
    + exfalso. revert E Hex. generalize (List.filter
        (nameContains (config.SnapshotVolumesFilter Config))
        (List.map volumeOfTokens (rows output))). intros l E Hex.
      induction Hex as [lv l Hlv | lv l Hex IH].
      * cbn [http.Marshal_volumes] in E. unfold http.unsupportedValue in E.
        unfold isNaNOrInf in Hlv.
        destruct (PrimFloat.is_nan _); [discriminate|].
        destruct (_ =? infinity)%float; [discriminate|].
        destruct (_ =? neg_infinity)%float; [discriminate|]. discriminate.
      * cbn [http.Marshal_volumes] in E.
        destruct (http.unsupportedValue _); [discriminate | auto].
Qed.

(** A volume that is no snapshot and whose name holds the filter, and a
    snapshot whose name does not. *)
Lemma ListSnapshotsLogicalVolumes_by_name_witness :
  http.ListSnapshotsLogicalVolumes (fun s => s) exampleConfig "s3cret" []
    {| http.Query := [("token", ["s3cret"])] |} (lvsHost lvsMisnamed)
  = Done (200%Z,
          http.Value (http.OfLogicalVolumes
            (List.filter (nameContains (config.SnapshotVolumesFilter exampleConfig))
                         (List.map volumeOfTokens (rows lvsMisnamed)))))
         (ran (lvsHost lvsMisnamed) (argv (lvsCommand ""))).
Proof.
  apply (ListSnapshotsLogicalVolumes_by_name (fun s => s) exampleConfig "s3cret" []
           {| http.Query := [("token", ["s3cret"])] |} lvsMisnamed (lvsHost lvsMisnamed)).
  - reflexivity.
  - reflexivity.
  - vm_compute. repeat constructor.
  - vm_compute. repeat constructor.
Defined.

Example ListSnapshotsLogicalVolumes_misnamed :
  http.ListSnapshotsLogicalVolumes (fun s => s) exampleConfig "s3cret" []
    {| http.Query := [("token", ["s3cret"])] |} (lvsHost lvsMisnamed)
  = Done (200%Z, http.Value (http.OfLogicalVolumes [volume "snapped" false 0]))
         (ran (lvsHost lvsMisnamed) (argv (lvsCommand ""))).
Proof. vm_compute. reflexivity. Qed.

(** A snapshot named by the filter whose percent is beyond every
    [float32]. *)
Example ListSnapshotsLogicalVolumes_infinite_percent :
  http.ListSnapshotsLogicalVolumes (fun s => s) exampleConfig "s3cret" []
    {| http.Query := [("token", ["s3cret"])] |} (lvsHost lvsHugePercent)
  = Done (500%Z, http.PlainText ("json: unsupported value: +Inf" ++ nl))
         (ran (lvsHost lvsHugePercent) (argv (lvsCommand ""))).
Proof. vm_compute. reflexivity. Qed.
